(** * A shallow embedding of the osf4/socks5 library

    The development follows the Go sources file by file: the wire codecs
    (addr.go, negotiation.go, the password, request/reply and UDP-header
    messages), the sticky-error reader of internal/errio, the framed
    connection, the server's command handling, the client and the UDP
    connection.  The parts of the Go standard library the code relies on
    (io, bufio, bytes, net, strconv) are modelled next to the code that
    calls them.

    Conventions.
    - A Go [byte] is an [ascii]; [byte_of_nat] is the conversion [byte(n)],
      which keeps the low eight bits.
    - A Go [[]byte] is a [list byte], a Go [string] a [string].
    - A Go [error] is an [option error]; [None] is [nil].
    - A method with a pointer receiver returns the receiver's new value. *)

From Stdlib Require Import String Ascii NArith Arith Bool Lia List.
From Stdlib Require DecimalString HexadecimalString DecimalN.
Import ListNotations.

Local Open Scope string_scope.
Local Open Scope list_scope.
Local Open Scope nat_scope.

(* ===================================================================== *)
(** * Bytes *)
(* ===================================================================== *)

Abbreviation byte := ascii (only parsing).

(** [byte(n)]: conversion of an integer to a byte, modulo 256. *)
Definition byte_of_nat (n : nat) : byte := ascii_of_nat n.
Definition nat_of_byte (b : byte) : nat := nat_of_ascii b.

(** [make([]byte, n)] *)
Definition make (n : nat) : list byte := repeat zero n.

(** [copy(dst, src)] on a destination slice [dst]: the first
    [min (len dst) (len src)] bytes are overwritten. *)
Definition copy (dst src : list byte) : list byte * nat :=
  let n := Nat.min (length dst) (length src) in
  (firstn n src ++ skipn n dst, n).

(** Byte [i] of a slice; the slices indexed below are allocated with a
    fixed length, so the default is never used. *)
Definition at_ (b : list byte) (i : nat) : byte := nth i b zero.

(* ===================================================================== *)
(** * Errors (errors.go and github.com/joomcode/errorx) *)
(* ===================================================================== *)

(** [repType] is a byte; the constants are those of the request/reply file. *)
Definition repType := byte.

Definition RepSucceeded          : repType := byte_of_nat 0.
Definition RepServerFailure      : repType := byte_of_nat 1.
Definition RepConnNotAllowed     : repType := byte_of_nat 2.
Definition RepNetworkUnreachable : repType := byte_of_nat 3.
Definition RepHostUnreachable    : repType := byte_of_nat 4.
Definition RepConnRefused        : repType := byte_of_nat 5.
Definition RepTTLExpired         : repType := byte_of_nat 6.
Definition RepCmdNotSupported    : repType := byte_of_nat 7.
Definition RepAddrNotSupported   : repType := byte_of_nat 8.

(** The two errorx types of the [socks5] namespace. *)
Inductive errType := ErrProtocol | ErrConn.

(** Error values.  Format arguments of the errorx messages are not kept:
    no code path inspects a message. *)
Inductive error :=
| EOF                                             (* io.EOF *)
| ErrShortWrite                                   (* io.ErrShortWrite *)
| ErrNetClosed                                    (* net.ErrClosed *)
| ErrCanceled                                     (* context.Canceled *)
| ErrDeadlineExceeded                             (* context.DeadlineExceeded *)
| ErrNet (msg : string)                           (* an error of the net package *)
| ErrNew (t : errType) (msg : string)             (* t.New(msg, ...) *)
| ErrWrap (t : errType) (cause : error) (msg : string) (* t.Wrap(cause, msg, ...) *)
| ErrorContext (code : repType)                   (* *errorContext *)
| ErrSOCKS (code : repType) (cause : error)       (* a non-nil *Error *)
| ErrSOCKSNil                                     (* a nil *Error held in an error interface *)
| Panic (msg : string).                           (* a run-time panic; not an error value in Go, the
                                                     model reports it where the error would be *)

(** [SOCKSError]: a [*Error], [nil] when the code is [RepSucceeded]. *)
Definition SOCKSError (code : repType) (cause : error) : option (repType * error) :=
  if Ascii.eqb code RepSucceeded then None else Some (code, cause).

(** Conversion of a [*Error] to the interface type [error] at a [return]:
    the interface value is non-nil even when the pointer is nil. *)
Definition error_of_Error (e : option (repType * error)) : error :=
  match e with
  | Some (code, cause) => ErrSOCKS code cause
  | None => ErrSOCKSNil
  end.

(** [IsSOCKSError]: the dynamic type of a non-nil error is [*Error]. *)
Definition IsSOCKSError (err : option error) : bool :=
  match err with
  | None => false
  | Some (ErrSOCKS _ _) | Some ErrSOCKSNil => true
  | Some _ => false
  end.

(* ===================================================================== *)
(** * io.Reader and io.Writer *)
(* ===================================================================== *)

(** The result of [Read(p)]: the contents of [p] after the call, [n] and
    [err]. *)
Definition readResult : Type := list byte * nat * option error.

(** [io.Reader]: [Read] returns its result and the reader's next state. *)
Class Reader (R : Type) := io_Read : R -> list byte -> readResult * R.

(** [io.Writer]: [Write(p)] returns [n], [err] and the writer's next state. *)
Class Writer (W : Type) := io_Write : W -> list byte -> (nat * option error) * W.

(* ===================================================================== *)
(** * internal/errio/errio.go *)
(* ===================================================================== *)

Record ErrReader (R : Type) := mkErrReader { err : option error; rd : R }.
Arguments mkErrReader {R} _ _.
Arguments err {R} _.
Arguments rd {R} _.

(** The dynamic value of an [io.Reader] argument: the code tests whether it
    is an [*ErrReader]. *)
Inductive ioReader (R : Type) :=
| PlainR (r : R)
| ErrR (erd : ErrReader R).
Arguments PlainR {R} _.
Arguments ErrR {R} _.

(** [NewReader]: an [*ErrReader] is returned as it is (the same object),
    any other reader is wrapped. *)
Definition NewReader {R} (r : ioReader R) : ErrReader R :=
  match r with
  | ErrR erd => erd
  | PlainR r => mkErrReader None r
  end.

(** What the caller's reader has become once the callee has used the
    [ErrReader] obtained from it with [NewReader]: the same object when the
    argument was an [*ErrReader], the underlying reader (the wrapper is
    local to the callee) otherwise. *)
Definition ioReader_after {R} (r : ioReader R) (erd : ErrReader R) : ioReader R :=
  match r with
  | ErrR _ => ErrR erd
  | PlainR _ => PlainR (rd erd)
  end.

Definition ErrReader_Read {R} `{Reader R} (r : ErrReader R) (p : list byte)
  : readResult * ErrReader R :=
  match err r with
  | Some e => ((p, 0, Some e), r)
  | None =>
      let '((p', n, e), rd') := io_Read (rd r) p in
      ((p', n, e), mkErrReader e rd')
  end.

Definition ErrReader_Error {R} (r : ErrReader R) : option error := err r.

Definition ErrReader_Wrap {R} (r : ErrReader R) (t : errType) (msg : string)
  : option error :=
  match err r with
  | None => None
  | Some e => Some (ErrWrap t e msg)
  end.

#[export] Instance ErrReader_Reader {R} `{Reader R} : Reader (ErrReader R) :=
  fun r p => ErrReader_Read r p.

(** A run of [Read] calls with the buffers [ps]: the results in order and
    the final state. *)
Fixpoint ErrReader_Reads {R} `{Reader R} (r : ErrReader R) (ps : list (list byte))
  : list readResult * ErrReader R :=
  match ps with
  | [] => ([], r)
  | p :: ps' =>
      let '(res, r1) := ErrReader_Read r p in
      let '(ress, r2) := ErrReader_Reads r1 ps' in
      (res :: ress, r2)
  end.

(** A reader instrumented with the number of times its [Read] was invoked. *)
Record Counting (R : Type) := mkCounting { calls : nat; inner : R }.
Arguments mkCounting {R} _ _.
Arguments calls {R} _.
Arguments inner {R} _.

#[export] Instance Counting_Reader {R} `{Reader R} : Reader (Counting R) :=
  fun c p =>
    let '(res, r') := io_Read (inner c) p in
    (res, mkCounting (S (calls c)) r').

(* ===================================================================== *)
(** * The Go standard library: in-memory readers and network connections *)
(* ===================================================================== *)

(** [bytes.Reader] over the unread part of its slice.  At the end of the
    slice [Read] returns [io.EOF], also for an empty [p]. *)
Record bytesReader := mkBytesReader { unread : list byte }.

#[export] Instance bytesReader_Reader : Reader bytesReader :=
  fun r p =>
    match unread r with
    | [] => ((p, 0, Some EOF), r)
    | s =>
        let '(p', n) := copy p s in
        ((p', n, None), mkBytesReader (skipn n s))
    end.

(** A [net.Conn] on a byte stream, seen from this end: the bytes the peer
    has sent and that were not read yet, the bytes written to the peer, and
    whether this end was closed.  The peer's bytes are all there when [Read]
    is called; once they are consumed the peer is taken to have shut its side
    ([io.EOF]).  A zero-length [Read] returns at once with no error, and any
    operation on a closed connection fails with [net.ErrClosed]. *)
Record RawConn := mkRawConn {
  rc_in : list byte;
  rc_out : list byte;
  rc_closed : bool
}.

Definition RawConn_Read (c : RawConn) (p : list byte) : readResult * RawConn :=
  if rc_closed c then ((p, 0, Some ErrNetClosed), c)
  else
    match p with
    | [] => ((p, 0, None), c)
    | _ =>
        match rc_in c with
        | [] => ((p, 0, Some EOF), c)
        | s =>
            let '(p', n) := copy p s in
            ((p', n, None), mkRawConn (skipn n s) (rc_out c) (rc_closed c))
        end
    end.

Definition RawConn_Write (c : RawConn) (p : list byte) : (nat * option error) * RawConn :=
  if rc_closed c then ((0, Some ErrNetClosed), c)
  else ((length p, None), mkRawConn (rc_in c) (rc_out c ++ p) (rc_closed c)).

Definition RawConn_Close (c : RawConn) : option error * RawConn :=
  if rc_closed c then (Some ErrNetClosed, c)
  else (None, mkRawConn (rc_in c) (rc_out c) true).

#[export] Instance RawConn_Reader : Reader RawConn := RawConn_Read.
#[export] Instance RawConn_Writer : Writer RawConn := RawConn_Write.

(** [io.ReadAll]: read until an error; [io.EOF] is not reported.  The Go
    loop reads into the spare capacity of a slice it grows as needed; the
    model reads 512 bytes at a time (the initial capacity), which splits the
    reads differently but collects the same bytes.  The loop runs as long as
    the reader returns no error, hence the fuel; [None] is fuel exhausted. *)
Fixpoint io_ReadAll {R} `{Reader R} (fuel : nat) (r : R) (acc : list byte)
  : option ((list byte * option error) * R) :=
  match fuel with
  | O => None
  | S fuel' =>
      let '((p, n, e), r') := io_Read r (make 512) in
      let acc' := acc ++ firstn n p in
      match e with
      | Some EOF => Some ((acc', None), r')
      | Some e' => Some ((acc', Some e'), r')
      | None => io_ReadAll fuel' r' acc'
      end
  end.

(* ===================================================================== *)
(** * The Go standard library: bufio.Writer *)
(* ===================================================================== *)

(** A [bufio.Writer] over a writer [W]: the sticky error, the buffered bytes
    [buf[0:n]], the buffer's length and the underlying writer. *)
Record bufWriter (W : Type) := mkBufWriter {
  bw_err : option error;
  bw_buf : list byte;
  bw_size : nat;
  bw_wr : W
}.
Arguments mkBufWriter {W} _ _ _ _.
Arguments bw_err {W} _.
Arguments bw_buf {W} _.
Arguments bw_size {W} _.
Arguments bw_wr {W} _.

Definition bufio_Available {W} (b : bufWriter W) : nat := bw_size b - length (bw_buf b).
Definition bufio_Buffered {W} (b : bufWriter W) : nat := length (bw_buf b).

Definition bufio_Flush {W} `{Writer W} (b : bufWriter W) : option error * bufWriter W :=
  match bw_err b with
  | Some e => (Some e, b)
  | None =>
      match bw_buf b with
      | [] => (None, b)
      | buf =>
          let '((n, e), wr') := io_Write (bw_wr b) buf in
          let e := match e with
                   | None => if n <? length buf then Some ErrShortWrite else None
                   | Some e' => Some e'
                   end in
          match e with
          | Some e' => (Some e', mkBufWriter (Some e') (skipn n buf) (bw_size b) wr')
          | None => (None, mkBufWriter None [] (bw_size b) wr')
          end
      end
  end.

(** The loop of [Write]: while [p] does not fit and no error occurred, either
    hand [p] to the underlying writer (empty buffer) or fill the buffer and
    flush it.  A conforming writer makes progress at each turn, so
    [2 + len(p)] turns are enough; an underlying writer that accepts nothing
    and reports no error would keep the Go loop spinning, and the model stops
    with [io.ErrShortWrite]. *)
Fixpoint bufio_Write_loop {W} `{Writer W} (fuel : nat) (b : bufWriter W)
  (p : list byte) (nn : nat) : (nat * option error) * bufWriter W :=
  if (bufio_Available b <? length p) && (match bw_err b with None => true | Some _ => false end)
  then
    match fuel with
    | O => ((nn, Some ErrShortWrite), b)
    | S fuel' =>
        match bw_buf b with
        | [] =>
            let '((n, e), wr') := io_Write (bw_wr b) p in
            bufio_Write_loop fuel' (mkBufWriter e [] (bw_size b) wr') (skipn n p) (nn + n)
        | buf =>
            let n := Nat.min (bufio_Available b) (length p) in
            let '(_, b') := bufio_Flush (mkBufWriter (bw_err b) (buf ++ firstn n p) (bw_size b) (bw_wr b)) in
            bufio_Write_loop fuel' b' (skipn n p) (nn + n)
        end
    end
  else
    match bw_err b with
    | Some e => ((nn, Some e), b)
    | None =>
        let n := Nat.min (bufio_Available b) (length p) in
        ((nn + n, None), mkBufWriter None (bw_buf b ++ firstn n p) (bw_size b) (bw_wr b))
    end.

Definition bufio_Write {W} `{Writer W} (b : bufWriter W) (p : list byte)
  : (nat * option error) * bufWriter W :=
  bufio_Write_loop (2 + length p) b p 0.

Definition bufio_WriteByte {W} `{Writer W} (b : bufWriter W) (c : byte)
  : option error * bufWriter W :=
  match bw_err b with
  | Some e => (Some e, b)
  | None =>
      let '(fe, b1) := if bufio_Available b <=? 0 then bufio_Flush b else (None, b) in
      match fe with
      | Some _ => (bw_err b1, b1)
      | None => (None, mkBufWriter (bw_err b1) (bw_buf b1 ++ [c]) (bw_size b1) (bw_wr b1))
      end
  end.

(** [WriteString] (reached through [io.WriteString]) buffers and flushes as
    [Write] does; the two differ only in how a string that overflows the
    buffer is cut into calls of the underlying writer, which a byte stream
    does not show. *)
Definition bufio_WriteString {W} `{Writer W} (b : bufWriter W) (s : string)
  : (nat * option error) * bufWriter W :=
  bufio_Write b (list_ascii_of_string s).

#[export] Instance bufWriter_Writer {W} `{Writer W} : Writer (bufWriter W) :=
  fun b p => bufio_Write b p.

(** The dynamic value of an [io.Writer] argument: [bufio.NewWriterSize] tests
    whether it is a [*bufio.Writer]. *)
Inductive ioWriter (W : Type) :=
| PlainW (w : W)
| BufW (b : bufWriter W).
Arguments PlainW {W} _.
Arguments BufW {W} _.

Definition defaultBufSize : nat := 4096.

Definition bufio_new {W} (wr : W) (size : nat) : bufWriter W :=
  mkBufWriter None [] (if size <=? 0 then defaultBufSize else size) wr.

(** [w := bufio.NewWriterSize(wr, size)] followed by [body] working on [w].
    When [wr] is a [*bufio.Writer] whose buffer has at least [size] bytes,
    [w] is [wr] itself and [body] acts on the caller's writer.  Otherwise [w]
    is a new writer on top of [wr], local to the callee: what it still
    buffers when [body] ends never reaches [wr]. *)
Definition with_NewWriterSize {W} `{Writer W} {X : Type} (wr : ioWriter W) (size : nat)
  (body : forall U : Type, Writer U -> bufWriter U -> X * bufWriter U)
  : X * ioWriter W :=
  match wr with
  | BufW b =>
      if size <=? bw_size b
      then let '(x, b') := body W _ b in (x, BufW b')
      else let '(x, b2) := body (bufWriter W) _ (bufio_new b size) in (x, BufW (bw_wr b2))
  | PlainW w =>
      let '(x, b) := body W _ (bufio_new w size) in (x, PlainW (bw_wr b))
  end.

(** The [*bufio.Writer] behind an [io.Writer] value the caller built with
    [BufW]; callees return the kind of writer they were given. *)
Definition the_bufWriter {W} (wr : ioWriter W) (dflt : bufWriter W) : bufWriter W :=
  match wr with
  | BufW b => b
  | PlainW _ => dflt
  end.

(* ===================================================================== *)
(** * The Go standard library: net and strconv *)
(* ===================================================================== *)

(** s[i:] and s[:i] on strings. *)
Definition str_from (s : string) (i : nat) : string := substring i (String.length s - i) s.
Definition str_to (s : string) (i : nat) : string := substring 0 i s.

(** [bytealg.IndexByteString] and [bytealg.LastIndexByteString]; [None] is -1. *)
Fixpoint IndexByteString (s : string) (c : byte) : option nat :=
  match s with
  | EmptyString => None
  | String a s' =>
      if Ascii.eqb a c then Some 0
      else match IndexByteString s' c with Some i => Some (S i) | None => None end
  end.

Fixpoint LastIndexByteString (s : string) (c : byte) : option nat :=
  match s with
  | EmptyString => None
  | String a s' =>
      match LastIndexByteString s' c with
      | Some i => Some (S i)
      | None => if Ascii.eqb a c then Some 0 else None
      end
  end.

Definition is_digit (c : byte) : bool :=
  (48 <=? nat_of_byte c) && (nat_of_byte c <=? 57).

(** [l[i] = v] on a fixed-length array. *)
Fixpoint set_at (l : list byte) (i : nat) (v : byte) : list byte :=
  match l, i with
  | [], _ => []
  | _ :: t, O => v :: t
  | h :: t, S i' => h :: set_at t i' v
  end.

(** [netip.parseIPv4]: four decimal fields of value at most 255, separated
    by dots, none empty and none with a leading zero.  The loop runs over
    the bytes of [s]; [i] is the index of the byte at hand, [prev] the byte
    before it. *)
Fixpoint parseIPv4_loop (s : list byte) (i len : nat) (prev : byte)
  (val pos digLen : nat) (fields : list byte) : option (list byte) :=
  match s with
  | [] => if pos <? 3 then None else Some (set_at fields 3 (byte_of_nat val))
  | c :: s' =>
      if is_digit c then
        if (digLen =? 1) && (val =? 0) then None
        else
          let val := val * 10 + (nat_of_byte c - 48) in
          if 255 <? val then None
          else parseIPv4_loop s' (S i) len c val pos (S digLen) fields
      else if Ascii.eqb c "." then
        if (i =? 0) || (i =? len - 1) || Ascii.eqb prev "." then None
        else if pos =? 3 then None
        else parseIPv4_loop s' (S i) len c 0 (S pos) 0 (set_at fields pos (byte_of_nat val))
      else None
  end.

Definition parseIPv4 (s : string) : option (list byte) :=
  parseIPv4_loop (list_ascii_of_string s) 0 (String.length s) zero 0 0 0 (make 4).

Definition hex_value (c : byte) : option N :=
  let n := nat_of_byte c in
  if (48 <=? n) && (n <=? 57) then Some (N.of_nat (n - 48))
  else if (97 <=? n) && (n <=? 102) then Some (N.of_nat (n - 97 + 10))
  else if (65 <=? n) && (n <=? 70) then Some (N.of_nat (n - 65 + 10))
  else None.

(** The hexadecimal field at the head of [s]: its value, the number [off] of
    digits read and the rest of [s]; [None] when the field has more than
    four digits.  ([off = 0] is left to the caller.) *)
Fixpoint parseIPv6_hex (s : list byte) (off : nat) (acc : N) : option (N * nat * list byte) :=
  match s with
  | [] => Some (acc, off, [])
  | c :: s' =>
      match hex_value c with
      | None => Some (acc, off, s)
      | Some d =>
          let acc := (N.shiftl acc 4 + d)%N in
          if 3 <? off then None
          else if (65535 <? acc)%N then None
          else parseIPv6_hex s' (S off) acc
      end
  end.

(** Whether [s] starts with the byte [c]. *)
Definition starts_with (c : byte) (s : list byte) : bool :=
  match s with
  | x :: _ => Ascii.eqb x c
  | [] => false
  end.

(** The main loop of [netip.parseIPv6] ([for i < 16]); every turn stores two
    bytes, so eight turns are the most there can be.  The result is the
    array, the index reached, the position of the ellipsis and what is left
    of the string. *)
Fixpoint parseIPv6_loop (fuel : nat) (s : list byte) (i : nat) (ip : list byte)
  (ellipsis : option nat) : option (list byte * nat * option nat * list byte) :=
  if 16 <=? i then Some (ip, i, ellipsis, s)
  else
    match fuel with
    | O => None
    | S fuel' =>
        match parseIPv6_hex s 0 0 with
        | None => None
        | Some (acc, off, rest) =>
            if off =? 0 then None
            else if starts_with "." rest then
              (* an IPv4 address in the last four bytes *)
              if (match ellipsis with None => true | Some _ => false end) && negb (i =? 12)
              then None
              else if 16 <? i + 4 then None
              else
                match parseIPv4 (string_of_list_ascii s) with
                | None => None
                | Some ip4 =>
                    let ip := set_at ip i (at_ ip4 0) in
                    let ip := set_at ip (i + 1) (at_ ip4 1) in
                    let ip := set_at ip (i + 2) (at_ ip4 2) in
                    let ip := set_at ip (i + 3) (at_ ip4 3) in
                    Some (ip, i + 4, ellipsis, [])
                end
            else
              let ip := set_at ip i (ascii_of_N (N.shiftr acc 8)) in
              let ip := set_at ip (i + 1) (ascii_of_N acc) in
              let i := i + 2 in
              match rest with
              | [] => Some (ip, i, ellipsis, [])
              | c :: rest1 =>
                  if negb (Ascii.eqb c ":") then None
                  else
                    match rest1 with
                    | [] => None
                    | c1 :: rest2 =>
                        if Ascii.eqb c1 ":" then
                          match ellipsis with
                          | Some _ => None
                          | None =>
                              match rest2 with
                              | [] => Some (ip, i, Some i, [])
                              | _ => parseIPv6_loop fuel' rest2 i ip (Some i)
                              end
                          end
                        else parseIPv6_loop fuel' rest1 i ip ellipsis
                    end
              end
        end
    end.

(** The ellipsis of an address parsed up to index [i] stands for the
    [16 - i] zero bytes that are missing: the bytes from the ellipsis on move
    to the end. *)
Definition expand_ellipsis (ip : list byte) (i e : nat) : list byte :=
  let n := 16 - i in
  firstn e ip ++ make n ++ firstn (i - e) (skipn e ip).

(** [netip.parseIPv6]: the sixteen bytes and the zone. *)
Definition parseIPv6 (s_in : string) : option (list byte * string) :=
  let split :=
    match IndexByteString s_in "%" with
    | None => Some (s_in, "")
    | Some i =>
        let zone := str_from s_in (S i) in
        if String.eqb zone "" then None else Some (str_to s_in i, zone)
    end in
  match split with
  | None => None
  | Some (s, zone) =>
      let s := list_ascii_of_string s in
      let '(ellipsis, s) :=
        match s with
        | c1 :: c2 :: s' =>
            if Ascii.eqb c1 ":" && Ascii.eqb c2 ":" then (Some 0, s') else (None, s)
        | _ => (None, s)
        end in
      match ellipsis, s with
      | Some _, [] => Some (make 16, zone)
      | _, _ =>
          match parseIPv6_loop 8 s 0 (make 16) ellipsis with
          | None => None
          | Some (ip, i, ellipsis, rest) =>
              match rest with
              | _ :: _ => None
              | [] =>
                  if i <? 16 then
                    match ellipsis with
                    | None => None
                    | Some e => Some (expand_ellipsis ip i e, zone)
                    end
                  else
                    match ellipsis with
                    | Some _ => None
                    | None => Some (ip, zone)
                    end
              end
          end
      end
  end.

(** A [netip.Addr], as far as the code needs it. *)
Inductive netipAddr :=
| Addr4 (b : list byte)
| Addr6 (b : list byte) (zone : string).

(** [netip.ParseAddr]: the first of '.', ':' and '%' decides. *)
Fixpoint ParseAddr_scan (whole : string) (s : list byte) : option netipAddr :=
  match s with
  | [] => None
  | c :: s' =>
      if Ascii.eqb c "." then option_map Addr4 (parseIPv4 whole)
      else if Ascii.eqb c ":" then option_map (fun '(b, z) => Addr6 b z) (parseIPv6 whole)
      else if Ascii.eqb c "%" then None
      else ParseAddr_scan whole s'
  end.

Definition netip_ParseAddr (s : string) : option netipAddr :=
  ParseAddr_scan s (list_ascii_of_string s).

Definition v4InV6Prefix : list byte :=
  make 10 ++ [byte_of_nat 255; byte_of_nat 255].

(** [Addr.As16] *)
Definition As16 (a : netipAddr) : list byte :=
  match a with
  | Addr4 b => v4InV6Prefix ++ b
  | Addr6 b _ => b
  end.

(** A [net.IP] is a byte slice; [nil] is the empty list. *)
Definition IP := list byte.

(** [net.ParseIP]: the 16-byte form of an address without a zone, or [nil]. *)
Definition ParseIP (s : string) : IP :=
  match netip_ParseAddr s with
  | Some (Addr6 _ (String _ _)) => []
  | Some a => As16 a
  | None => []
  end.

Definition is_nil (ip : IP) : bool := match ip with [] => true | _ => false end.

Definition bytes_eqb (a b : list byte) : bool :=
  String.eqb (string_of_list_ascii a) (string_of_list_ascii b).

(** [isZeros(ip[0:10]) && ip[10] == 0xff && ip[11] == 0xff]: the 16 bytes
    are an IPv4-mapped address. *)
Definition v4InV6 (ip : IP) : bool :=
  bytes_eqb (firstn 10 ip) (make 10)
  && Ascii.eqb (at_ ip 10) (byte_of_nat 255) && Ascii.eqb (at_ ip 11) (byte_of_nat 255).

(** [IP.To4] *)
Definition To4 (ip : IP) : IP :=
  if length ip =? 4 then ip
  else if (length ip =? 16) && v4InV6 ip then firstn 4 (skipn 12 ip)
  else [].

(** [IP.To16] *)
Definition To16 (ip : IP) : IP :=
  if length ip =? 4 then v4InV6Prefix ++ ip
  else if length ip =? 16 then ip
  else [].

(** Decimal and lower-case hexadecimal digits of a number, without leading
    zeros ([strconv.FormatUint] in base 10, [netip]'s [appendHex]). *)
Definition FormatUint (n : N) : string :=
  DecimalString.NilZero.string_of_uint (N.to_uint n).
Definition appendHex (n : N) : string :=
  HexadecimalString.NilZero.string_of_uint (N.to_hex_uint n).

Definition N_of_byte (b : byte) : N := N_of_ascii b.

(** [Addr.string4] *)
Definition string4 (b : list byte) : string :=
  (FormatUint (N_of_byte (at_ b 0)) ++ "." ++ FormatUint (N_of_byte (at_ b 1)) ++ "."
   ++ FormatUint (N_of_byte (at_ b 2)) ++ "." ++ FormatUint (N_of_byte (at_ b 3)))%string.

(** The [i]-th 16-bit group of a 16-byte address. *)
Definition v6u16 (ip : list byte) (i : nat) : N :=
  N.lor (N.shiftl (N_of_byte (at_ ip (2 * i))) 8) (N_of_byte (at_ ip (2 * i + 1))).

(** [for j < 8 && ip.v6u16(j) == 0 { j++ }] *)
Fixpoint skipZeros (ip : list byte) (fuel j : nat) : nat :=
  match fuel with
  | O => j
  | S fuel' =>
      if (j <? 8) && (v6u16 ip j =? 0)%N then skipZeros ip fuel' (S j) else j
  end.

(** The first longest run of at least two zero groups, as [(zeroStart,
    zeroEnd)]; (255, 255) when there is none. *)
Definition zeroRun (ip : list byte) : nat * nat :=
  fold_left
    (fun '(zeroStart, zeroEnd) i =>
       let j := skipZeros ip 8 i in
       let l := j - i in
       if (2 <=? l) && (zeroEnd - zeroStart <? l) then (i, j) else (zeroStart, zeroEnd))
    (seq 0 8) (255, 255).

(** The printing loop of [Addr.string6] ([for i := 0; i < 8; i++]). *)
Fixpoint string6_loop (ip : list byte) (zeroStart zeroEnd : nat) (fuel i : nat)
  (ret : string) : string :=
  match fuel with
  | O => ret
  | S fuel' =>
      if 8 <=? i then ret
      else if i =? zeroStart then
        let ret := (ret ++ "::")%string in
        let i := zeroEnd in
        if 8 <=? i then ret
        else string6_loop ip zeroStart zeroEnd fuel' (S i) (ret ++ appendHex (v6u16 ip i))%string
      else
        let ret := if 0 <? i then (ret ++ ":")%string else ret in
        string6_loop ip zeroStart zeroEnd fuel' (S i) (ret ++ appendHex (v6u16 ip i))%string
  end.

Definition string6 (ip : list byte) : string :=
  let '(zeroStart, zeroEnd) := zeroRun ip in
  string6_loop ip zeroStart zeroEnd 8 0 "".

Definition hexdigit (n : N) : string := appendHex n.

(** [hexString]: two lower-case digits per byte. *)
Fixpoint hexString (b : list byte) : string :=
  match b with
  | [] => ""
  | c :: b' =>
      (hexdigit (N.shiftr (N_of_byte c) 4) ++ hexdigit (N.land (N_of_byte c) 15) ++ hexString b')%string
  end.

(** [IP.String] *)
Definition IP_String (ip : IP) : string :=
  if length ip =? 0 then "<nil>"
  else if negb (length ip =? 4) && negb (length ip =? 16) then ("?" ++ hexString ip)%string
  else
    let p4 := To4 ip in
    if length p4 =? 4 then string4 p4 else string6 ip.

(** [net.SplitHostPort]; the error text is not kept. *)
Definition SplitHostPort (hostport : string) : option (string * string) :=
  match LastIndexByteString hostport ":" with
  | None => None (* missing port in address *)
  | Some i =>
      let bracket :=
        if starts_with "[" (list_ascii_of_string hostport) then
          match IndexByteString hostport "]" with
          | None => None (* missing ']' in address *)
          | Some e =>
              if S e =? String.length hostport then None (* missing port *)
              else if S e =? i then Some (substring 1 (e - 1) hostport, 1, S e)
              else None (* too many colons, or missing port *)
          end
        else
          let host := str_to hostport i in
          match IndexByteString host ":" with
          | Some _ => None (* too many colons in address *)
          | None => Some (host, 0, 0)
          end in
      match bracket with
      | None => None
      | Some (host, j, k) =>
          match IndexByteString (str_from hostport j) "[" with
          | Some _ => None (* unexpected '[' in address *)
          | None =>
              match IndexByteString (str_from hostport k) "]" with
              | Some _ => None (* unexpected ']' in address *)
              | None => Some (host, str_from hostport (S i))
              end
          end
      end
  end.

(** [net.JoinHostPort] *)
Definition JoinHostPort (host port : string) : string :=
  match IndexByteString host ":" with
  | Some _ => ("[" ++ host ++ "]:" ++ port)%string
  | None => (host ++ ":" ++ port)%string
  end.

(** [strconv.ParseUint(s, 10, 16)]: a non-empty string of decimal digits
    whose value fits sixteen bits. *)
Fixpoint ParseUint16_loop (s : list byte) (n : N) : option N :=
  match s with
  | [] => Some n
  | c :: s' =>
      if is_digit c then
        let n1 := (n * 10 + N.of_nat (nat_of_byte c - 48))%N in
        if (65535 <? n1)%N then None else ParseUint16_loop s' n1
      else None
  end.

Definition ParseUint16 (s : string) : option N :=
  match s with
  | EmptyString => None
  | _ => ParseUint16_loop (list_ascii_of_string s) 0%N
  end.

(** [binary.BigEndian.PutUint16] and [binary.BigEndian.Uint16] *)
Definition PutUint16 (v : N) : list byte :=
  [ascii_of_N (N.shiftr v 8); ascii_of_N v].
Definition Uint16 (b : list byte) : N :=
  N.lor (N_of_byte (at_ b 1)) (N.shiftl (N_of_byte (at_ b 0)) 8).

(* ===================================================================== *)
(** * addr.go *)
(* ===================================================================== *)

Definition addrType := byte.

Definition AddrIPV4   : addrType := byte_of_nat 1.
Definition AddrIPv6   : addrType := byte_of_nat 4.
Definition AddrDomain : addrType := byte_of_nat 3.

Record Addr := mkAddr {
  network : string;
  Atyp : addrType;
  Host : string;
  Port : N  (* uint16 *)
}.

Definition parseAtyp (host : string) : addrType :=
  let ip := ParseIP host in
  if negb (is_nil (To4 ip)) then AddrIPV4
  else if negb (is_nil (To16 ip)) then AddrIPv6
  else AddrDomain.

(** [ParseAddr]; [None] is the nil pointer. *)
Definition ParseAddr (network addr : string) : option Addr :=
  match SplitHostPort addr with
  | None => None
  | Some (host, port) =>
      let host := if String.eqb host "" then "0.0.0.0" else host in
      match ParseUint16 port with
      | None => None
      | Some portUint =>
          Some (mkAddr network (parseAtyp host) host portUint)
      end
  end.

(** A [net.Addr]: its [Network()] and its [String()]. *)
Record netAddr := mkNetAddr { na_network : string; na_string : string }.

Definition ParseNetAddr (addr : netAddr) : option Addr :=
  ParseAddr (na_network addr) (na_string addr).

Definition NilAddr : Addr := mkAddr "tcp" AddrIPV4 "0.0.0.0" 0.

Definition ipLength (version : addrType) : nat :=
  if Ascii.eqb version AddrIPV4 then 4
  else if Ascii.eqb version AddrIPv6 then 16
  else 0.

(** [ipBytes]; [ip[12:]] is taken on the 16-byte form [ParseIP] returns. *)
Definition ipBytes (ip : IP) : list byte :=
  if negb (is_nil (To4 ip)) then skipn 12 ip
  else if negb (is_nil (To16 ip)) then ip
  else [].

Definition Addr_Len (a : Addr) : nat :=
  if Ascii.eqb (Atyp a) AddrDomain then 1 + 1 + String.length (Host a) + 2
  else 1 + ipLength (Atyp a) + 2.

Definition Addr_String (a : Addr) : string :=
  JoinHostPort (Host a) (FormatUint (Port a)).

(** The body of [Addr.Write], on the buffered writer [w] that
    [bufio.NewWriterSize(wr, a.Len())] returned.  Nothing is flushed. *)
Definition Addr_Write_body (a : Addr) (U : Type) (HU : Writer U) (w : bufWriter U)
  : option error * bufWriter U :=
  let '(_, w) := bufio_WriteByte w (Atyp a) in
  let host_part :=
    if Ascii.eqb (Atyp a) AddrIPV4 || Ascii.eqb (Atyp a) AddrIPv6 then
      let ip := ParseIP (Host a) in
      if is_nil ip then (Some (ErrNew ErrProtocol "invalid ip address (host=%v, atyp = %v)"), w)
      else (None, snd (bufio_Write w (ipBytes ip)))
    else if Ascii.eqb (Atyp a) AddrDomain then
      let domainLen := byte_of_nat (String.length (Host a)) in
      let '(_, w) := bufio_WriteByte w domainLen in
      (None, snd (bufio_WriteString w (Host a)))
    else (None, w) in
  match host_part with
  | (Some e, w) => (Some e, w)
  | (None, w) =>
      let binaryPort := PutUint16 (Port a) in
      let '(_, w) := bufio_Write w binaryPort in
      (None, w)
  end.

Definition Addr_Write {W} `{Writer W} (a : Addr) (wr : ioWriter W)
  : option error * ioWriter W :=
  with_NewWriterSize wr (Addr_Len a) (Addr_Write_body a).

(** [Addr.Read(network, rd)] ([nw] is the [network] argument): the address
    read into the receiver [a], and the reader. *)
Definition Addr_Read {R} `{Reader R} (a : Addr) (nw : string) (r : ioReader R)
  : (option error * Addr) * ioReader R :=
  let erd := NewReader r in
  let a := mkAddr nw (Atyp a) (Host a) (Port a) in
  let b := make 2 in
  let '((b0, _, _), erd) := ErrReader_Read erd (firstn 1 b) in
  let b := b0 ++ skipn 1 b in
  match ErrReader_Error erd with
  | Some e => ((Some e, a), ioReader_after r erd)
  | None =>
      let a := mkAddr (network a) (at_ b 0) (Host a) (Port a) in
      let host_part :=
        if Ascii.eqb (Atyp a) AddrIPV4 || Ascii.eqb (Atyp a) AddrIPv6 then
          let i := make (ipLength (Atyp a)) in
          let '((i, _, _), erd) := ErrReader_Read erd i in
          (None, mkAddr (network a) (Atyp a) (IP_String i) (Port a), erd)
        else if Ascii.eqb (Atyp a) AddrDomain then
          let '((b0, _, _), erd) := ErrReader_Read erd (firstn 1 b) in
          let b := b0 ++ skipn 1 b in
          let bytesHost := make (nat_of_byte (at_ b 0)) in
          let '((bytesHost, _, _), erd) := ErrReader_Read erd bytesHost in
          (None, mkAddr (network a) (Atyp a) (string_of_list_ascii bytesHost) (Port a), erd)
        else
          (Some (error_of_Error
                   (SOCKSError RepAddrNotSupported (ErrNew ErrProtocol "unknown address type (%v)"))),
           a, erd) in
      match host_part with
      | (Some e, a, erd) => ((Some e, a), ioReader_after r erd)
      | (None, a, erd) =>
          let binaryPort := make 2 in
          let '((binaryPort, _, _), erd) := ErrReader_Read erd binaryPort in
          let a := mkAddr (network a) (Atyp a) (Host a) (Uint16 binaryPort) in
          ((ErrReader_Wrap erd ErrProtocol "unable to read the address", a),
           ioReader_after r erd)
      end
  end.

(* ===================================================================== *)
(** * Protocol constants *)
(* ===================================================================== *)

(** Modelled from the spec: the file that declares [Version] and [isSOCKS5]
    is not among the sources.  The protocol version byte is the constant
    0x05 on every message, and a decoder rejects any other version. *)
Definition Version : byte := byte_of_nat 5.

(** Modelled from the spec: see [Version]. *)
Definition isSOCKS5 (ver : byte) : bool := Ascii.eqb ver Version.

(** Writing to and reading from an [io.Writer] / [io.Reader] value. *)
Definition ioWriter_Write {W} `{Writer W} (wr : ioWriter W) (p : list byte)
  : (nat * option error) * ioWriter W :=
  match wr with
  | PlainW w => let '(res, w') := io_Write w p in (res, PlainW w')
  | BufW b => let '(res, b') := bufio_Write b p in (res, BufW b')
  end.

Definition ioReader_Read {R} `{Reader R} (r : ioReader R) (p : list byte)
  : readResult * ioReader R :=
  match r with
  | PlainR r => let '(res, r') := io_Read r p in (res, PlainR r')
  | ErrR erd => let '(res, erd') := ErrReader_Read erd p in (res, ErrR erd')
  end.

(* ===================================================================== *)
(** * auth.go and negotiation.go: the messages *)
(* ===================================================================== *)

Definition authMethod := byte.

Definition MethodNotRequired  : authMethod := byte_of_nat 0.
Definition MethodPassword     : authMethod := byte_of_nat 2.
Definition MethodNoAcceptable : authMethod := byte_of_nat 255.

(** True, if methods contains the selected authentication method *)
Fixpoint isMethodSupported (method : authMethod) (methods : list authMethod) : bool :=
  match methods with
  | [] => false
  | m :: methods' => if Ascii.eqb m method then true else isMethodSupported method methods'
  end.

Definition methods2Bytes (m : list authMethod) : list byte := map (fun x : authMethod => x) m.
Definition bytes2Methods (b : list byte) : list authMethod := map (fun x : byte => x) b.

Record NegotiationRequest := mkNegotiationRequest { Methods : list authMethod }.

Definition NegotiationRequest_Write {W} `{Writer W} (r : NegotiationRequest) (wr : ioWriter W)
  : option error * ioWriter W :=
  with_NewWriterSize wr (2 + length (Methods r))
    (fun U HU w =>
       let nmethods := byte_of_nat (length (Methods r)) in
       let '(_, w) := bufio_Write w [Version; nmethods] in
       let '(_, w) := bufio_Write w (methods2Bytes (Methods r)) in
       let '(err, w) := bufio_Flush w in
       match err with
       | Some e => (Some (ErrWrap ErrProtocol e "unable to write the negotation request"), w)
       | None => (None, w)
       end).

Definition NegotiationRequest_Read {R} `{Reader R} (r : NegotiationRequest) (rd : ioReader R)
  : (option error * NegotiationRequest) * ioReader R :=
  let erd := NewReader rd in
  let b := make 2 in
  let '((b, _, _), erd) := ErrReader_Read erd b in
  if negb (isSOCKS5 (at_ b 0))
  then ((Some (ErrNew ErrProtocol "invalid protocol version (%v)"), r), ioReader_after rd erd)
  else
    let nmethods := at_ b 1 in
    let methods := make (nat_of_byte nmethods) in
    let '((methods, _, _), erd) := ErrReader_Read erd methods in
    let r := mkNegotiationRequest (bytes2Methods methods) in
    ((ErrReader_Wrap erd ErrProtocol "unable to read the negotiation request", r),
     ioReader_after rd erd).

Record NegotiationReply := mkNegotiationReply { Method : authMethod }.

Definition NegotiationReply_Write {W} `{Writer W} (r : NegotiationReply) (wr : ioWriter W)
  : option error * ioWriter W :=
  let '((_, err), wr) := ioWriter_Write wr [Version; Method r] in
  match err with
  | Some e => (Some (ErrWrap ErrProtocol e "unable to write the negotiation reply"), wr)
  | None => (None, wr)
  end.

Definition NegotiationReply_Read {R} `{Reader R} (r : NegotiationReply) (rd : ioReader R)
  : (option error * NegotiationReply) * ioReader R :=
  let b := make 2 in
  let '((b, _, err), rd) := ioReader_Read rd b in
  match err with
  | Some e => ((Some (ErrWrap ErrProtocol e "unable to read the negotiation reply"), r), rd)
  | None =>
      if negb (isSOCKS5 (at_ b 0))
      then ((Some (ErrNew ErrProtocol "invalid protocol version (%v)"), r), rd)
      else ((None, mkNegotiationReply (at_ b 1)), rd)
  end.

(* ===================================================================== *)
(** * The password authentication messages *)
(* ===================================================================== *)

Definition statusType := byte.

Definition subnegotiationVersion : byte := byte_of_nat 1.
Definition statusOK      : statusType := byte_of_nat 0.
Definition statusFailure : statusType := byte_of_nat 1.

Record PassRequest := mkPassRequest { uname : list byte; passwd : list byte }.

Definition PassRequest_Write {W} `{Writer W} (r : PassRequest) (wr : ioWriter W)
  : option error * ioWriter W :=
  with_NewWriterSize wr (3 + length (uname r) + length (passwd r))
    (fun U HU w =>
       let ulen := byte_of_nat (length (uname r)) in
       let plen := byte_of_nat (length (passwd r)) in
       let '(_, w) := bufio_WriteByte w subnegotiationVersion in
       let '(_, w) := bufio_WriteByte w ulen in
       let '(_, w) := bufio_Write w (uname r) in
       let '(_, w) := bufio_WriteByte w plen in
       let '(_, w) := bufio_Write w (passwd r) in
       let '(err, w) := bufio_Flush w in
       match err with
       | Some e =>
           (Some (ErrWrap ErrProtocol e "unable to write the password authentication request"), w)
       | None => (None, w)
       end).

Definition PassRequest_Read {R} `{Reader R} (r : PassRequest) (rd : ioReader R)
  : (option error * PassRequest) * ioReader R :=
  let erd := NewReader rd in
  let b := make 2 in
  let '((b, _, _), erd) := ErrReader_Read erd b in
  if negb (Ascii.eqb (at_ b 0) subnegotiationVersion)
  then ((Some (ErrNew ErrProtocol "subnegotiation version is wrong (%v)"), r),
        ioReader_after rd erd)
  else
    let '((un, _, _), erd) := ErrReader_Read erd (make (nat_of_byte (at_ b 1))) in
    let r := mkPassRequest un (passwd r) in
    let '((b0, _, _), erd) := ErrReader_Read erd (firstn 1 b) in
    let b := b0 ++ skipn 1 b in
    let '((pw, _, _), erd) := ErrReader_Read erd (make (nat_of_byte (at_ b 0))) in
    let r := mkPassRequest (uname r) pw in
    ((ErrReader_Wrap erd ErrProtocol "unable to read the password authentication request", r),
     ioReader_after rd erd).

Record PassReply := mkPassReply { Status : statusType }.

Definition PassReply_Write {W} `{Writer W} (r : PassReply) (wr : ioWriter W)
  : option error * ioWriter W :=
  let '((_, err), wr) := ioWriter_Write wr [subnegotiationVersion; Status r] in
  match err with
  | Some e =>
      (Some (ErrWrap ErrProtocol e "unable to write the password authentication reply"), wr)
  | None => (None, wr)
  end.

Definition PassReply_Read {R} `{Reader R} (r : PassReply) (rd : ioReader R)
  : (option error * PassReply) * ioReader R :=
  let erd := NewReader rd in
  let b := make 2 in
  let '((b, _, _), erd) := ErrReader_Read erd b in
  if negb (Ascii.eqb (at_ b 0) subnegotiationVersion)
  then ((Some (ErrNew ErrProtocol "subnegotiation version is wrong (%v)"), r),
        ioReader_after rd erd)
  else
    let r := mkPassReply (at_ b 1) in
    ((ErrReader_Wrap erd ErrProtocol "unable to read the password autnetication reply", r),
     ioReader_after rd erd).

(* ===================================================================== *)
(** * Command requests and replies *)
(* ===================================================================== *)

Definition cmdType := byte.

Definition CmdConnect : cmdType := byte_of_nat 1.
Definition CmdBind    : cmdType := byte_of_nat 2.
Definition CmdUDP     : cmdType := byte_of_nat 3.

Definition cmdType_Network (c : cmdType) : string :=
  if Ascii.eqb c CmdConnect || Ascii.eqb c CmdBind then "tcp"
  else if Ascii.eqb c CmdUDP then "udp"
  else "unknown network".

(** True, if c is a valid command (CONNECT, BIND or UDP ASSOCIATE) *)
Definition cmdType_Valid (c : cmdType) : bool := nat_of_byte c <? 4.

(** True, if r is a valid reply (RepSucceeded, RepServerFailure...) *)
Definition repType_Valid (r : repType) : bool := nat_of_byte r <? 9.

(** [new(Addr)] *)
Definition new_Addr : Addr := mkAddr "" zero "" 0.

(** [Dst] is a pointer: [None] is nil. *)
Record Request := mkRequest { Cmd : cmdType; Dst : option Addr }.

Definition nil_dereference : error := Panic "invalid memory address or nil pointer dereference".

Definition Request_Write {W} `{Writer W} (r : Request) (wr : ioWriter W)
  : option error * ioWriter W :=
  match Dst r with
  | None => (Some nil_dereference, wr)
  | Some dst =>
      with_NewWriterSize wr (3 + Addr_Len dst)
        (fun U HU w =>
           (* VER CMD RSV fields *)
           let '(_, w) := bufio_Write w [Version; Cmd r; zero] in
           (* ATYP, DST.ADDR, PORT field *)
           let '(err, wr') := Addr_Write dst (BufW w) in
           let w := the_bufWriter wr' w in
           match err with
           | Some e => (Some e, w)
           | None =>
               let '(err, w) := bufio_Flush w in
               match err with
               | Some e => (Some (ErrWrap ErrProtocol e "unable to write the request"), w)
               | None => (None, w)
               end
           end)
  end.

Definition Request_Read {R} `{Reader R} (r : Request) (rd : ioReader R)
  : (option error * Request) * ioReader R :=
  let erd := NewReader rd in
  let b := make 3 in
  let '((b, _, _), erd) := ErrReader_Read erd b in
  if negb (isSOCKS5 (at_ b 0))
  then ((Some (ErrNew ErrProtocol "invalid protocol version (%v)"), r), ioReader_after rd erd)
  else
    let r := mkRequest (at_ b 1) (Dst r) in
    if negb (cmdType_Valid (Cmd r))
    then ((Some (error_of_Error
                   (SOCKSError RepCmdNotSupported (ErrNew ErrProtocol "unknown command (%v)"))), r),
          ioReader_after rd erd)
    else
      let '((err, dst), rd') := Addr_Read new_Addr (cmdType_Network (Cmd r)) (ErrR erd) in
      ((err, mkRequest (Cmd r) (Some dst)), ioReader_after rd (NewReader rd')).

(** [Bnd] is a pointer: [None] is nil. *)
Record Reply := mkReply { Rep : repType; Bnd : option Addr }.

Definition Reply_Write {W} `{Writer W} (r : Reply) (wr : ioWriter W)
  : option error * ioWriter W :=
  match Bnd r with
  | None => (Some nil_dereference, wr)
  | Some bnd =>
      with_NewWriterSize wr (3 + Addr_Len bnd)
        (fun U HU w =>
           (* VER, REP, RSV fields *)
           let '(_, w) := bufio_Write w [Version; Rep r; zero] in
           (* ATYP, BND.ADDR, PORT fields *)
           let '(err, wr') := Addr_Write bnd (BufW w) in
           let w := the_bufWriter wr' w in
           match err with
           | Some e => (Some e, w)
           | None =>
               let '(err, w) := bufio_Flush w in
               match err with
               | Some e => (Some (ErrWrap ErrProtocol e "unable to write the reply"), w)
               | None => (None, w)
               end
           end)
  end.

Definition Reply_Read {R} `{Reader R} (r : Reply) (rd : ioReader R)
  : (option error * Reply) * ioReader R :=
  let erd := NewReader rd in
  let b := make 3 in
  let '((b, _, _), erd) := ErrReader_Read erd b in
  if negb (isSOCKS5 (at_ b 0))
  then ((Some (ErrNew ErrProtocol "invalid protocol version (%v)"), r), ioReader_after rd erd)
  else
    let r := mkReply (at_ b 1) (Bnd r) in
    if negb (repType_Valid (Rep r))
    then ((Some (ErrNew ErrProtocol "unknown reply code (%v)"), r), ioReader_after rd erd)
    else
      let '((err, bnd), rd') := Addr_Read new_Addr "" (ErrR erd) in
      ((err, mkReply (Rep r) (Some bnd)), ioReader_after rd (NewReader rd')).

(* ===================================================================== *)
(** * The UDP header *)
(* ===================================================================== *)

Record UDPHeader := mkUDPHeader { Frag : byte; udp_Dst : option Addr; Data : list byte }.

Definition UDPHeader_Write {W} `{Writer W} (h : UDPHeader) (wr : ioWriter W)
  : option error * ioWriter W :=
  match udp_Dst h with
  | None => (Some nil_dereference, wr)
  | Some dst =>
      with_NewWriterSize wr (3 + Addr_Len dst + length (Data h))
        (fun U HU w =>
           let '(_, w) := bufio_Write w [zero; zero; Frag h] in
           let '(err, wr') := Addr_Write dst (BufW w) in
           let w := the_bufWriter wr' w in
           match err with
           | Some e => (Some (ErrWrap ErrProtocol e "unable to write the UDP header"), w)
           | None =>
               let '(_, w) := bufio_Write w (Data h) in
               let '(err, w) := bufio_Flush w in
               match err with
               | Some e => (Some (ErrWrap ErrProtocol e "unable to write the UDP header"), w)
               | None => (None, w)
               end
           end)
  end.

(** [UDPHeader.Read]; [fuel] bounds the loop of [io.ReadAll], and [None] is
    fuel exhausted. *)
Definition UDPHeader_Read {R} `{Reader R} (fuel : nat) (h : UDPHeader) (rd : ioReader R)
  : option ((option error * UDPHeader) * ioReader R) :=
  let erd := NewReader rd in
  let b := make 3 in
  let '((b, _, _), erd) := ErrReader_Read erd b in
  let h := mkUDPHeader (at_ b 2) (udp_Dst h) (Data h) in
  let h := mkUDPHeader (Frag h) (Some new_Addr) (Data h) in
  let '((err, dst), rd') := Addr_Read new_Addr "udp" (ErrR erd) in
  let erd := NewReader rd' in
  let h := mkUDPHeader (Frag h) (Some dst) (Data h) in
  match err with
  | Some e => Some ((Some e, h), ioReader_after rd erd)
  | None =>
      match io_ReadAll fuel erd [] with
      | None => None
      | Some ((data, err), erd) =>
          let h := mkUDPHeader (Frag h) (udp_Dst h) data in
          match err with
          | Some _ =>
              Some ((Some (ErrNew ErrProtocol "unable to read the UDP header"), h),
                    ioReader_after rd erd)
          | None => Some ((None, h), ioReader_after rd erd)
          end
      end
  end.

(* ===================================================================== *)
(** * The framed connection *)
(* ===================================================================== *)

(** Message represents messages sent between the server and the client
    (negotiation requests, authentication requests, replies) *)
Class Message (M : Type) := {
  Message_Write : forall W : Type, Writer W -> M -> ioWriter W -> option error * ioWriter W;
  Message_Read : forall R : Type, Reader R -> M -> ioReader R -> (option error * M) * ioReader R
}.

#[export] Instance NegotiationRequest_Message : Message NegotiationRequest :=
  {| Message_Write := @NegotiationRequest_Write; Message_Read := @NegotiationRequest_Read |}.
#[export] Instance NegotiationReply_Message : Message NegotiationReply :=
  {| Message_Write := @NegotiationReply_Write; Message_Read := @NegotiationReply_Read |}.
#[export] Instance PassRequest_Message : Message PassRequest :=
  {| Message_Write := @PassRequest_Write; Message_Read := @PassRequest_Read |}.
#[export] Instance PassReply_Message : Message PassReply :=
  {| Message_Write := @PassReply_Write; Message_Read := @PassReply_Read |}.
#[export] Instance Request_Message : Message Request :=
  {| Message_Write := @Request_Write; Message_Read := @Request_Read |}.
#[export] Instance Reply_Message : Message Reply :=
  {| Message_Write := @Reply_Write; Message_Read := @Reply_Read |}.

(** A [context.Context], as far as the code looks at it: [ctx.Err()], which
    is non-nil exactly when [ctx.Done()] is closed. *)
Record Context := mkContext { ctx_Err : option error }.

Definition ctxBackground : Context := mkContext None.

(** Conn represents SOCKS5 connection *)
Record Conn := mkConn {
  alive : bool;
  raw : RawConn;
  CloseOnContextDone : bool
}.

Definition NewConn (raw : RawConn) : Conn := mkConn true raw true.

Definition Conn_Raw (c : Conn) : RawConn := raw c.
Definition Conn_Alive (c : Conn) : bool := alive c.

Definition Conn_Close (c : Conn) : option error * Conn :=
  let c := mkConn false (raw c) (CloseOnContextDone c) in
  let '(err, raw') := RawConn_Close (raw c) in
  (err, mkConn (alive c) raw' (CloseOnContextDone c)).

Definition Conn_onContextDone (c : Conn) : Conn :=
  if CloseOnContextDone c then snd (Conn_Close c) else c.

(** [processMessage] starts the handler in a goroutine and selects between
    its result and [ctx.Done()].  The model takes the context as it is when
    the call is made: a context that is done wins the select before the
    handler has touched the connection, otherwise the handler runs to its
    end.  (A nil context, on which the Go code panics, is not a [Context].) *)
Definition Conn_processMessage {X : Type} (ctx : Context) (c : Conn) (dflt : X)
  (handler : RawConn -> (option error * X) * RawConn) : (option error * X) * Conn :=
  match ctx_Err ctx with
  | Some e => ((Some e, dflt), Conn_onContextDone c)
  | None =>
      let '(res, raw') := handler (raw c) in
      (res, mkConn (alive c) raw' (CloseOnContextDone c))
  end.

Definition the_plainW {W} (wr : ioWriter W) (dflt : W) : W :=
  match wr with PlainW w => w | BufW _ => dflt end.
Definition the_plainR {R} (r : ioReader R) (dflt : R) : R :=
  match r with PlainR r => r | ErrR _ => dflt end.

(** Send the message to the connection.
    If the context is done, the connection will be closed *)
Definition Conn_WriteMessage {M} `{Message M} (ctx : Context) (c : Conn) (msg : M)
  : option error * Conn :=
  let write := fun rc : RawConn =>
    let '(err, wr) := Message_Write RawConn _ msg (PlainW rc) in
    ((err, tt), the_plainW wr rc) in
  let '((err, _), c) := Conn_processMessage ctx c tt write in
  (err, c).

(** Read a message from the connection.
    If the context is done, the connection will be closed *)
Definition Conn_ReadMessage {M} `{Message M} (ctx : Context) (c : Conn) (msg : M)
  : (option error * M) * Conn :=
  let read := fun rc : RawConn =>
    let '(res, r) := Message_Read RawConn _ msg (PlainR rc) in
    (res, the_plainR r rc) in
  Conn_processMessage ctx c msg read.

(* ===================================================================== *)
(** * negotiation.go: the server side of the negotiation *)
(* ===================================================================== *)

(** Send the negotiation reply to the client. *)
Definition negotiator_Reply (ctx : Context) (c : Conn) (method : authMethod)
  : option error * Conn :=
  let req := mkNegotiationRequest [] in
  let '((err, req), c) := Conn_ReadMessage ctx c req in
  match err with
  | Some e => (Some e, c)
  | None =>
      let rep := mkNegotiationReply zero in
      if negb (isMethodSupported method (Methods req)) then
        let rep := mkNegotiationReply MethodNoAcceptable in
        let '(_, c) := Conn_WriteMessage ctx c rep in
        (Some (ErrNew ErrProtocol "authentication method (%v) is not supported by the client"), c)
      else
        let rep := mkNegotiationReply method in
        Conn_WriteMessage ctx c rep
  end.

(* ===================================================================== *)
(** * noauth.go and the password authentication *)
(* ===================================================================== *)

Record PassAuth := mkPassAuth { user : list byte; pass : list byte }.

(** PassAuth represents the password authentication method *)
Definition NewPassAuth (user password : string) : PassAuth :=
  mkPassAuth (list_ascii_of_string user) (list_ascii_of_string password).

(** [bytes.Equal] *)
Definition bytes_Equal (a b : list byte) : bool := bytes_eqb a b.

(** True, if uname && passwd == a.user && a.pass *)
Definition PassAuth_validCredentials (a : PassAuth) (uname passwd : list byte) : bool :=
  let userValid := bytes_Equal (user a) uname in
  let passValid := bytes_Equal (pass a) passwd in
  userValid && passValid.

Definition PassAuth_Reply (a : PassAuth) (ctx : Context) (c : Conn) : option error * Conn :=
  let req := mkPassRequest [] [] in
  let '((err, req), c) := Conn_ReadMessage ctx c req in
  match err with
  | Some e => (Some e, c)
  | None =>
      let rep := mkPassReply zero in
      let '(rep, c) :=
        if negb (PassAuth_validCredentials a (user a) (pass a)) then
          let rep := mkPassReply statusFailure in
          let '(_, c) := Conn_WriteMessage ctx c rep in
          (rep, c)
        else (rep, c) in
      let rep := mkPassReply statusOK in
      Conn_WriteMessage ctx c rep
  end.

Definition PassAuth_Method (a : PassAuth) : authMethod := MethodPassword.

Definition noAuth_Reply (ctx : Context) (c : Conn) : option error * Conn := (None, c).
Definition noAuth_Method : authMethod := MethodNotRequired.

(** The [Auth] interface with its two implementations. *)
Inductive Auth :=
| NoAuth
| PasswordAuth (a : PassAuth).

Definition Auth_Reply (a : Auth) (ctx : Context) (c : Conn) : option error * Conn :=
  match a with
  | NoAuth => noAuth_Reply ctx c
  | PasswordAuth p => PassAuth_Reply p ctx c
  end.

Definition Auth_Method (a : Auth) : authMethod :=
  match a with
  | NoAuth => noAuth_Method
  | PasswordAuth p => PassAuth_Method p
  end.

(* ===================================================================== *)
(** * The server *)
(* ===================================================================== *)

(** A socket the server obtained from the network (dialled, accepted or
    bound), by its addresses. *)
Record NetConn := mkNetConn { nc_LocalAddr : netAddr; nc_RemoteAddr : netAddr }.

(** What the network answers: [ListenConfig.Listen] and [ListenPacket] by
    network and address, [Accept] by listener, and the successive results of
    [rand.Intn(63035)]. *)
Record Env := mkEnv {
  env_listen : string -> string -> error + NetConn;
  env_accept : NetConn -> error + NetConn;
  env_rand : list nat
}.

(** Server represents SOCKS5 server ([srv_Addr], [srv_Auth] and [srv_ctx]
    are its fields [Addr], [Auth] and [ctx]; the logger, the listener and the
    cancel function play no part below). *)
Record Server := mkServer {
  srv_Addr : string;
  UDPBuffer : nat;
  srv_Auth : Auth;
  Dialer : string -> string -> error + NetConn; (* Dialer.DialContext(ctx, network, address) *)
  Timeout : nat;
  srv_ctx : Context
}.

(** A goroutine that a [go] statement has started.  From that statement on
    it runs concurrently with the code that started it, so that at any later
    point it may have run. *)
Inductive goroutine :=
| go_onTCPClose. (* [c.onTCPClose()] of the [*UDPConn] that records it *)

(** The [*UDPConn] of the server's [udpConn].  Its [control] is held by
    reference: it is the [raw] of the client that the handler returns next
    to the [udpConn].  [uc_started] is the goroutine that [NewUDPConnSize]
    has started by the time it returns. *)
Record UDPConn := mkUDPConn {
  uc_data : NetConn;
  uc_income : list byte; (* buffer for incoming headers *)
  uc_Dst : option Addr;
  uc_started : goroutine
}.

(** Return a UDP connection with custom buffer size:
    [NewUDPConnSize(client.Raw(), data, buffer)], with its
    [go c.onTCPClose()]. *)
Definition NewUDPConnSize (data : NetConn) (buffer : nat) : UDPConn :=
  let buffer := if buffer =? 0 then 65535 (* maxUDPHeaderLength *) else buffer in
  mkUDPConn data (make buffer) None go_onTCPClose.

(** Close the UDP connection, when the control TCP connection is closed:
    [c.control.Read(nil)], whose results are dropped, then [c.Close()], that
    is [c.control.Close()] and [c.data.Close()].  [client] is the connection
    whose [raw] is [c.control]; a bound socket has no state of its own here,
    so that what the goroutine does shows in the client.  It calls
    [Close] of the [net.Conn], not of the [Conn]: [alive] is not touched. *)
Definition UDPConn_onTCPClose (c : UDPConn) (client : Conn) : Conn :=
  let '(_, control) := RawConn_Read (raw client) [] in
  let '(_, control) := RawConn_Close control in
  mkConn (alive client) control (CloseOnContextDone client).

(** The client once the goroutine that [c] records has run. *)
Definition UDPConn_started_ran (c : UDPConn) (client : Conn) : Conn :=
  match uc_started c with
  | go_onTCPClose => UDPConn_onTCPClose c client
  end.

(** The server side of a connection ([tcpConn] or [udpConn]).  The [client]
    field of either is the connection the handlers return next to it. *)
Inductive conn :=
| tcpConn (server : NetConn) (req : Request)
| udpConn (Buffer : nat) (outcome : UDPConn) (income : NetConn) (req : Request).

Definition makeErrorContext (c : Conn) (req : Request) (code : repType) : error :=
  ErrorContext code.

Definition errorContext_Code (e : error) : repType :=
  match e with ErrorContext code => code | _ => zero end.

(** Return an address in format ":port" with random port. Port interval is
    [2500, 65535] *)
Definition randomAddress (rnd : list nat) : string * list nat :=
  let '(r, rnd) := match rnd with [] => (0, []) | r :: rnd' => (r mod 63035, rnd') end in
  let p := r + 2500 in
  let s := FormatUint (N.of_nat p) in
  (JoinHostPort "" s, rnd).

(** Split the addr to host/port and return the port *)
Definition extractPort (addr : string) : string :=
  match SplitHostPort addr with
  | Some (_, port) => port
  | None => ""
  end.

Definition Server_timeoutEnabled (srv : Server) : bool := negb (Timeout srv =? 0).

Definition Server_makeListener (env : Env) (nw addr : string) : error + NetConn :=
  if String.eqb nw "tcp" then env_listen env nw addr
  else if String.eqb nw "udp" then env_listen env nw addr
  else inl (ErrNet "unknown network").

(** Bind the listener at addr. If tryRandomPort == true, it tries to bind
    the listener not at addr, but at a random address.  The recursive call
    passes [false], so the recursion is one level deep. *)
Definition Server_listen (env : Env) (rnd : list nat) (nw addr : string) (tryRandomPort : bool)
  : (error + NetConn) * list nat :=
  match Server_makeListener env nw addr with
  | inl e =>
      if tryRandomPort then
        let '(a, rnd) := randomAddress rnd in
        match Server_makeListener env nw a with
        | inl e' => (inl e', rnd)
        | inr l => (inr l, rnd)
        end
      else (inl e, rnd)
  | inr l => (inr l, rnd)
  end.

(** Send the reply, where r is REP and the BND.ADDR is 0.0.0.0:0 *)
Definition Server_sendFailReply (ctx : Context) (c : Conn) (r : repType) : Conn :=
  let rep := mkReply r (Some NilAddr) in
  snd (Conn_WriteMessage ctx c rep).

(** What a handler returns: [(conn, error)], the client and the random
    numbers left. *)
Definition handlerResult : Type := (option conn * option error) * Conn * list nat.

Definition Dst_String (req : Request) : string :=
  match Dst req with Some d => Addr_String d | None => "" end.

Definition Server_handleCONNECT (srv : Server) (env : Env) (rnd : list nat)
  (ctx : Context) (client : Conn) (req : Request) : handlerResult :=
  match Dialer srv "tcp" (Dst_String req) with
  | inl _ =>
      let errctx := makeErrorContext client req RepHostUnreachable in
      ((None, Some (error_of_Error (SOCKSError (errorContext_Code errctx) errctx))), client, rnd)
  | inr server =>
      let rep := mkReply RepSucceeded (ParseNetAddr (nc_LocalAddr server)) in
      let '(err, client) := Conn_WriteMessage ctx client rep in
      match err with
      | Some e => ((None, Some e), client, rnd)
      | None => ((Some (tcpConn server req), None), client, rnd)
      end
  end.

(** [handleBIND]; the deferred [listener.Close()] acts on the listener
    only. *)
Definition Server_handleBIND (srv : Server) (env : Env) (rnd : list nat)
  (ctx : Context) (client : Conn) (req : Request) : handlerResult :=
  match Server_listen env rnd "tcp" (extractPort (Dst_String req)) true with
  | (inl _, rnd) =>
      let errctx := makeErrorContext client req RepServerFailure in
      ((None, Some (error_of_Error (SOCKSError (errorContext_Code errctx) errctx))), client, rnd)
  | (inr listener, rnd) =>
      (* first reply that contains the address that the server is listening at *)
      let rep := mkReply RepSucceeded (ParseNetAddr (nc_LocalAddr listener)) in
      let '(err, client) := Conn_WriteMessage ctx client rep in
      match err with
      | Some e => ((None, Some e), client, rnd)
      | None =>
          match env_accept env listener with
          | inl _ =>
              let errctx := makeErrorContext client req RepServerFailure in
              ((None, Some (error_of_Error (SOCKSError (errorContext_Code errctx) errctx))),
               client, rnd)
          | inr server =>
              (* second reply that contains the server remote address *)
              let rep := mkReply (Rep rep) (ParseNetAddr (nc_RemoteAddr server)) in
              let '(err, client) := Conn_WriteMessage ctx client rep in
              ((Some (tcpConn server req), err), client, rnd)
          end
      end
  end.

(** [handleUDP].  The reply is written before [NewUDPConnSize] is called:
    the client that is returned is the client as the statements of
    [handleUDP] leave it, and the goroutine that the [outcome] of the
    [udpConn] records runs from then on. *)
Definition Server_handleUDP (srv : Server) (env : Env) (rnd : list nat)
  (ctx : Context) (client : Conn) (req : Request) : handlerResult :=
  match Server_listen env rnd "udp" (Dst_String req) true with
  | (inl _, rnd) =>
      let errctx := makeErrorContext client req RepServerFailure in
      ((None, Some (error_of_Error (SOCKSError (errorContext_Code errctx) errctx))), client, rnd)
  | (inr outcome, rnd) =>
      let '(a, rnd) := randomAddress rnd in
      match Server_listen env rnd "udp" a false with
      | (inl _, rnd) =>
          let errctx := makeErrorContext client req RepServerFailure in
          ((None, Some (error_of_Error (SOCKSError (errorContext_Code errctx) errctx))),
           client, rnd)
      | (inr income, rnd) =>
          let rep := mkReply RepSucceeded (ParseNetAddr (nc_LocalAddr outcome)) in
          let '(err, client) := Conn_WriteMessage ctx client rep in
          match err with
          | Some e => ((None, Some e), client, rnd)
          | None =>
              ((Some (udpConn (UDPBuffer srv) (NewUDPConnSize outcome (UDPBuffer srv)) income req),
                None),
               client, rnd)
          end
      end
  end.

(** Read the request and choose the appropriate handler.

    In case of an error the server sends the failure reply with code of the
    error.  [tctx] is the context [context.WithTimeout] returns when the
    timeout is enabled, in the state it has during the call. *)
Definition Server_handle (srv : Server) (env : Env) (tctx : Context) (client : Conn)
  : handlerResult :=
  let ctx := if Server_timeoutEnabled srv then tctx else ctxBackground in
  let req := mkRequest zero None in
  let '((err, req), client) := Conn_ReadMessage ctx client req in
  match err with
  | Some e => ((None, Some e), client, env_rand env)
  | None =>
      let '((conn, err), client, rnd) :=
        if Ascii.eqb (Cmd req) CmdConnect then
          Server_handleCONNECT srv env (env_rand env) ctx client req
        else if Ascii.eqb (Cmd req) CmdBind then
          Server_handleBIND srv env (env_rand env) ctx client req
        else if Ascii.eqb (Cmd req) CmdUDP then
          Server_handleUDP srv env (env_rand env) ctx client req
        else ((None, None), client, env_rand env) in
      if IsSOCKSError err then
        match err with
        | Some (ErrSOCKS code _) =>
            let client := Server_sendFailReply ctx client code in
            let '(_, client) := Conn_Close client in
            ((conn, err), client, rnd)
        | _ => ((conn, Some nil_dereference), client, rnd)
        end
      else ((conn, err), client, rnd)
  end.

(** Authenticate the client using the appropriate authentication method. *)
Definition Server_auth (srv : Server) (client : Conn) : option error * Conn :=
  let '(err, client) := negotiator_Reply (srv_ctx srv) client (Auth_Method (srv_Auth srv)) in
  match err with
  | Some e => (Some e, client)
  | None =>
      let '(err, client) := Auth_Reply (srv_Auth srv) (srv_ctx srv) client in
      match err with
      | Some e => (Some e, client)
      | None => (None, client)
      end
  end.

(** How far [serve] got before the relay. *)
Inductive served :=
| AuthFailed (e : error)      (* logged, then [return] *)
| HandleFailed (e : error)    (* logged, then [return] *)
| Relay (c : conn)            (* [conn.Transfer(srv.ctx)], then [conn.Close()] *)
| Panicked (e : error).       (* [conn.Request()] on a nil [conn] *)

(** Authenticate the client and handle the request: [serve] up to the
    relay, with the client connection as [serve] leaves it there. *)
Definition Server_serve (srv : Server) (env : Env) (tctx : Context) (c : RawConn)
  : served * Conn :=
  let client := NewConn c in
  let '(err, client) := Server_auth srv client in
  match err with
  | Some e => (AuthFailed e, client)
  | None =>
      let '((conn, err), client, _) := Server_handle srv env tctx client in
      match err with
      | Some e => (HandleFailed e, client)
      | None =>
          match conn with
          | Some cn => (Relay cn, client)
          | None => (Panicked nil_dereference, client)
          end
      end
  end.

(* ===================================================================== *)
(** * UDP associations and the sockets they share *)
(* ===================================================================== *)

(** A [UDPConn] and the server's [udpConn] hold the control connection by
    reference: the same [net.Conn] is the [raw] of the client's [Conn].  The
    sockets therefore live in a store and the structures hold their keys. *)
Module Sockets.

Definition sock := nat.
Definition store := sock -> RawConn.

Definition update (st : store) (s : sock) (c : RawConn) : store :=
  fun s' => if s' =? s then c else st s'.

(** [s.Close()] *)
Definition Close (s : sock) (st : store) : option error * store :=
  let '(err, c) := RawConn_Close (st s) in
  (err, update st s c).

(** [s.Read(p)] *)
Definition Read (s : sock) (p : list byte) (st : store) : readResult * store :=
  let '(res, c) := RawConn_Read (st s) p in
  (res, update st s c).


(** UDPConn represents a UDP connection *)
Record UDPConn := mkUDPConn {
  control : sock;     (* control TCP connection *)
  data : sock;
  income : list byte; (* buffer for incoming headers *)
  UDPConn_Dst : option Addr
}.

Definition maxUDPHeaderLength : nat := 65535.

(** Return a UDP connection with custom buffer size.  The goroutine it
    starts is [UDPConn_onTCPClose]. *)
Definition NewUDPConnSize (control data : sock) (buffer : nat) : UDPConn :=
  let buffer := if buffer =? 0 then maxUDPHeaderLength else buffer in
  mkUDPConn control data (make buffer) None.

Definition UDPConn_Close (c : UDPConn) (st : store) : option error * store :=
  let '(_, st) := Close (control c) st in
  Close (data c) st.

(** Close the UDP connection, when the control TCP connection is closed:
    the goroutine's [c.control.Read(nil)], then [c.Close()]. *)
Definition UDPConn_onTCPClose (c : UDPConn) (st : store) : store :=
  let '(_, st) := Read (control c) [] st in
  snd (UDPConn_Close c st).

(** The server's [udpConn]; [client] is the key of [client.Raw()]. *)
Record udpConn := mkUdpConn {
  Buffer : nat;
  client : sock;
  outcome : UDPConn; (* outgoing UDP headers from the client *)
  income_sock : sock (* incoming UDP packets to the client *)
}.



End Sockets.

(* ===================================================================== *)
(** * The client: negotiation, authentication and client.go *)
(* ===================================================================== *)

(** Send the negotiation request to the server.

    Error is returned, if the context is done or the server does not
    support the selected authentication methods *)
Definition negotiator_Request (ctx : Context) (c : Conn) (methods : list authMethod)
  : (authMethod * option error) * Conn :=
  let req := mkNegotiationRequest methods in
  let '(err, c) := Conn_WriteMessage ctx c req in
  match err with
  | Some e =>
      ((MethodNoAcceptable,
        Some (ErrWrap ErrProtocol e "unable to write the negotiation request")), c)
  | None =>
      let rep := mkNegotiationReply zero in
      let '((err, rep), c) := Conn_ReadMessage ctx c rep in
      match err with
      | Some e =>
          ((MethodNoAcceptable,
            Some (ErrWrap ErrProtocol e "unable to read the negotiation reply")), c)
      | None =>
          if Ascii.eqb (Method rep) MethodNoAcceptable
          then ((MethodNoAcceptable,
                 Some (ErrNew ErrProtocol
                         "neither of selected authentication methods are supported by the server")),
                c)
          else ((Method rep, None), c)
      end
  end.

Definition PassAuth_Request (a : PassAuth) (ctx : Context) (c : Conn) : option error * Conn :=
  let req := mkPassRequest (user a) (pass a) in
  let '(err, c) := Conn_WriteMessage ctx c req in
  match err with
  | Some e => (Some e, c)
  | None =>
      let rep := mkPassReply zero in
      let '((err, rep), c) := Conn_ReadMessage ctx c rep in
      match err with
      | Some e => (Some e, c)
      | None =>
          if negb (Ascii.eqb (Status rep) statusOK)
          then (Some (ErrNew ErrProtocol "username or password is wrong"), c)
          else (None, c)
      end
  end.

Definition noAuth_Request (ctx : Context) (c : Conn) : option error * Conn := (None, c).

Definition Auth_Request (a : Auth) (ctx : Context) (c : Conn) : option error * Conn :=
  match a with
  | NoAuth => noAuth_Request ctx c
  | PasswordAuth p => PassAuth_Request p ctx c
  end.

(** [Client]; its dialer answers with the connection to the proxy, or with
    an error. *)
Record Client := mkClient {
  Proxy : string;
  cl_Dialer : string -> string -> error + RawConn; (* Dialer.DialContext(ctx, network, address) *)
  cl_Auth : Auth;
  cl_UDPBuffer : nat
}.

(** Return NoAuth method, if method == NoAuth. In other cases c.Auth is
    returned. *)
Definition Client_auth (c : Client) (method : authMethod) : Auth :=
  if Ascii.eqb method MethodNotRequired then NoAuth else cl_Auth c.

Definition Client_authMethods (c : Client) : list authMethod :=
  [MethodNotRequired; Auth_Method (cl_Auth c)].

(** Read the reply from the server.

    error is returned, if the reply is not RepSucceeded *)
Definition Client_readReply (ctx : Context) (proxy : Conn) (req : Request)
  : (option Reply * option error) * Conn :=
  let rep := mkReply zero None in
  let '((err, rep), proxy) := Conn_ReadMessage ctx proxy rep in
  match err with
  | Some e => ((None, Some e), proxy)
  | None =>
      match Bnd rep with
      | None => ((None, Some nil_dereference), proxy)
      | Some bnd =>
          let bnd := mkAddr (cmdType_Network (Cmd req)) (Atyp bnd) (Host bnd) (Port bnd) in
          let rep := mkReply (Rep rep) (Some bnd) in
          if negb (Ascii.eqb (Rep rep) RepSucceeded) then
            let errctx := makeErrorContext proxy req (Rep rep) in
            ((None, Some (error_of_Error (SOCKSError (errorContext_Code errctx) errctx))), proxy)
          else ((Some rep, None), proxy)
      end
  end.

(** Send a request to the server and reads the reply.

    error is returned, if the reply is not RepSucceeded *)
Definition Client_cmd (ctx : Context) (proxy : Conn) (cmd : cmdType) (addr : string)
  : (option Request * option Reply * option error) * Conn :=
  match ParseAddr (cmdType_Network cmd) addr with
  | None =>
      ((None, None, Some (ErrNew ErrProtocol "unable to parse the address (%v)")), proxy)
  | Some dst =>
      let req := mkRequest cmd (Some dst) in
      let '(err, proxy) := Conn_WriteMessage ctx proxy req in
      match err with
      | Some e => ((None, None, Some e), proxy)
      | None =>
          let '((rep, err), proxy) := Client_readReply ctx proxy req in
          ((Some req, rep, err), proxy)
      end
  end.

(** Return the authentication SOCKS5 connection to the proxy: [(proxy,
    err)], and the connection that was dialled as [proxy] leaves it ([None]
    when the dial failed).  When [err] is not nil the caller gets no
    connection; the one dialled stays as it is shown here. *)
Definition Client_proxy (c : Client) (ctx : Context)
  : (option Conn * option error) * option Conn :=
  match cl_Dialer c "tcp" (Proxy c) with
  | inl e =>
      ((None, Some (ErrWrap ErrProtocol e "unable to establish the connection to the proxy")),
       None)
  | inr raw =>
      let proxy := NewConn raw in
      let '((method, err), proxy) := negotiator_Request ctx proxy (Client_authMethods c) in
      match err with
      | Some e => ((None, Some e), Some proxy)
      | None =>
          let auth := Client_auth c method in
          let '(err, proxy) := Auth_Request auth ctx proxy in
          match err with
          | Some e => ((None, Some e), Some proxy)
          | None => ((Some proxy, None), Some proxy)
          end
      end
  end.

(** Send the CONNECT request: [(conn, err)], and the connection to the
    proxy as [Connect] leaves it. *)
Definition Client_Connect (c : Client) (ctx : Context) (address : string)
  : (option RawConn * option error) * option Conn :=
  match Client_proxy c ctx with
  | ((Some proxy, None), _) =>
      let '((_, _, err), proxy) := Client_cmd ctx proxy CmdConnect address in
      match err with
      | Some e => ((None, Some e), Some proxy)
      | None => ((Some (Conn_Raw proxy), None), Some proxy)
      end
  | ((_, err), dialled) => ((None, err), dialled)
  end.

(** Send the BIND request: [(conn, err)], the addresses sent to the channel
    [bindAddr] (a receiver is taken to be there, the send returns), and the
    connection to the proxy as [Bind] leaves it. *)
Definition Client_Bind (c : Client) (ctx : Context) (address : string)
  : (option RawConn * option error) * list (option Addr) * option Conn :=
  match Client_proxy c ctx with
  | ((Some proxy, None), _) =>
      let '((req, rep, err), proxy) := Client_cmd ctx proxy CmdBind address in
      match err with
      | Some e => ((None, Some e), [], Some proxy)
      | None =>
          match req, rep with
          | Some req, Some rep =>
              let bindAddr := [Bnd rep] in
              let '((_, err), proxy) := Client_readReply ctx proxy req in
              ((Some (Conn_Raw proxy), err), bindAddr, Some proxy)
          | _, _ => ((None, Some nil_dereference), [], Some proxy)
          end
      end
  | ((_, err), dialled) => ((None, err), [], dialled)
  end.

(* ===================================================================== *)
(** * UDP associations: headers in and out *)
(* ===================================================================== *)

(** The [data] socket of a [UDPConn] is a UDP socket: the bytes a [Read]
    finds on it ([rc_in]) are those of the datagram at the head of its
    queue, and every [Write] sends one datagram. *)

Definition UDPConn_WriteTo (c : Sockets.UDPConn) (p : list byte) (addr : netAddr)
  (st : Sockets.store) : (nat * option error) * Sockets.store :=
  let header := mkUDPHeader zero (ParseNetAddr addr) p in
  let '(err, wr) := UDPHeader_Write header (PlainW (st (Sockets.data c))) in
  let st := Sockets.update st (Sockets.data c) (the_plainW wr (st (Sockets.data c))) in
  match err with
  | Some e => ((0, Some e), st)
  | None => ((length p, None), st)
  end.

(** [UDPConn.Write]: [c.Dst], an [*Addr], is passed on as a [net.Addr]. *)
Definition UDPConn_Write (c : Sockets.UDPConn) (p : list byte) (st : Sockets.store)
  : (nat * option error) * Sockets.store :=
  match Sockets.UDPConn_Dst c with
  | None =>
      ((0, Some (ErrNew ErrProtocol "unable to use UDPConn.Write, cause UDPConn.Dst == nil")),
       st)
  | Some dst => UDPConn_WriteTo c p (mkNetAddr (network dst) (Addr_String dst)) st
  end.

(** [UDPConn.ReadHeader]: the header, the error, the connection (its
    [income] buffer holds what was read) and the sockets; [fuel] bounds the
    loop of [io.ReadAll], and [None] is fuel exhausted. *)
Definition UDPConn_ReadHeader (fuel : nat) (c : Sockets.UDPConn) (st : Sockets.store)
  : option ((option UDPHeader * option error) * Sockets.UDPConn * Sockets.store) :=
  let '((income, n, err), st) := Sockets.Read (Sockets.data c) (Sockets.income c) st in
  let c := Sockets.mkUDPConn (Sockets.control c) (Sockets.data c) income
             (Sockets.UDPConn_Dst c) in
  match err with
  | Some e => Some ((None, Some e), c, st)
  | None =>
      let payload := firstn n (Sockets.income c) in
      let header := mkUDPHeader zero None [] in
      match UDPHeader_Read fuel header (PlainR (mkBytesReader payload)) with
      | None => None
      | Some ((err, header), _) =>
          match err with
          | Some e => Some ((None, Some e), c, st)
          | None => Some ((Some header, None), c, st)
          end
      end
  end.

(** [UDPConn.ReadFrom(p)]: the slice [p] after the call, [n], [addr] and
    [err]. *)
Definition UDPConn_ReadFrom (fuel : nat) (c : Sockets.UDPConn) (p : list byte)
  (st : Sockets.store)
  : option ((list byte * nat * option Addr * option error) * Sockets.UDPConn * Sockets.store) :=
  match UDPConn_ReadHeader fuel c st with
  | None => None
  | Some ((header, err), c, st) =>
      match err with
      | Some e => Some ((p, 0, None, Some e), c, st)
      | None =>
          match header with
          | Some h => Some ((p, length (Data h), udp_Dst h, None), c, st)
          | None => Some ((p, 0, None, Some nil_dereference), c, st)
          end
      end
  end.

(** [UDPConn.Read(p)] *)
Definition UDPConn_Read (fuel : nat) (c : Sockets.UDPConn) (p : list byte)
  (st : Sockets.store)
  : option ((list byte * nat * option error) * Sockets.UDPConn * Sockets.store) :=
  match UDPConn_ReadFrom fuel c p st with
  | None => None
  | Some ((p, n, _, err), c, st) => Some ((p, n, err), c, st)
  end.

(* ===================================================================== *)
(** * Notions used to state the properties *)
(* ===================================================================== *)

(** The definitions from here to the properties are not part of the
    program: they name the inputs, runs and wire forms the properties are
    about. *)

(** [n] calls of [Close] in a row. *)
Fixpoint Conn_Closes (n : nat) (c : Conn) : Conn :=
  match n with
  | O => c
  | S n' => Conn_Closes n' (snd (Conn_Close c))
  end.

(** The [alive] bit before the first and after each of [n] calls of [Close]. *)
Fixpoint alive_trace (n : nat) (c : Conn) : list bool :=
  match n with
  | O => [alive c]
  | S n' => alive c :: alive_trace n' (snd (Conn_Close c))
  end.

(** The number of steps from [true] to [false] in a trace. *)
Fixpoint falls (l : list bool) : nat :=
  match l with
  | true :: ((false :: _) as l') => S (falls l')
  | _ :: l' => falls l'
  | [] => 0
  end.

(** A valid address: the port fits sixteen bits; a DOMAIN host has at most
    255 bytes; an IPv4 or IPv6 host is an IP literal of that class
    ([parseAtyp]) in the canonical text form, the one [IP.String] prints. *)
Definition valid_Addr (a : Addr) : bool :=
  (Port a <? 65536)%N &&
  (if Ascii.eqb (Atyp a) AddrDomain then String.length (Host a) <=? 255
   else (Ascii.eqb (Atyp a) AddrIPV4 || Ascii.eqb (Atyp a) AddrIPv6)
        && Ascii.eqb (parseAtyp (Host a)) (Atyp a)
        && String.eqb (IP_String (ParseIP (Host a))) (Host a)).

(** ATYP | payload | PORT *)
Definition Addr_wire (a : Addr) : list byte :=
  Atyp a ::
  (if Ascii.eqb (Atyp a) AddrDomain
   then byte_of_nat (String.length (Host a)) :: list_ascii_of_string (Host a)
   else ipBytes (ParseIP (Host a)))
  ++ PutUint16 (Port a).

(** The address a decoder yields for [a]: the network is not on the wire,
    the decoder sets it. *)
Definition on_network (nw : string) (a : Addr) : Addr :=
  mkAddr nw (Atyp a) (Host a) (Port a).

(** A message of any of the seven types. *)
Inductive message :=
| MNegotiationRequest (m : NegotiationRequest)
| MNegotiationReply (m : NegotiationReply)
| MPassRequest (m : PassRequest)
| MPassReply (m : PassReply)
| MRequest (m : Request)
| MReply (m : Reply)
| MUDPHeader (m : UDPHeader).

Inductive messageType :=
| TNegotiationRequest | TNegotiationReply | TPassRequest | TPassReply
| TRequest | TReply | TUDPHeader.

Definition type_of (m : message) : messageType :=
  match m with
  | MNegotiationRequest _ => TNegotiationRequest
  | MNegotiationReply _ => TNegotiationReply
  | MPassRequest _ => TPassRequest
  | MPassReply _ => TPassReply
  | MRequest _ => TRequest
  | MReply _ => TReply
  | MUDPHeader _ => TUDPHeader
  end.

Definition valid_pointer (a : option Addr) : bool :=
  match a with
  | Some a => valid_Addr a
  | None => false
  end.

(** A valid instance: lengths that fit their length byte, a command among
    CONNECT, BIND and UDP ASSOCIATE, a reply code among the nine known ones,
    and a valid address. *)
Definition valid_message (m : message) : bool :=
  match m with
  | MNegotiationRequest r => length (Methods r) <=? 255
  | MNegotiationReply _ => true
  | MPassRequest r => (length (uname r) <=? 255) && (length (passwd r) <=? 255)
  | MPassReply _ => true
  | MRequest r =>
      (Ascii.eqb (Cmd r) CmdConnect || Ascii.eqb (Cmd r) CmdBind || Ascii.eqb (Cmd r) CmdUDP)
      && valid_pointer (Dst r)
  | MReply r => (nat_of_byte (Rep r) <=? 8) && valid_pointer (Bnd r)
  | MUDPHeader h => valid_pointer (udp_Dst h)
  end.

(** A connection just opened: nothing to read, nothing written. *)
Definition fresh : RawConn := mkRawConn [] [] false.

(** What [Write] on a fresh connection returns and sends. *)
Definition sent (res : option error * ioWriter RawConn) : option error * list byte :=
  (fst res, rc_out (the_plainW (snd res) fresh)).

Definition encode (m : message) : option error * list byte :=
  match m with
  | MNegotiationRequest r => sent (NegotiationRequest_Write r (PlainW fresh))
  | MNegotiationReply r => sent (NegotiationReply_Write r (PlainW fresh))
  | MPassRequest r => sent (PassRequest_Write r (PlainW fresh))
  | MPassReply r => sent (PassReply_Write r (PlainW fresh))
  | MRequest r => sent (Request_Write r (PlainW fresh))
  | MReply r => sent (Reply_Write r (PlainW fresh))
  | MUDPHeader h => sent (UDPHeader_Write h (PlainW fresh))
  end.

(** A connection on which the peer has sent [bs]. *)
Definition incoming (bs : list byte) : RawConn := mkRawConn bs [] false.

(** [Read] of a message of type [t], into a zero value, from a connection
    on which [bs] has arrived; a UDP header is read from a [bytes.Reader]
    over the datagram [bs], as [UDPConn.ReadHeader] does.  [None] is
    [io.ReadAll] out of fuel. *)
Definition decode (t : messageType) (bs : list byte) : option (option error * message) :=
  match t with
  | TNegotiationRequest =>
      let '((e, r), _) := NegotiationRequest_Read (mkNegotiationRequest []) (PlainR (incoming bs)) in
      Some (e, MNegotiationRequest r)
  | TNegotiationReply =>
      let '((e, r), _) := NegotiationReply_Read (mkNegotiationReply zero) (PlainR (incoming bs)) in
      Some (e, MNegotiationReply r)
  | TPassRequest =>
      let '((e, r), _) := PassRequest_Read (mkPassRequest [] []) (PlainR (incoming bs)) in
      Some (e, MPassRequest r)
  | TPassReply =>
      let '((e, r), _) := PassReply_Read (mkPassReply zero) (PlainR (incoming bs)) in
      Some (e, MPassReply r)
  | TRequest =>
      let '((e, r), _) := Request_Read (mkRequest zero None) (PlainR (incoming bs)) in
      Some (e, MRequest r)
  | TReply =>
      let '((e, r), _) := Reply_Read (mkReply zero None) (PlainR (incoming bs)) in
      Some (e, MReply r)
  | TUDPHeader =>
      match UDPHeader_Read (S (length bs)) (mkUDPHeader zero None [])
              (PlainR (mkBytesReader bs)) with
      | Some ((e, h), _) => Some (e, MUDPHeader h)
      | None => None
      end
  end.

(** The message a decoder yields for [m]: the network of an address is not
    part of the wire form, the decoder sets it (from the command for a
    request, to the empty string for a reply, to "udp" for a UDP header). *)
Definition as_decoded (m : message) : message :=
  match m with
  | MRequest r => MRequest (mkRequest (Cmd r) (option_map (on_network (cmdType_Network (Cmd r))) (Dst r)))
  | MReply r => MReply (mkReply (Rep r) (option_map (on_network "") (Bnd r)))
  | MUDPHeader h => MUDPHeader (mkUDPHeader (Frag h) (option_map (on_network "udp") (udp_Dst h)) (Data h))
  | _ => m
  end.

(** The bytes of a password request with the credentials [un] and [pw]. *)
Definition PassRequest_wire (un pw : list byte) : list byte :=
  [subnegotiationVersion; byte_of_nat (length un)] ++ un ++ [byte_of_nat (length pw)] ++ pw.

(** The bytes of a negotiation request with the methods [ms]. *)
Definition NegotiationRequest_wire (ms : list authMethod) : list byte :=
  [Version; byte_of_nat (length ms)] ++ ms.

(** [c'] is [c] after some writes: more output, the rest unchanged. *)
Definition written (c c' : RawConn) : Prop :=
  rc_in c' = rc_in c /\ rc_closed c' = rc_closed c
  /\ exists s : list byte, rc_out c' = rc_out c ++ s.

(** The bytes of the failure reply with the code [r]: VER, REP, RSV and the
    wire form of [NilAddr]. *)
Definition failReply_wire (r : repType) : list byte :=
  [Version; r; zero] ++ Addr_wire NilAddr.

(** The client [c] after the bytes [before] and then a failure reply with
    the code [r] were sent to it and it was closed. *)
Definition failed_client (c : Conn) (before : list byte) (r : repType) : Conn :=
  mkConn false
    (mkRawConn (rc_in (raw c)) (rc_out (raw c) ++ before ++ failReply_wire r) true)
    (CloseOnContextDone c).

(** [h] is an IPv4 literal, and an IPv6 literal (without a zone), with the
    address bytes [b]: what [netip.ParseAddr] reads it as. *)
Definition IPv4_literal (h : string) (b : list byte) : Prop :=
  netip_ParseAddr h = Some (Addr4 b).
Definition IPv6_literal (h : string) (b : list byte) : Prop :=
  netip_ParseAddr h = Some (Addr6 b "").

(** An address whose type fits its host: DOMAIN with any host, or the IP
    class its host is classified as by [parseAtyp].  Every valid address is
    of this kind, and so is every address [ParseAddr] returns. *)
Definition consistent_Addr (a : Addr) : bool :=
  Ascii.eqb (Atyp a) AddrDomain || Ascii.eqb (parseAtyp (Host a)) (Atyp a).

(** One [Write] of [bs] on [w] as [bufio.Writer.Flush] reports it: the
    writer's error, or [io.ErrShortWrite] when it took fewer bytes than it
    was given. *)
Definition one_Write {W} `{Writer W} (w : W) (bs : list byte) : option error * W :=
  let '((n, e), w') := io_Write w bs in
  (match e with
   | Some e' => Some e'
   | None => if n <? length bs then Some ErrShortWrite else None
   end, w').

(** The result of an encoder that wraps the error of its only [Write] in a
    protocol error with the message [msg]. *)
Definition wrapped {W} (msg : string) (res : option error * W) : option error * ioWriter W :=
  (option_map (fun e => ErrWrap ErrProtocol e msg) (fst res), PlainW (snd res)).

(** The value of the decimal digits [d] read after a number [acc]. *)
Fixpoint horner (d : Decimal.uint) (acc : N) : N :=
  match d with
  | Decimal.Nil => acc
  | Decimal.D0 l => horner l (acc * 10 + 0)
  | Decimal.D1 l => horner l (acc * 10 + 1)
  | Decimal.D2 l => horner l (acc * 10 + 2)
  | Decimal.D3 l => horner l (acc * 10 + 3)
  | Decimal.D4 l => horner l (acc * 10 + 4)
  | Decimal.D5 l => horner l (acc * 10 + 5)
  | Decimal.D6 l => horner l (acc * 10 + 6)
  | Decimal.D7 l => horner l (acc * 10 + 7)
  | Decimal.D8 l => horner l (acc * 10 + 8)
  | Decimal.D9 l => horner l (acc * 10 + 9)
  end%N.

(* ===================================================================== *)
(** * Properties *)
(* ===================================================================== *)

(** ** Bytes and integers *)

Lemma ascii_of_N_bits (n : N) :
  ascii_of_N n =
  Ascii (N.testbit n 0) (N.testbit n 1) (N.testbit n 2) (N.testbit n 3)
        (N.testbit n 4) (N.testbit n 5) (N.testbit n 6) (N.testbit n 7).
Proof.
  destruct n as [|p]; [reflexivity|].
  do 8 (destruct p as [p|p|]; try reflexivity).
Qed.

Lemma ascii_of_N_mod (n : N) : ascii_of_N (n mod 256) = ascii_of_N n.
Proof.
  rewrite !ascii_of_N_bits.
  change 256%N with (2 ^ 8)%N.
  rewrite !N.mod_pow2_bits_low by (compute; reflexivity).
  reflexivity.
Qed.

Lemma N_of_ascii_of_N (n : N) : N_of_ascii (ascii_of_N n) = (n mod 256)%N.
Proof.
  rewrite <- ascii_of_N_mod.
  apply N_ascii_embedding.
  apply N.mod_lt. discriminate.
Qed.

Lemma nat_of_byte_of_nat (n : nat) : nat_of_byte (byte_of_nat n) = n mod 256.
Proof.
  unfold nat_of_byte, byte_of_nat, nat_of_ascii, ascii_of_nat.
  rewrite N_of_ascii_of_N.
  change 256%N with (N.of_nat 256).
  rewrite <- Nat2N.inj_mod.
  apply Nat2N.id.
Qed.

Lemma nat_of_byte_of_nat_small (n : nat) : n <= 255 -> nat_of_byte (byte_of_nat n) = n.
Proof.
  intros H. rewrite nat_of_byte_of_nat. apply Nat.mod_small. lia.
Qed.

Lemma nat_of_byte_bound (b : byte) : nat_of_byte b < 256.
Proof. apply nat_ascii_bounded. Qed.

Lemma byte_eqb_eq (a b : byte) : Ascii.eqb a b = true <-> a = b.
Proof. apply Ascii.eqb_eq. Qed.
(** ** The sticky error of [ErrReader] *)

Lemma ErrReader_Read_records {R} `{Reader R} (r r' : ErrReader R) p res :
  ErrReader_Read r p = (res, r') -> err r' = snd res.
Proof.
  unfold ErrReader_Read. destruct (err r) as [e|] eqn:E.
  - intros [= <- <-]. exact E.
  - destruct (io_Read (rd r) p) as [[[p' n] e] rd']. intros [= <- <-]. reflexivity.
Qed.

Lemma ErrReader_Read_stuck {R} `{Reader R} (r : ErrReader R) e p :
  err r = Some e -> ErrReader_Read r p = ((p, 0, Some e), r).
Proof. intros E. unfold ErrReader_Read. rewrite E. reflexivity. Qed.

Lemma ErrReader_Reads_stuck {R} `{Reader R} (r : ErrReader R) e ps :
  err r = Some e ->
  ErrReader_Reads r ps = (map (fun p => (p, 0, Some e)) ps, r).
Proof.
  intros E. induction ps as [|p ps IH]; simpl.
  - reflexivity.
  - rewrite (ErrReader_Read_stuck r e p E), IH. reflexivity.
Qed.

(** C10.  Once a [Read] of an [ErrReader] has returned an error [e], every
    later [Read] returns 0 bytes and [e], leaves its buffer as it was and
    leaves the reader, with the underlying reader and the count of the
    calls made to it, as it was; and [Wrap] returns nil exactly when no
    error is recorded. *)
Theorem ErrReader_sticky :
  forall (R : Type) (HR : Reader R) (r r1 : ErrReader (Counting R))
         (p p1 : list byte) (n : nat) (e : error),
    ErrReader_Read r p = ((p1, n, Some e), r1) ->
    (forall ps : list (list byte),
        ErrReader_Reads r1 ps = (map (fun q => (q, 0, Some e)) ps, r1)
        /\ calls (rd (snd (ErrReader_Reads r1 ps))) = calls (rd r1))
    /\ (forall (r2 : ErrReader (Counting R)) (t : errType) (msg : string),
           ErrReader_Wrap r2 t msg = None <-> ErrReader_Error r2 = None).
Proof.
  intros R HR r r1 p p1 n e Hread.
  apply ErrReader_Read_records in Hread. simpl in Hread.
  split.
  - intros ps. rewrite (ErrReader_Reads_stuck r1 e ps Hread). split; reflexivity.
  - intros r2 t msg. unfold ErrReader_Wrap, ErrReader_Error.
    destruct (err r2); split; intros; try discriminate; reflexivity.
Qed.

(** A reader at the end of its input: the first [Read] reports [io.EOF]. *)
Lemma ErrReader_sticky_witness :
  let r := mkErrReader None (mkCounting 0 (mkBytesReader [])) in
  ErrReader_Read r (make 2) = ((make 2, 0, Some EOF), mkErrReader (Some EOF) (mkCounting 1 (mkBytesReader [])))
  /\ ErrReader_Reads (snd (ErrReader_Read r (make 2))) [make 1; make 3]
     = ([(make 1, 0, Some EOF); (make 3, 0, Some EOF)], snd (ErrReader_Read r (make 2)))
  /\ calls (rd (snd (ErrReader_Reads (snd (ErrReader_Read r (make 2))) [make 1; make 3]))) = 1.
Proof.
  pose proof (ErrReader_sticky bytesReader _
                (mkErrReader None (mkCounting 0 (mkBytesReader [])))
                (mkErrReader (Some EOF) (mkCounting 1 (mkBytesReader [])))
                (make 2) (make 2) 0 EOF eq_refl) as [H _].
  split; [reflexivity|].
  destruct (H [make 1; make 3]) as [H1 H2].
  split; [exact H1 | exact H2].
Defined.

(** ** Closing a connection *)

Lemma Conn_Close_alive (c : Conn) : alive (snd (Conn_Close c)) = false.
Proof.
  unfold Conn_Close; simpl. destruct (RawConn_Close (raw c)); reflexivity.
Qed.

Lemma Conn_Close_closed (c : Conn) : rc_closed (raw (snd (Conn_Close c))) = true.
Proof.
  unfold Conn_Close, RawConn_Close; simpl.
  destruct (rc_closed (raw c)) eqn:E; simpl; [exact E | reflexivity].
Qed.

Lemma Conn_Close_again (c : Conn) :
  Conn_Close (snd (Conn_Close c)) = (Some ErrNetClosed, snd (Conn_Close c)).
Proof.
  destruct c as [a [i o cl] cd].
  unfold Conn_Close, RawConn_Close; simpl. destruct cl; reflexivity.
Qed.

Lemma Conn_Closes_S (n : nat) (c : Conn) :
  Conn_Closes (S n) c = snd (Conn_Close c).
Proof.
  revert c. induction n as [|n IH]; intros c.
  - reflexivity.
  - change (Conn_Closes (S (S n)) c) with (Conn_Closes (S n) (snd (Conn_Close c))).
    rewrite IH, Conn_Close_again. reflexivity.
Qed.

Lemma falls_dead (n : nat) (c : Conn) : alive c = false -> falls (alive_trace n c) = 0.
Proof.
  revert c. induction n as [|n IH]; intros c H; simpl; rewrite H.
  - reflexivity.
  - apply IH. apply Conn_Close_alive.
Qed.

(** C8.  On a connection that is alive, [Close] clears the [alive] bit; over
    any number of further calls the bit goes from [true] to [false] exactly
    once, and every call after the first leaves the connection as the first
    one left it (the raw connection is asked to close again and answers that
    it is closed). *)
Theorem Conn_Close_once :
  forall (c : Conn) (n : nat),
    alive c = true ->
    alive (snd (Conn_Close c)) = false
    /\ falls (alive_trace (S n) c) = 1
    /\ Conn_Closes (S n) c = snd (Conn_Close c)
    /\ snd (Conn_Close (Conn_Closes (S n) c)) = Conn_Closes (S n) c.
Proof.
  intros c n H.
  split; [apply Conn_Close_alive|].
  split.
  - simpl. rewrite H.
    destruct n as [|n]; simpl; rewrite Conn_Close_alive.
    + reflexivity.
    + rewrite falls_dead by apply Conn_Close_alive. reflexivity.
  - split; [apply Conn_Closes_S|].
    rewrite Conn_Closes_S, Conn_Close_again. reflexivity.
Qed.

Lemma Conn_Close_once_witness :
  let c := NewConn (mkRawConn [] [] false) in
  alive c = true
  /\ alive (snd (Conn_Close c)) = false
  /\ falls (alive_trace 3 c) = 1
  /\ Conn_Closes 3 c = snd (Conn_Close c)
  /\ snd (Conn_Close (Conn_Closes 3 c)) = Conn_Closes 3 c.
Proof.
  split; [reflexivity|].
  exact (Conn_Close_once (NewConn (mkRawConn [] [] false)) 2 eq_refl).
Defined.

(** ** Facts about lists and 16-bit integers *)

Lemma Uint16_PutUint16 (p : N) : (p < 65536)%N -> Uint16 (PutUint16 p) = p.
Proof.
  intros Hp. unfold Uint16, PutUint16, at_, N_of_byte. cbn [nth].
  rewrite !N_of_ascii_of_N.
  assert (Hhi : (N.shiftr p 8 mod 256 = N.shiftr p 8)%N).
  { apply N.mod_small. rewrite N.shiftr_div_pow2.
    change (2 ^ 8)%N with 256%N.
    apply N.Div0.div_lt_upper_bound. exact Hp. }
  rewrite Hhi. change 256%N with (2 ^ 8)%N.
  apply N.bits_inj. intros n.
  rewrite N.lor_spec.
  destruct (N.ltb_spec n 8) as [Hn|Hn].
  - rewrite N.mod_pow2_bits_low by exact Hn.
    rewrite N.shiftl_spec_low by exact Hn.
    apply orb_false_r.
  - rewrite N.mod_pow2_bits_high by exact Hn.
    rewrite N.shiftl_spec_high' by exact Hn.
    rewrite N.shiftr_spec'.
    rewrite N.sub_add by exact Hn. reflexivity.
Qed.

Lemma length_make (n : nat) : length (make n) = n.
Proof. apply repeat_length. Qed.

Lemma length_set_at (l : list byte) (i : nat) (v : byte) : length (set_at l i v) = length l.
Proof.
  revert i. induction l as [|h t IH]; intros [|i]; simpl; try reflexivity.
  rewrite IH. reflexivity.
Qed.

Lemma copy_exact (p d rest : list byte) :
  length p = length d -> copy p (d ++ rest) = (d, length d).
Proof.
  intros H. unfold copy.
  rewrite length_app, H.
  replace (Nat.min (length d) (length d + length rest)) with (length d) by lia.
  rewrite firstn_app, firstn_all, Nat.sub_diag, firstn_O, app_nil_r.
  rewrite <- H, skipn_all, app_nil_r. reflexivity.
Qed.

Lemma skipn_exact (d rest : list byte) : skipn (length d) (d ++ rest) = rest.
Proof.
  rewrite skipn_app, skipn_all, Nat.sub_diag. reflexivity.
Qed.

(** ** Reading from a connection and from a [bytes.Reader] *)

Lemma RawConn_Read_exact (d rest o p : list byte) :
  length p = length d ->
  RawConn_Read (mkRawConn (d ++ rest) o false) p
  = ((d, length d, None), mkRawConn rest o false).
Proof.
  intros H. unfold RawConn_Read. cbn [rc_closed rc_in rc_out].
  destruct p as [|x p].
  - destruct d; [reflexivity | discriminate].
  - destruct d as [|y d]; [discriminate|].
    pose proof (copy_exact (x :: p) (y :: d) rest H) as Hc.
    pose proof (skipn_exact (y :: d) rest) as Hs.
    cbn [app] in *. rewrite Hc, Hs. reflexivity.
Qed.

Lemma bytesReader_Read_exact (d rest p : list byte) :
  length p = length d -> d ++ rest <> [] ->
  io_Read (mkBytesReader (d ++ rest)) p = ((d, length d, None), mkBytesReader rest).
Proof.
  intros H Hne. unfold io_Read, bytesReader_Reader. cbn [unread].
  pose proof (copy_exact p d rest H) as Hc.
  pose proof (skipn_exact d rest) as Hs.
  destruct (d ++ rest) as [|y s] eqn:E; [contradiction|].
  rewrite Hc, Hs. reflexivity.
Qed.

(** ** Buffered writes that fit *)

Section BufioFits.
Context {W : Type} `{Writer W}.

Lemma bufio_Write_fits (b : bufWriter W) (p : list byte) :
  bw_err b = None -> length (bw_buf b) + length p <= bw_size b ->
  bufio_Write b p
  = ((length p, None), mkBufWriter None (bw_buf b ++ p) (bw_size b) (bw_wr b)).
Proof.
  intros He Hfit. unfold bufio_Write.
  cbn [Nat.add bufio_Write_loop].
  unfold bufio_Available. rewrite He.
  replace (bw_size b - length (bw_buf b) <? length p) with false
    by (symmetry; apply Nat.ltb_ge; lia).
  cbn [andb].
  replace (Nat.min (bw_size b - length (bw_buf b)) (length p)) with (length p) by lia.
  rewrite firstn_all. reflexivity.
Qed.

Lemma bufio_WriteByte_fits (b : bufWriter W) (c : byte) :
  bw_err b = None -> length (bw_buf b) + 1 <= bw_size b ->
  bufio_WriteByte b c
  = (None, mkBufWriter None (bw_buf b ++ [c]) (bw_size b) (bw_wr b)).
Proof.
  intros He Hfit. unfold bufio_WriteByte, bufio_Available. rewrite He.
  replace (bw_size b - length (bw_buf b) <=? 0) with false
    by (symmetry; apply Nat.leb_gt; lia).
  rewrite He. reflexivity.
Qed.

Lemma bufio_WriteString_fits (b : bufWriter W) (s : string) :
  bw_err b = None -> length (bw_buf b) + String.length s <= bw_size b ->
  bufio_WriteString b s
  = ((String.length s, None),
     mkBufWriter None (bw_buf b ++ list_ascii_of_string s) (bw_size b) (bw_wr b)).
Proof.
  intros He Hfit. unfold bufio_WriteString.
  assert (Hl : length (list_ascii_of_string s) = String.length s).
  { clear. induction s; simpl; congruence. }
  rewrite bufio_Write_fits by (rewrite ?Hl; assumption).
  rewrite Hl. reflexivity.
Qed.

End BufioFits.

Lemma bufio_Flush_RawConn (buf i o : list byte) (size : nat) :
  bufio_Flush (mkBufWriter None buf size (mkRawConn i o false))
  = (None, mkBufWriter None [] size (mkRawConn i (o ++ buf) false)).
Proof.
  unfold bufio_Flush. cbn [bw_err bw_buf bw_wr bw_size].
  destruct buf as [|x buf].
  - rewrite app_nil_r. reflexivity.
  - unfold io_Write, RawConn_Writer, RawConn_Write. cbn [rc_closed rc_in rc_out].
    rewrite Nat.ltb_irrefl. reflexivity.
Qed.

(** ** The length of a parsed IP address *)

Lemma parseIPv4_loop_length (s : list byte) :
  forall i len prev val pos digLen fields b,
    parseIPv4_loop s i len prev val pos digLen fields = Some b ->
    length b = length fields.
Proof.
  induction s as [|c s IH]; intros i len prev val pos digLen fields b; simpl.
  - destruct (pos <? 3); [discriminate|].
    intros [= <-]. apply length_set_at.
  - destruct (is_digit c).
    + destruct ((digLen =? 1) && (val =? 0)); [discriminate|].
      destruct (255 <? val * 10 + (nat_of_byte c - 48)); [discriminate|].
      apply IH.
    + destruct (Ascii.eqb c "."); [|discriminate].
      destruct ((i =? 0) || (i =? len - 1) || Ascii.eqb prev "."); [discriminate|].
      destruct (pos =? 3); [discriminate|].
      intros Hb. apply IH in Hb. rewrite Hb. apply length_set_at.
Qed.

Lemma parseIPv4_length (s : string) (b : list byte) :
  parseIPv4 s = Some b -> length b = 4.
Proof.
  unfold parseIPv4. intros Hb. apply parseIPv4_loop_length in Hb.
  rewrite Hb. apply length_make.
Qed.

(** The loop of [parseIPv6] keeps the array at sixteen bytes, stays within
    it, and leaves the ellipsis at or before the index reached. *)
Lemma parseIPv6_loop_inv (fuel : nat) :
  forall s i ip ellipsis ip' i' ellipsis' rest,
    length ip = 16 -> Nat.Even i -> i <= 16 ->
    (forall e, ellipsis = Some e -> e <= i) ->
    parseIPv6_loop fuel s i ip ellipsis = Some (ip', i', ellipsis', rest) ->
    length ip' = 16 /\ i' <= 16 /\ (forall e, ellipsis' = Some e -> e <= i').
Proof.
  induction fuel as [|fuel IH]; intros s i ip ellipsis ip' i' ellipsis' rest Hlen Hev Hi He;
    cbn [parseIPv6_loop].
  - destruct (16 <=? i) eqn:E16; [|discriminate].
    intros [= <- <- <- <-]. auto.
  - destruct (16 <=? i) eqn:E16.
    { intros [= <- <- <- <-]. auto. }
    apply Nat.leb_gt in E16.
    assert (Hi2 : i + 2 <= 16) by (destruct Hev as [k ->]; lia).
    assert (Hev2 : Nat.Even (i + 2)) by (destruct Hev as [k ->]; exists (S k); lia).
    destruct (parseIPv6_hex s 0 0) as [[[acc off] rest0]|]; [|discriminate].
    destruct (off =? 0); [discriminate|].
    destruct (starts_with "." rest0).
    + destruct ((match ellipsis with None => true | Some _ => false end) && negb (i =? 12));
        [discriminate|].
      destruct (16 <? i + 4) eqn:E4; [discriminate|]. apply Nat.ltb_ge in E4.
      destruct (parseIPv4 (string_of_list_ascii s)) as [ip4|]; [|discriminate].
      intros [= <- <- <- <-].
      rewrite !length_set_at. repeat split; auto.
      intros e Hs. specialize (He e Hs). lia.
    + assert (Hlen2 : length (set_at (set_at ip i (ascii_of_N (N.shiftr acc 8))) (i + 1)
                                (ascii_of_N acc)) = 16)
        by (rewrite !length_set_at; exact Hlen).
      assert (He2 : forall e, ellipsis = Some e -> e <= i + 2)
        by (intros e Hs; specialize (He e Hs); lia).
      destruct rest0 as [|c rest1].
      { intros [= <- <- <- <-]. auto. }
      destruct (negb (Ascii.eqb c ":")); [discriminate|].
      destruct rest1 as [|c1 rest2]; [discriminate|].
      destruct (Ascii.eqb c1 ":").
      * destruct ellipsis as [e0|]; [discriminate|].
        destruct rest2 as [|c2 rest3].
        { intros [= <- <- <- <-]. repeat split; auto. intros e [= <-]. lia. }
        apply IH; auto. intros e [= <-]. lia.
      * apply IH; auto.
Qed.

Lemma length_expand_ellipsis (ip : list byte) (i e : nat) :
  length ip = 16 -> i <= 16 -> e <= i -> length (expand_ellipsis ip i e) = 16.
Proof.
  intros Hlen Hi He. unfold expand_ellipsis.
  rewrite !length_app, !length_firstn, length_skipn, length_make. lia.
Qed.

Lemma parseIPv6_length (s : string) (b : list byte) (zone : string) :
  parseIPv6 s = Some (b, zone) -> length b = 16.
Proof.
  unfold parseIPv6.
  destruct (match IndexByteString s "%" with
            | Some i => if String.eqb (str_from s (S i)) "" then None
                        else Some (str_to s i, str_from s (S i))
            | None => Some (s, "")
            end) as [[s1 z]|]; [|discriminate].
  set (st := match list_ascii_of_string s1 with
             | c1 :: c2 :: s' =>
                 if Ascii.eqb c1 ":" && Ascii.eqb c2 ":" then (Some 0, s')
                 else (None, list_ascii_of_string s1)
             | _ => (None, list_ascii_of_string s1)
             end).
  assert (Hst : forall e, fst st = Some e -> e <= 0).
  { subst st. destruct (list_ascii_of_string s1) as [|c1 [|c2 s']]; try (intros e; discriminate).
    destruct (Ascii.eqb c1 ":" && Ascii.eqb c2 ":"); intros e [= <-]; lia. }
  destruct st as [ellipsis s2]. cbn [fst] in Hst.
  assert (Hloop :
    match parseIPv6_loop 8 s2 0 (make 16) ellipsis with
    | Some (ip, i, ellipsis0, rest) =>
        match rest with
        | [] =>
            if i <? 16
            then match ellipsis0 with
                 | Some e => Some (expand_ellipsis ip i e, z)
                 | None => None
                 end
            else match ellipsis0 with
                 | Some _ => None
                 | None => Some (ip, z)
                 end
        | _ :: _ => None
        end
    | None => None
    end = Some (b, zone) -> length b = 16).
  { destruct (parseIPv6_loop 8 s2 0 (make 16) ellipsis) as [[[[ip i] ell] rest]|] eqn:El;
      [|discriminate].
    apply parseIPv6_loop_inv in El as (Hl & Hi & He);
      [| apply length_make | exists 0; reflexivity | lia | exact Hst].
    destruct rest; [|discriminate].
    destruct (i <? 16).
    - destruct ell as [e|]; [|discriminate].
      intros [= <- <-]. apply length_expand_ellipsis; auto.
    - destruct ell; [discriminate|]. intros [= <- <-]. exact Hl. }
  destruct ellipsis as [e|]; [destruct s2|]; try exact Hloop.
  intros [= <- <-]. apply length_make.
Qed.

Lemma netip_ParseAddr_length (s : string) :
  match netip_ParseAddr s with
  | Some (Addr4 b) => length b = 4
  | Some (Addr6 b _) => length b = 16
  | None => True
  end.
Proof.
  unfold netip_ParseAddr.
  induction (list_ascii_of_string s) as [|c l IH]; cbn [ParseAddr_scan]; [exact I|].
  destruct (Ascii.eqb c ".").
  - destruct (parseIPv4 s) as [b|] eqn:E; cbn [option_map]; [|exact I].
    exact (parseIPv4_length _ _ E).
  - destruct (Ascii.eqb c ":").
    + destruct (parseIPv6 s) as [[b z]|] eqn:E; cbn [option_map]; [|exact I].
      exact (parseIPv6_length _ _ _ E).
    + destruct (Ascii.eqb c "%"); [exact I | exact IH].
Qed.

Lemma ParseIP_length (s : string) : ParseIP s = [] \/ length (ParseIP s) = 16.
Proof.
  unfold ParseIP. pose proof (netip_ParseAddr_length s) as H.
  destruct (netip_ParseAddr s) as [[b|b z]|]; [| |left; reflexivity].
  - right. unfold As16. rewrite length_app, H. reflexivity.
  - destruct z; [right; exact H | left; reflexivity].
Qed.

(** ** Valid addresses *)

Lemma length_list_ascii_of_string (s : string) :
  length (list_ascii_of_string s) = String.length s.
Proof. induction s; simpl; congruence. Qed.

Lemma To4_nonnil (ip : IP) :
  length ip = 16 -> is_nil (To4 ip) = false ->
  To4 ip = skipn 12 ip /\ length (skipn 12 ip) = 4.
Proof.
  intros Hlen Hnn. unfold To4 in *. rewrite Hlen in *. cbn [Nat.eqb andb] in *.
  assert (Hl : length (skipn 12 ip) = 4) by (rewrite length_skipn; lia).
  destruct (v4InV6 ip).
  - split; [|exact Hl]. apply firstn_all2. lia.
  - discriminate.
Qed.

(** What [valid_Addr] says, case by case. *)
Lemma valid_Addr_cases (a : Addr) :
  valid_Addr a = true ->
  (Port a < 65536)%N /\
  ((Atyp a = AddrDomain /\ String.length (Host a) <= 255)
   \/ ((Atyp a = AddrIPV4 \/ Atyp a = AddrIPv6)
       /\ length (ipBytes (ParseIP (Host a))) = ipLength (Atyp a)
       /\ is_nil (ParseIP (Host a)) = false
       /\ IP_String (ipBytes (ParseIP (Host a))) = Host a)).
Proof.
  unfold valid_Addr. intros H.
  apply andb_true_iff in H as [Hp H]. apply N.ltb_lt in Hp. split; [exact Hp|].
  destruct (Ascii.eqb (Atyp a) AddrDomain) eqn:Ed.
  - left. apply Ascii.eqb_eq in Ed. apply Nat.leb_le in H. auto.
  - right.
    apply andb_true_iff in H as [H Hs]. apply andb_true_iff in H as [Ht Hc].
    apply String.eqb_eq in Hs. apply Ascii.eqb_eq in Hc.
    remember (ParseIP (Host a)) as ip eqn:Eip.
    assert (Hl : ip = [] \/ length ip = 16) by (subst ip; apply ParseIP_length).
    unfold parseAtyp in Hc. rewrite <- Eip in Hc.
    apply orb_true_iff in Ht as [Ht|Ht]; apply Ascii.eqb_eq in Ht.
    + split; [left; exact Ht|]. rewrite Ht in *.
      destruct (is_nil (To4 ip)) eqn:E4; cbn [negb] in Hc.
      { destruct (negb (is_nil (To16 ip))); discriminate. }
      destruct Hl as [->|Hl]; [discriminate|].
      destruct (To4_nonnil ip Hl E4) as [Ht4 Hl4].
      unfold ipBytes. rewrite E4. cbn [negb].
      split; [exact Hl4|]. split; [destruct ip; [discriminate|reflexivity]|].
      rewrite <- Hs.
      assert (H4 : To4 (skipn 12 ip) = skipn 12 ip)
        by (unfold To4; rewrite Hl4; reflexivity).
      transitivity (string4 (skipn 12 ip)).
      * unfold IP_String. rewrite H4, Hl4. reflexivity.
      * unfold IP_String. rewrite Ht4, Hl4, Hl. reflexivity.
    + split; [right; exact Ht|]. rewrite Ht in *.
      destruct (is_nil (To4 ip)) eqn:E4; cbn [negb] in Hc; [|discriminate].
      destruct (is_nil (To16 ip)) eqn:E16; cbn [negb] in Hc; [discriminate|].
      destruct Hl as [->|Hl]; [discriminate|].
      unfold ipBytes. rewrite E4, E16. cbn [negb].
      split; [exact Hl|]. split; [destruct ip; [discriminate|reflexivity]|].
      exact Hs.
Qed.

Lemma PutUint16_length (p : N) : length (PutUint16 p) = 2.
Proof. reflexivity. Qed.

Lemma Addr_wire_length (a : Addr) :
  valid_Addr a = true -> length (Addr_wire a) = Addr_Len a.
Proof.
  intros Hv. destruct (valid_Addr_cases a Hv) as [_ [[Hd Hl]|[Ht [Hl _]]]];
    unfold Addr_wire, Addr_Len.
  - rewrite Hd. cbn [Ascii.eqb]. change (Ascii.eqb AddrDomain AddrDomain) with true.
    cbn [length app]. rewrite length_app, length_list_ascii_of_string. simpl. lia.
  - assert (Hnd : Ascii.eqb (Atyp a) AddrDomain = false)
      by (destruct Ht as [-> | ->]; reflexivity).
    rewrite Hnd. cbn [length]. rewrite length_app, Hl. simpl. lia.
Qed.

(** ** Writing an address *)

(** Side conditions of the [_fits] lemmas. *)
Ltac fits :=
  cbn [bw_err bw_buf bw_size bw_wr];
  rewrite ?length_app, ?length_list_ascii_of_string, ?PutUint16_length;
  cbn [length]; first [assumption | reflexivity | lia].

Lemma Addr_Write_body_fits (U : Type) (HU : Writer U) (a : Addr) (w : bufWriter U) :
  valid_Addr a = true -> bw_err w = None ->
  length (bw_buf w) + Addr_Len a <= bw_size w ->
  Addr_Write_body a U HU w
  = (None, mkBufWriter None (bw_buf w ++ Addr_wire a) (bw_size w) (bw_wr w)).
Proof.
  intros Hv He Hfit.
  pose proof (Addr_wire_length a Hv) as Hwl.
  destruct (valid_Addr_cases a Hv) as [_ [[Hd Hl]|[Ht [Hl [Hnn _]]]]];
    unfold Addr_Write_body, Addr_wire in *.
  - rewrite Hd in *. change (Ascii.eqb AddrDomain AddrIPV4) with false.
    change (Ascii.eqb AddrDomain AddrIPv6) with false.
    change (Ascii.eqb AddrDomain AddrDomain) with true in *.
    cbn [orb length app] in *.
    rewrite length_app, length_list_ascii_of_string, PutUint16_length in Hwl.
    rewrite bufio_WriteByte_fits by fits.
    rewrite bufio_WriteByte_fits by fits.
    rewrite bufio_WriteString_fits by fits.
    cbn [snd bw_err bw_buf bw_size bw_wr].
    rewrite bufio_Write_fits by fits.
    cbn [bw_err bw_buf bw_size bw_wr].
    rewrite <- !app_assoc. reflexivity.
  - assert (Hnd : Ascii.eqb (Atyp a) AddrDomain = false)
      by (destruct Ht as [-> | ->]; reflexivity).
    assert (Hip : Ascii.eqb (Atyp a) AddrIPV4 || Ascii.eqb (Atyp a) AddrIPv6 = true)
      by (destruct Ht as [-> | ->]; reflexivity).
    rewrite Hnd in *. rewrite Hip, Hnn.
    cbn [length] in Hwl. rewrite length_app, PutUint16_length in Hwl.
    rewrite bufio_WriteByte_fits by fits.
    rewrite (bufio_Write_fits _ (ipBytes _)) by fits.
    cbn [snd bw_err bw_buf bw_size bw_wr].
    rewrite bufio_Write_fits by fits.
    cbn [bw_err bw_buf bw_size bw_wr].
    rewrite <- !app_assoc. reflexivity.
Qed.

Lemma Addr_Write_BufW_fits (U : Type) (HU : Writer U) (a : Addr) (w : bufWriter U) :
  valid_Addr a = true -> bw_err w = None ->
  length (bw_buf w) + Addr_Len a <= bw_size w ->
  Addr_Write a (BufW w)
  = (None, BufW (mkBufWriter None (bw_buf w ++ Addr_wire a) (bw_size w) (bw_wr w))).
Proof.
  intros Hv He Hfit. unfold Addr_Write, with_NewWriterSize.
  replace (Addr_Len a <=? bw_size w) with true by (symmetry; apply Nat.leb_le; lia).
  rewrite Addr_Write_body_fits by assumption. reflexivity.
Qed.

(** ** Reading an address *)

(** The lemmas of this section hold for any reader that hands out the bytes
    it holds in the amounts asked for, as long as some are left: a
    connection and a [bytes.Reader] both do. *)
Section ReadWire.
Context {R : Type} `{Reader R}.
Variable holds : list byte -> R.
Hypothesis holds_read :
  forall d rest p : list byte,
    length p = length d -> d ++ rest <> [] ->
    io_Read (holds (d ++ rest)) p = ((d, length d, None), holds rest).

Lemma ErrReader_Read_exact (d rest p : list byte) :
  length p = length d -> d ++ rest <> [] ->
  ErrReader_Read (mkErrReader None (holds (d ++ rest))) p
  = ((d, length d, None), mkErrReader None (holds rest)).
Proof.
  intros Hl Hne. unfold ErrReader_Read. cbn [err rd].
  rewrite holds_read by assumption. reflexivity.
Qed.

(** The same, for input that is [d ++ rest] up to computation. *)
Lemma ErrReader_Read_as (d rest p X : list byte) :
  X = d ++ rest -> length p = length d -> d ++ rest <> [] ->
  ErrReader_Read (mkErrReader None (holds X)) p
  = ((d, length d, None), mkErrReader None (holds rest)).
Proof. intros ->. apply ErrReader_Read_exact. Qed.

Lemma Addr_Read_wire (a0 a : Addr) (nw : string) (rest : list byte) :
  valid_Addr a = true ->
  Addr_Read a0 nw (ErrR (mkErrReader None (holds (Addr_wire a ++ rest))))
  = ((None, on_network nw a), ErrR (mkErrReader None (holds rest))).
Proof.
  intros Hv.
  destruct (valid_Addr_cases a Hv) as [Hp [[Hd Hl]|[Ht [Hl [Hnn Hs]]]]];
    unfold Addr_Read, Addr_wire, on_network; cbn [NewReader ioReader_after].
  - rewrite Hd. change (Ascii.eqb AddrDomain AddrDomain) with true. cbv iota.
    change (firstn 1 (make 2)) with [zero].
    cbn [app]. rewrite <- app_assoc.
    erewrite (ErrReader_Read_as [AddrDomain]); [| reflexivity | reflexivity | discriminate].
    cbn [ErrReader_Error err app skipn make repeat at_ nth network Atyp Host Port].
    change (Ascii.eqb AddrDomain AddrIPV4) with false.
    change (Ascii.eqb AddrDomain AddrIPv6) with false.
    change (Ascii.eqb AddrDomain AddrDomain) with true.
    cbn [orb firstn].
    erewrite (ErrReader_Read_as [byte_of_nat (String.length (Host a))]);
      [| reflexivity | reflexivity | discriminate].
    cbn [app skipn at_ nth].
    rewrite nat_of_byte_of_nat_small by exact Hl.
    rewrite <- (length_list_ascii_of_string (Host a)).
    rewrite ErrReader_Read_exact;
      [| apply length_make
       | intros Habs; apply (f_equal (@length _)) in Habs;
         rewrite length_app, length_app in Habs; simpl in Habs; lia].
    cbn [network Atyp Host Port].
    rewrite ErrReader_Read_exact by (reflexivity || discriminate).
    rewrite Uint16_PutUint16 by exact Hp.
    rewrite string_of_list_ascii_of_string.
    reflexivity.
  - assert (Hnd : Ascii.eqb (Atyp a) AddrDomain = false)
      by (destruct Ht as [-> | ->]; reflexivity).
    assert (Hip : Ascii.eqb (Atyp a) AddrIPV4 || Ascii.eqb (Atyp a) AddrIPv6 = true)
      by (destruct Ht as [-> | ->]; reflexivity).
    rewrite Hnd.
    change (firstn 1 (make 2)) with [zero].
    cbn [app]. rewrite <- app_assoc.
    erewrite (ErrReader_Read_as [Atyp a]); [| reflexivity | reflexivity | discriminate].
    cbn [ErrReader_Error err app skipn make repeat at_ nth network Atyp Host Port].
    rewrite Hip.
    rewrite <- Hl.
    rewrite ErrReader_Read_exact;
      [| apply length_make
       | intros Habs; apply (f_equal (@length _)) in Habs;
         rewrite length_app, length_app in Habs; simpl in Habs; lia].
    cbn [network Atyp Host Port].
    rewrite ErrReader_Read_exact by (reflexivity || discriminate).
    rewrite Uint16_PutUint16 by exact Hp.
    rewrite Hs.
    reflexivity.
Qed.

End ReadWire.

(** ** Round trips *)

Lemma RawConn_holds_read (o : list byte) :
  forall d rest p : list byte,
    length p = length d -> d ++ rest <> [] ->
    io_Read (mkRawConn (d ++ rest) o false) p = ((d, length d, None), mkRawConn rest o false).
Proof. intros d rest p Hl _. apply RawConn_Read_exact. exact Hl. Qed.

Lemma ErrReader_Read_RawConn (d rest o p X : list byte) :
  X = d ++ rest -> length p = length d ->
  ErrReader_Read (mkErrReader None (mkRawConn X o false)) p
  = ((d, length d, None), mkErrReader None (mkRawConn rest o false)).
Proof.
  intros -> Hl. unfold ErrReader_Read. cbn [err rd].
  unfold io_Read, RawConn_Reader. rewrite RawConn_Read_exact by exact Hl. reflexivity.
Qed.

Lemma cmd_valid (c : cmdType) :
  Ascii.eqb c CmdConnect || Ascii.eqb c CmdBind || Ascii.eqb c CmdUDP = true ->
  cmdType_Valid c = true.
Proof.
  intros H. apply orb_true_iff in H as [H|H]; [apply orb_true_iff in H as [H|H]|];
    apply Ascii.eqb_eq in H; subst c; reflexivity.
Qed.

Lemma Request_roundtrip (r : Request) :
  valid_message (MRequest r) = true ->
  exists bs, encode (MRequest r) = (None, bs)
             /\ decode TRequest bs = Some (None, as_decoded (MRequest r)).
Proof.
  destruct r as [cmd [a|]]; cbn [valid_message Cmd Dst valid_pointer];
    intros Hv; apply andb_true_iff in Hv as [Hc Ha]; [|discriminate].
  exists ([Version; cmd; zero] ++ Addr_wire a).
  split.
  - unfold encode, sent, Request_Write, with_NewWriterSize, bufio_new, fresh.
    cbn [Dst Cmd Nat.add Nat.leb].
    rewrite bufio_Write_fits by (cbn [bw_err bw_buf bw_size length]; reflexivity || lia).
    cbn [bw_err bw_buf bw_size bw_wr app].
    rewrite Addr_Write_BufW_fits by (cbn [bw_err bw_buf bw_size length]; auto; lia).
    cbn [the_bufWriter bw_err bw_buf bw_size bw_wr].
    rewrite bufio_Flush_RawConn. reflexivity.
  - unfold decode, incoming, Request_Read. cbn [NewReader ioReader_after].
    erewrite (ErrReader_Read_RawConn [Version; cmd; zero]); [| reflexivity | reflexivity].
    cbn [at_ nth]. change (isSOCKS5 Version) with true. cbn [negb Cmd Dst].
    rewrite (cmd_valid cmd Hc). cbn [negb].
    pose proof (Addr_Read_wire (fun d => mkRawConn d [] false) (RawConn_holds_read [])
                  new_Addr a (cmdType_Network cmd) [] Ha) as HR.
    rewrite app_nil_r in HR. cbv beta in HR. rewrite HR.
    reflexivity.
Qed.

Lemma Reply_roundtrip (r : Reply) :
  valid_message (MReply r) = true ->
  exists bs, encode (MReply r) = (None, bs)
             /\ decode TReply bs = Some (None, as_decoded (MReply r)).
Proof.
  destruct r as [rep [a|]]; cbn [valid_message Rep Bnd valid_pointer];
    intros Hv; apply andb_true_iff in Hv as [Hc Ha]; [|discriminate].
  exists ([Version; rep; zero] ++ Addr_wire a).
  split.
  - unfold encode, sent, Reply_Write, with_NewWriterSize, bufio_new, fresh.
    cbn [Bnd Rep Nat.add Nat.leb].
    rewrite bufio_Write_fits by (cbn [bw_err bw_buf bw_size length]; reflexivity || lia).
    cbn [bw_err bw_buf bw_size bw_wr app].
    rewrite Addr_Write_BufW_fits by (cbn [bw_err bw_buf bw_size length]; auto; lia).
    cbn [the_bufWriter bw_err bw_buf bw_size bw_wr].
    rewrite bufio_Flush_RawConn. reflexivity.
  - unfold decode, incoming, Reply_Read. cbn [NewReader ioReader_after].
    erewrite (ErrReader_Read_RawConn [Version; rep; zero]); [| reflexivity | reflexivity].
    cbn [at_ nth]. change (isSOCKS5 Version) with true. cbn [negb Rep Bnd].
    unfold repType_Valid.
    replace (nat_of_byte rep <? 9) with true
      by (symmetry; apply Nat.ltb_lt; apply Nat.leb_le in Hc; lia).
    cbn [negb].
    pose proof (Addr_Read_wire (fun d => mkRawConn d [] false) (RawConn_holds_read [])
                  new_Addr a "" [] Ha) as HR.
    rewrite app_nil_r in HR. cbv beta in HR. rewrite HR.
    reflexivity.
Qed.

Lemma map_id_bytes (l : list byte) : map (fun x : byte => x) l = l.
Proof. apply map_id. Qed.

Lemma NegotiationRequest_roundtrip (r : NegotiationRequest) :
  valid_message (MNegotiationRequest r) = true ->
  exists bs, encode (MNegotiationRequest r) = (None, bs)
             /\ decode TNegotiationRequest bs = Some (None, as_decoded (MNegotiationRequest r)).
Proof.
  destruct r as [ms]. cbn [valid_message Methods]. intros Hv. apply Nat.leb_le in Hv.
  exists ([Version; byte_of_nat (length ms)] ++ ms).
  split.
  - unfold encode, sent, NegotiationRequest_Write, with_NewWriterSize, bufio_new, fresh,
      methods2Bytes.
    cbn [Methods Nat.add Nat.leb]. rewrite map_id_bytes.
    rewrite bufio_Write_fits by (cbn [bw_err bw_buf bw_size length]; reflexivity || lia).
    cbn [bw_err bw_buf bw_size bw_wr app].
    rewrite bufio_Write_fits by (cbn [bw_err bw_buf bw_size length]; reflexivity || lia).
    cbn [bw_err bw_buf bw_size bw_wr app].
    rewrite bufio_Flush_RawConn. reflexivity.
  - unfold decode, incoming, NegotiationRequest_Read, bytes2Methods.
    cbn [NewReader ioReader_after].
    erewrite (ErrReader_Read_RawConn [Version; byte_of_nat (length ms)]);
      [| reflexivity | reflexivity].
    cbn [at_ nth]. change (isSOCKS5 Version) with true. cbn [negb].
    rewrite nat_of_byte_of_nat_small by exact Hv.
    erewrite (ErrReader_Read_RawConn ms []);
      [| symmetry; apply app_nil_r | apply length_make].
    rewrite map_id_bytes. reflexivity.
Qed.

Lemma NegotiationReply_roundtrip (r : NegotiationReply) :
  exists bs, encode (MNegotiationReply r) = (None, bs)
             /\ decode TNegotiationReply bs = Some (None, as_decoded (MNegotiationReply r)).
Proof.
  destruct r as [m]. exists [Version; m]. split; reflexivity.
Qed.

Lemma PassReply_roundtrip (r : PassReply) :
  exists bs, encode (MPassReply r) = (None, bs)
             /\ decode TPassReply bs = Some (None, as_decoded (MPassReply r)).
Proof.
  destruct r as [st]. exists [subnegotiationVersion; st]. split; reflexivity.
Qed.

Lemma PassRequest_wire_read (un pw o rest : list byte) (r0 : PassRequest) :
  length un <= 255 -> length pw <= 255 ->
  PassRequest_Read r0
    (PlainR (mkRawConn ([subnegotiationVersion; byte_of_nat (length un)] ++ un
                          ++ [byte_of_nat (length pw)] ++ pw ++ rest) o false))
  = ((None, mkPassRequest un pw), PlainR (mkRawConn rest o false)).
Proof.
  intros Hu Hp. unfold PassRequest_Read. cbn [NewReader ioReader_after].
  erewrite (ErrReader_Read_RawConn [subnegotiationVersion; byte_of_nat (length un)]);
    [| reflexivity | reflexivity].
  cbn [at_ nth]. change (Ascii.eqb subnegotiationVersion subnegotiationVersion) with true.
  cbn [negb].
  rewrite nat_of_byte_of_nat_small by exact Hu.
  erewrite (ErrReader_Read_RawConn un); [| reflexivity | apply length_make].
  cbn [firstn].
  erewrite (ErrReader_Read_RawConn [byte_of_nat (length pw)]); [| reflexivity | reflexivity].
  cbn [app skipn at_ nth uname passwd].
  rewrite nat_of_byte_of_nat_small by exact Hp.
  erewrite (ErrReader_Read_RawConn pw); [| reflexivity | apply length_make].
  reflexivity.
Qed.

Lemma PassRequest_wire_write (un pw i o : list byte) :
  PassRequest_Write (mkPassRequest un pw) (PlainW (mkRawConn i o false))
  = (None, PlainW (mkRawConn i (o ++ [subnegotiationVersion; byte_of_nat (length un)] ++ un
                                  ++ [byte_of_nat (length pw)] ++ pw) false)).
Proof.
  unfold PassRequest_Write, with_NewWriterSize, bufio_new.
  cbn [uname passwd Nat.add Nat.leb].
  rewrite bufio_WriteByte_fits by (cbn [bw_err bw_buf bw_size length]; reflexivity || lia).
  rewrite bufio_WriteByte_fits by (cbn [bw_err bw_buf bw_size length app]; reflexivity || lia).
  rewrite bufio_Write_fits
    by (cbn [bw_err bw_buf bw_size length app]; reflexivity || lia).
  rewrite bufio_WriteByte_fits
    by (cbn [bw_err bw_buf bw_size app]; rewrite ?length_app; cbn [length]; reflexivity || lia).
  rewrite bufio_Write_fits
    by (cbn [bw_err bw_buf bw_size app]; rewrite ?length_app; cbn [length];
        rewrite ?length_app; cbn [length]; reflexivity || lia).
  cbn [bw_err bw_buf bw_size bw_wr app].
  rewrite bufio_Flush_RawConn.
  cbn [bw_wr]. rewrite <- !app_assoc. reflexivity.
Qed.

Lemma PassRequest_roundtrip (r : PassRequest) :
  valid_message (MPassRequest r) = true ->
  exists bs, encode (MPassRequest r) = (None, bs)
             /\ decode TPassRequest bs = Some (None, as_decoded (MPassRequest r)).
Proof.
  destruct r as [un pw]. cbn [valid_message uname passwd]. intros Hv.
  apply andb_true_iff in Hv as [Hu Hp]. apply Nat.leb_le in Hu, Hp.
  exists ([subnegotiationVersion; byte_of_nat (length un)] ++ un
            ++ [byte_of_nat (length pw)] ++ pw).
  split.
  - unfold encode, sent, fresh. rewrite PassRequest_wire_write. reflexivity.
  - unfold decode, incoming.
    pose proof (PassRequest_wire_read un pw [] [] (mkPassRequest [] []) Hu Hp) as HR.
    rewrite app_nil_r in HR. rewrite HR. reflexivity.
Qed.

Lemma io_ReadAll_bytes (fuel : nat) :
  forall data acc : list byte,
    length data < fuel ->
    io_ReadAll fuel (mkErrReader None (mkBytesReader data)) acc
    = Some ((acc ++ data, None), mkErrReader (Some EOF) (mkBytesReader [])).
Proof.
  induction fuel as [|fuel IH]; intros data acc Hf; [lia|].
  cbn [io_ReadAll]. unfold io_Read at 1, ErrReader_Reader, ErrReader_Read. cbn [err rd].
  unfold io_Read, bytesReader_Reader. cbn [unread].
  destruct data as [|x data].
  - rewrite firstn_O, app_nil_r. reflexivity.
  - set (n := Nat.min (length (make 512)) (length (x :: data))).
    assert (Hn : 1 <= n <= length (x :: data))
      by (subst n; rewrite length_make; cbn [length]; lia).
    unfold copy. fold n.
    rewrite firstn_app, length_firstn.
    replace (Nat.min n (length (x :: data))) with n by lia.
    rewrite Nat.sub_diag, firstn_O, app_nil_r, firstn_firstn, Nat.min_id.
    rewrite IH by (rewrite length_skipn; cbn [length] in *; lia).
    rewrite <- app_assoc, firstn_skipn. reflexivity.
Qed.

Lemma UDPHeader_roundtrip (h : UDPHeader) :
  valid_message (MUDPHeader h) = true ->
  exists bs, encode (MUDPHeader h) = (None, bs)
             /\ decode TUDPHeader bs = Some (None, as_decoded (MUDPHeader h)).
Proof.
  destruct h as [frag [a|] data]; cbn [valid_message udp_Dst valid_pointer];
    intros Ha; [|discriminate].
  exists (([zero; zero; frag] ++ Addr_wire a) ++ data).
  split.
  - unfold encode, sent, UDPHeader_Write, with_NewWriterSize, bufio_new, fresh.
    cbn [udp_Dst Frag Data Nat.add Nat.leb].
    rewrite bufio_Write_fits by (cbn [bw_err bw_buf bw_size length]; reflexivity || lia).
    cbn [bw_err bw_buf bw_size bw_wr app].
    rewrite Addr_Write_BufW_fits by (cbn [bw_err bw_buf bw_size length]; auto; lia).
    cbn [the_bufWriter bw_err bw_buf bw_size bw_wr].
    rewrite bufio_Write_fits;
      [| reflexivity
       | cbn [bw_err bw_buf bw_size]; rewrite length_app, (Addr_wire_length a Ha);
         cbn [length]; lia].
    cbn [bw_err bw_buf bw_size bw_wr].
    rewrite bufio_Flush_RawConn. reflexivity.
  - unfold decode, UDPHeader_Read. cbn [NewReader ioReader_after].
    rewrite <- !app_assoc.
    rewrite (ErrReader_Read_exact mkBytesReader bytesReader_Read_exact [zero; zero; frag])
      by (reflexivity || discriminate).
    cbn [at_ nth Frag udp_Dst Data].
    rewrite (Addr_Read_wire mkBytesReader bytesReader_Read_exact new_Addr a "udp" data Ha).
    cbn [NewReader].
    rewrite io_ReadAll_bytes
      by (rewrite !length_app; cbn [length]; lia).
    reflexivity.
Qed.

(** X30.  The round trip where it holds.  For every message type and every
    instance [m] of it that [valid_message] accepts (lengths that fit their
    length byte, a command from 0x01 to 0x03, a reply code up to 0x08, a
    port below 65536, and an address that is a DOMAIN of at most 255 bytes
    or an IP whose host is the text [IP.String] prints and whose type is the
    one [parseAtyp] gives that text), encoding [m] succeeds and decoding
    the bytes it produced yields, with no error, [m] with the address's
    network as the decoder sets it (the network is not part of the wire
    form).  All three address types have such instances. *)
Theorem decode_encode :
  forall m : message,
    valid_message m = true ->
    exists bs : list byte,
      encode m = (None, bs)
      /\ decode (type_of m) bs = Some (None, as_decoded m).
Proof.
  intros [r|r|r|r|r|r|h] Hv; cbn [type_of].
  - apply NegotiationRequest_roundtrip; exact Hv.
  - apply NegotiationReply_roundtrip.
  - apply PassRequest_roundtrip; exact Hv.
  - apply PassReply_roundtrip.
  - apply Request_roundtrip; exact Hv.
  - apply Reply_roundtrip; exact Hv.
  - apply UDPHeader_roundtrip; exact Hv.
Qed.

(** One valid instance for each address type. *)
Lemma decode_encode_witness :
  let m4 := MRequest (mkRequest CmdConnect (Some (mkAddr "tcp" AddrIPV4 "192.0.2.7" 1080))) in
  let m6 := MReply (mkReply RepSucceeded (Some (mkAddr "" AddrIPv6 "2001:db8::1" 443))) in
  let md := MUDPHeader (mkUDPHeader zero (Some (mkAddr "udp" AddrDomain "example.com" 53))
                          (list_ascii_of_string "hi")) in
  (valid_message m4 = true /\ as_decoded m4 = m4
   /\ exists bs, encode m4 = (None, bs) /\ decode (type_of m4) bs = Some (None, as_decoded m4))
  /\ (valid_message m6 = true /\ as_decoded m6 = m6
      /\ exists bs, encode m6 = (None, bs) /\ decode (type_of m6) bs = Some (None, as_decoded m6))
  /\ (valid_message md = true /\ as_decoded md = md
      /\ exists bs, encode md = (None, bs) /\ decode (type_of md) bs = Some (None, as_decoded md)).
Proof.
  cbv zeta.
  split; [|split]; (split; [vm_compute; reflexivity|]); (split; [reflexivity|]);
    apply decode_encode; vm_compute; reflexivity.
Defined.

(** [valid_Addr] leaves out an IPv6 address type on an IPv4-mapped
    address, whether the host is written as an IPv6 literal or in the dotted
    form in which [IP.String] prints such an address: [parseAtyp]
    classifies both as IPv4.  On it [Addr.Write] emits the four IPv4 bytes
    after ATYP = 0x04. *)
Example ipv4_mapped_is_not_valid :
  let a := mkAddr "tcp" AddrIPv6 "::ffff:192.0.2.7" 1080 in
  valid_Addr a = false
  /\ IP_String (ParseIP (Host a)) = "192.0.2.7"
  /\ encode (MRequest (mkRequest CmdConnect (Some a)))
     = (None, map byte_of_nat [5; 1; 0; 4; 192; 0; 2; 7; 4; 56]).
Proof. vm_compute. repeat split. Qed.

(** C5.  The round trip fails on an address of type IPv6 that is
    IPv4-mapped.  [Request.Read] itself yields such a request: from a
    CONNECT request with ATYP = 0x04 and the sixteen bytes of
    ::ffff:192.0.2.7 it reads the host "192.0.2.7", the canonical text of
    that address, under the type IPv6.  For this request [Addr.Len] is 19,
    but [Request.Write] sends ten bytes, ATYP = 0x04 followed by the four
    bytes that [ipBytes] chooses by [To4], and [Request.Read] of these
    bytes ends in an error: it takes the six bytes left for the address and
    finds no port. *)
Theorem decode_encode_ipv4_mapped :
  let a := mkAddr "tcp" AddrIPv6 "192.0.2.7" 1080 in
  let m := MRequest (mkRequest CmdConnect (Some a)) in
  decode TRequest
    (map byte_of_nat [5; 1; 0; 4; 0; 0; 0; 0; 0; 0; 0; 0; 0; 0; 255; 255; 192; 0; 2; 7; 4; 56])
  = Some (None, m)
  /\ IP_String (ParseIP (Host a)) = Host a
  /\ Addr_Len a = 19
  /\ encode m = (None, map byte_of_nat [5; 1; 0; 4; 192; 0; 2; 7; 4; 56])
  /\ decode TRequest (map byte_of_nat [5; 1; 0; 4; 192; 0; 2; 7; 4; 56])
     = Some (Some (ErrWrap ErrProtocol EOF "unable to read the address"),
             MRequest (mkRequest CmdConnect
                         (Some (mkAddr "tcp" AddrIPv6 "c000:207:438::" 0)))).
Proof. vm_compute. repeat split. Qed.

(** ** Writing a DOMAIN address *)

Lemma Addr_Write_body_domain (U : Type) (HU : Writer U) (a : Addr) (w : bufWriter U) :
  Atyp a = AddrDomain -> bw_err w = None ->
  length (bw_buf w) + Addr_Len a <= bw_size w ->
  Addr_Write_body a U HU w
  = (None,
     mkBufWriter None
       (bw_buf w ++ [AddrDomain; byte_of_nat (String.length (Host a))]
          ++ list_ascii_of_string (Host a) ++ PutUint16 (Port a))
       (bw_size w) (bw_wr w)).
Proof.
  intros Hd He Hfit. unfold Addr_Write_body, Addr_Len in *. rewrite Hd in *.
  change (Ascii.eqb AddrDomain AddrIPV4) with false.
  change (Ascii.eqb AddrDomain AddrIPv6) with false.
  change (Ascii.eqb AddrDomain AddrDomain) with true in *.
  cbn [orb] in *.
  rewrite bufio_WriteByte_fits by fits.
  rewrite bufio_WriteByte_fits by fits.
  rewrite bufio_WriteString_fits by fits.
  cbn [snd bw_err bw_buf bw_size bw_wr].
  rewrite bufio_Write_fits by fits.
  cbn [bw_err bw_buf bw_size bw_wr].
  rewrite <- !app_assoc. reflexivity.
Qed.

(** C4, as the code has it.  On a DOMAIN address [Addr.Write] does not look
    at the length of the host: writing into a buffered writer with room for
    [a.Len()] bytes (the writer its callers pass) returns nil and emits
    ATYP, one length byte [byte(len(host))], the host bytes verbatim and the
    port.  The length byte is [len(host)] modulo 256, hence [len(host)]
    itself for every host of at most 255 bytes. *)
Theorem Addr_Write_domain :
  forall (U : Type) (HU : Writer U) (a : Addr) (w : bufWriter U),
    Atyp a = AddrDomain -> bw_err w = None ->
    length (bw_buf w) + Addr_Len a <= bw_size w ->
    Addr_Write a (BufW w)
    = (None,
       BufW (mkBufWriter None
               (bw_buf w ++ [AddrDomain; byte_of_nat (String.length (Host a))]
                  ++ list_ascii_of_string (Host a) ++ PutUint16 (Port a))
               (bw_size w) (bw_wr w)))
    /\ nat_of_byte (byte_of_nat (String.length (Host a))) = String.length (Host a) mod 256
    /\ (String.length (Host a) <= 255 ->
        nat_of_byte (byte_of_nat (String.length (Host a))) = String.length (Host a)).
Proof.
  intros U HU a w Hd He Hfit. split; [|split].
  - unfold Addr_Write, with_NewWriterSize.
    replace (Addr_Len a <=? bw_size w) with true by (symmetry; apply Nat.leb_le; lia).
    rewrite Addr_Write_body_domain by assumption. reflexivity.
  - apply nat_of_byte_of_nat.
  - apply nat_of_byte_of_nat_small.
Qed.

Lemma Addr_Write_domain_witness :
  let a := mkAddr "tcp" AddrDomain "example.com" 80 in
  let w := bufio_new fresh (3 + Addr_Len a) in
  Addr_Write a (BufW w)
  = (None,
     BufW (mkBufWriter None
             (map byte_of_nat [3; 11; 101; 120; 97; 109; 112; 108; 101; 46; 99; 111; 109; 0; 80])
             18 fresh))
  /\ nat_of_byte (byte_of_nat (String.length (Host a))) = 11.
Proof.
  cbv zeta.
  destruct (Addr_Write_domain RawConn _ (mkAddr "tcp" AddrDomain "example.com" 80)
              (bufio_new fresh (3 + Addr_Len (mkAddr "tcp" AddrDomain "example.com" 80)))
              eq_refl eq_refl ltac:(vm_compute; lia)) as [H1 [H2 _]].
  split; [exact H1 | exact H2].
Defined.

(** A host of 256 bytes. *)
Lemma Addr_Write_long_domain :
  let a := mkAddr "tcp" AddrDomain (string_of_list_ascii (repeat "a"%char 256)) 80 in
  String.length (Host a) = 256
  /\ fst (Addr_Write a (BufW (bufio_new fresh (Addr_Len a)))) = None
  /\ encode (MRequest (mkRequest CmdConnect (Some a)))
     = (None, map byte_of_nat [5; 1; 0; 3; 0] ++ repeat "a"%char 256 ++ map byte_of_nat [0; 80]).
Proof. vm_compute. repeat split. Qed.

(** ** The password exchange on the server *)

Lemma bytes_eqb_refl (a : list byte) : bytes_eqb a a = true.
Proof. unfold bytes_eqb. apply String.eqb_refl. Qed.

Lemma PassAuth_validCredentials_self (a : PassAuth) :
  PassAuth_validCredentials a (user a) (pass a) = true.
Proof.
  unfold PassAuth_validCredentials, bytes_Equal. rewrite !bytes_eqb_refl. reflexivity.
Qed.

(** Whatever credentials the client sends, [PassAuth.Reply] answers with a
    single reply of status 0x00 and returns nil: the credentials it compares
    with the configured ones are the configured ones. *)
Lemma PassAuth_Reply_accepts_all (a : PassAuth) (un pw rest o : list byte) (al cd : bool) :
  length un <= 255 -> length pw <= 255 ->
  PassAuth_Reply a ctxBackground
    (mkConn al (mkRawConn (PassRequest_wire un pw ++ rest) o false) cd)
  = (None, mkConn al (mkRawConn rest (o ++ [subnegotiationVersion; statusOK]) false) cd).
Proof.
  intros Hu Hp. unfold PassAuth_Reply, Conn_ReadMessage, Conn_WriteMessage, Conn_processMessage.
  cbn [ctx_Err ctxBackground raw alive CloseOnContextDone Message_Read Message_Write
         PassRequest_Message PassReply_Message].
  unfold PassRequest_wire. rewrite <- !app_assoc.
  rewrite (PassRequest_wire_read un pw o rest (mkPassRequest [] []) Hu Hp).
  cbn [the_plainR raw alive CloseOnContextDone].
  rewrite PassAuth_validCredentials_self. cbn [negb].
  reflexivity.
Qed.

(** C1, at the failing input.  The server is configured with ("u", "p") and
    the client sends ("u", "x"): the request is read, one reply [01 00]
    (success) is written and [Reply] returns nil. *)
Theorem PassAuth_Reply_wrong_password :
  let a := NewPassAuth "u" "p" in
  let request := PassRequest_wire (list_ascii_of_string "u") (list_ascii_of_string "x") in
  PassAuth_validCredentials a (list_ascii_of_string "u") (list_ascii_of_string "x") = false
  /\ PassAuth_Reply a ctxBackground (NewConn (incoming request))
     = (None, NewConn (mkRawConn [] [subnegotiationVersion; statusOK] false)).
Proof. vm_compute. split; reflexivity. Qed.

(** ** The command byte of a request *)

(** X2.  [Request.Read] rejects every command byte from 0x04 on with a SOCKS
    error that carries REP = 0x07 (command not supported), having consumed
    the three bytes VER, CMD and RSV only. *)
Lemma Request_Read_unknown_cmd (r0 : Request) (cmd rsv : byte) (rest o : list byte) :
  4 <= nat_of_byte cmd ->
  Request_Read r0 (PlainR (mkRawConn ([Version; cmd; rsv] ++ rest) o false))
  = ((Some (ErrSOCKS RepCmdNotSupported (ErrNew ErrProtocol "unknown command (%v)")),
      mkRequest cmd (Dst r0)),
     PlainR (mkRawConn rest o false)).
Proof.
  intros Hc. unfold Request_Read. cbn [NewReader ioReader_after].
  erewrite (ErrReader_Read_RawConn [Version; cmd; rsv]); [| reflexivity | reflexivity].
  cbn [at_ nth]. change (isSOCKS5 Version) with true. cbn [negb Cmd Dst].
  unfold cmdType_Valid.
  replace (nat_of_byte cmd <? 4) with false by (symmetry; apply Nat.ltb_ge; exact Hc).
  reflexivity.
Qed.

(** C2, at the failing inputs.  A request with CMD = 0x00 is accepted:
    [Request.Read] returns nil, and [handle], which has no case for it,
    returns neither a connection nor an error, so that [serve] goes on to
    use a nil [conn].  A request with CMD = 0x09 is rejected with REP = 0x07,
    but [handle] returns as soon as the request could not be read: no reply
    is written and the client is not closed. *)
Theorem Request_Read_cmd_zero :
  let srv := mkServer "" 0 NoAuth (fun _ _ => inl (ErrNet "unreachable")) 0 ctxBackground in
  let env := mkEnv (fun _ _ => inl (ErrNet "in use")) (fun _ => inl (ErrNet "closed")) [] in
  let cmd0 := map byte_of_nat [5; 0; 0; 1; 192; 0; 2; 7; 0; 80] in
  let cmd9 := map byte_of_nat [5; 9; 0; 1; 192; 0; 2; 7; 0; 80] in
  cmdType_Valid (byte_of_nat 0) = true
  /\ decode TRequest cmd0
     = Some (None, MRequest (mkRequest (byte_of_nat 0)
                               (Some (mkAddr "unknown network" AddrIPV4 "192.0.2.7" 80))))
  /\ Server_handle srv env ctxBackground (NewConn (incoming cmd0))
     = ((None, None), NewConn fresh, [])
  /\ fst (Server_serve srv env ctxBackground (incoming (map byte_of_nat [5; 1; 0] ++ cmd0)))
     = Panicked nil_dereference
  /\ Server_handle srv env ctxBackground (NewConn (incoming cmd9))
     = ((None, Some (ErrSOCKS RepCmdNotSupported (ErrNew ErrProtocol "unknown command (%v)"))),
        NewConn (mkRawConn (map byte_of_nat [1; 192; 0; 2; 7; 0; 80]) [] false), []).
Proof. vm_compute. repeat split. Qed.

(** ** The negotiation on the server *)

Lemma NegotiationRequest_wire_read (ms rest o : list byte) (r0 : NegotiationRequest) :
  length ms <= 255 ->
  NegotiationRequest_Read r0 (PlainR (mkRawConn (NegotiationRequest_wire ms ++ rest) o false))
  = ((None, mkNegotiationRequest ms), PlainR (mkRawConn rest o false)).
Proof.
  intros Hl. unfold NegotiationRequest_Read, NegotiationRequest_wire, bytes2Methods.
  cbn [NewReader ioReader_after]. rewrite <- !app_assoc.
  erewrite (ErrReader_Read_RawConn [Version; byte_of_nat (length ms)]);
    [| reflexivity | reflexivity].
  cbn [at_ nth]. change (isSOCKS5 Version) with true. cbn [negb].
  rewrite nat_of_byte_of_nat_small by exact Hl.
  erewrite (ErrReader_Read_RawConn ms rest); [| reflexivity | apply length_make].
  rewrite map_id_bytes. reflexivity.
Qed.

(** X1.  What [negotiator.Reply] does on a connection that is open, under a
    context that is not done, once the client's request has arrived: it
    replies with the configured method when the client lists it and returns
    nil, and replies with 0xFF and returns an error otherwise. *)
Lemma negotiator_Reply_selects (method : authMethod) (ms rest o : list byte) (al cd : bool) :
  length ms <= 255 ->
  negotiator_Reply ctxBackground
    (mkConn al (mkRawConn (NegotiationRequest_wire ms ++ rest) o false) cd) method
  = if isMethodSupported method ms
    then (None, mkConn al (mkRawConn rest (o ++ [Version; method]) false) cd)
    else (Some (ErrNew ErrProtocol "authentication method (%v) is not supported by the client"),
          mkConn al (mkRawConn rest (o ++ [Version; MethodNoAcceptable]) false) cd).
Proof.
  intros Hl. unfold negotiator_Reply, Conn_ReadMessage, Conn_WriteMessage, Conn_processMessage.
  cbn [ctx_Err ctxBackground raw alive CloseOnContextDone Message_Read Message_Write
         NegotiationRequest_Message NegotiationReply_Message].
  rewrite (NegotiationRequest_wire_read ms rest o (mkNegotiationRequest []) Hl).
  cbn [the_plainR raw alive CloseOnContextDone Methods].
  destruct (isMethodSupported method ms); reflexivity.
Qed.

(** C7, at the failing input.  The server is configured with NoAuth and the
    client offers the password method only: the server replies [05 FF] and
    [negotiator.Reply] returns an error, which [auth] hands to [serve];
    [serve] returns with the client connection still open. *)
Theorem serve_leaves_socket_open :
  let srv := mkServer "" 0 NoAuth (fun _ _ => inl (ErrNet "unreachable")) 0 ctxBackground in
  let env := mkEnv (fun _ _ => inl (ErrNet "in use")) (fun _ => inl (ErrNet "closed")) [] in
  let greeting := NegotiationRequest_wire [MethodPassword] in
  isMethodSupported (Auth_Method (srv_Auth srv)) [MethodPassword] = false
  /\ Server_serve srv env ctxBackground (incoming greeting)
     = (AuthFailed (ErrNew ErrProtocol "authentication method (%v) is not supported by the client"),
        mkConn true (mkRawConn [] [Version; MethodNoAcceptable] false) true).
Proof. vm_compute. split; reflexivity. Qed.

(** ** Writes on a connection only add output *)

Lemma written_refl (c : RawConn) : written c c.
Proof. repeat split. exists []. symmetry. apply app_nil_r. Qed.

Lemma written_trans (a b c : RawConn) : written a b -> written b c -> written a c.
Proof.
  intros (Hi1 & Hc1 & s1 & Ho1) (Hi2 & Hc2 & s2 & Ho2).
  repeat split; try congruence.
  exists (s1 ++ s2). rewrite Ho2, Ho1, app_assoc. reflexivity.
Qed.

Lemma RawConn_Write_written (c : RawConn) (p : list byte) :
  written c (snd (RawConn_Write c p)).
Proof.
  unfold RawConn_Write. destruct (rc_closed c) eqn:E; cbn [snd].
  - apply written_refl.
  - repeat split; cbn [rc_in rc_out rc_closed]; auto. exists p. reflexivity.
Qed.

Lemma bufio_Flush_written (b : bufWriter RawConn) :
  written (bw_wr b) (bw_wr (snd (bufio_Flush b)))
  /\ bw_size (snd (bufio_Flush b)) = bw_size b.
Proof.
  unfold bufio_Flush. destruct (bw_err b); cbn [snd]; [split; [apply written_refl|reflexivity]|].
  destruct (bw_buf b) as [|x buf] eqn:Eb; cbn [snd]; [split; [apply written_refl|reflexivity]|].
  pose proof (RawConn_Write_written (bw_wr b) (x :: buf)) as Hw.
  unfold io_Write, RawConn_Writer.
  destruct (RawConn_Write (bw_wr b) (x :: buf)) as [[n e] wr']. cbn [snd] in Hw.
  destruct e; [|destruct (n <? length (x :: buf))]; cbn [snd bw_wr bw_size]; auto.
Qed.

Lemma bufio_Write_loop_written (fuel : nat) :
  forall (b : bufWriter RawConn) (p : list byte) (nn : nat),
    written (bw_wr b) (bw_wr (snd (bufio_Write_loop fuel b p nn)))
    /\ bw_size (snd (bufio_Write_loop fuel b p nn)) = bw_size b.
Proof.
  induction fuel as [|fuel IH]; intros b p nn; cbn [bufio_Write_loop];
    destruct ((bufio_Available b <? length p)
              && match bw_err b with None => true | Some _ => false end).
  - cbn [snd]. split; [apply written_refl|reflexivity].
  - destruct (bw_err b); cbn [snd bw_wr bw_size]; split; auto using written_refl.
  - destruct (bw_buf b) as [|x buf] eqn:Eb.
    + pose proof (RawConn_Write_written (bw_wr b) p) as Hw.
      unfold io_Write, RawConn_Writer.
      destruct (RawConn_Write (bw_wr b) p) as [[n e] wr']. cbn [snd] in Hw.
      destruct (IH (mkBufWriter e [] (bw_size b) wr') (skipn n p) (nn + n)) as [H1 H2].
      cbn [bw_wr bw_size] in *. split; [eapply written_trans; eauto | exact H2].
    + set (b1 := mkBufWriter (bw_err b)
                   ((x :: buf) ++ firstn (Nat.min (bufio_Available b) (length p)) p)
                   (bw_size b) (bw_wr b)).
      destruct (bufio_Flush_written b1) as [Hf1 Hf2].
      destruct (bufio_Flush b1) as [fe b'] eqn:Ef. cbn [snd] in Hf1, Hf2.
      destruct (IH b' (skipn (Nat.min (bufio_Available b) (length p)) p)
                  (nn + Nat.min (bufio_Available b) (length p))) as [H1 H2].
      subst b1. cbn [bw_wr bw_size] in *.
      split; [eapply written_trans; eauto | congruence].
  - destruct (bw_err b); cbn [snd bw_wr bw_size]; split; auto using written_refl.
Qed.

Lemma bufio_Write_written (b : bufWriter RawConn) (p : list byte) :
  written (bw_wr b) (bw_wr (snd (bufio_Write b p)))
  /\ bw_size (snd (bufio_Write b p)) = bw_size b.
Proof. apply bufio_Write_loop_written. Qed.

Lemma bufio_WriteByte_written (b : bufWriter RawConn) (c : byte) :
  written (bw_wr b) (bw_wr (snd (bufio_WriteByte b c)))
  /\ bw_size (snd (bufio_WriteByte b c)) = bw_size b.
Proof.
  unfold bufio_WriteByte. destruct (bw_err b); cbn [snd]; [split; [apply written_refl|reflexivity]|].
  destruct (bufio_Available b <=? 0).
  - destruct (bufio_Flush_written b) as [H1 H2].
    destruct (bufio_Flush b) as [fe b1]. cbn [snd] in *.
    destruct fe; cbn [snd bw_wr bw_size]; auto.
  - cbn [snd bw_wr bw_size]. split; [apply written_refl|reflexivity].
Qed.

(** [Addr.Write] returns nil or a protocol error, and only adds output. *)
Lemma Addr_Write_body_written (a : Addr) (w : bufWriter RawConn) :
  written (bw_wr w) (bw_wr (snd (Addr_Write_body a RawConn _ w)))
  /\ bw_size (snd (Addr_Write_body a RawConn _ w)) = bw_size w
  /\ IsSOCKSError (fst (Addr_Write_body a RawConn _ w)) = false.
Proof.
  unfold Addr_Write_body.
  destruct (bufio_WriteByte_written w (Atyp a)) as [H1 S1].
  destruct (bufio_WriteByte w (Atyp a)) as [e1 w1]. cbn [snd] in H1, S1.
  destruct (Ascii.eqb (Atyp a) AddrIPV4 || Ascii.eqb (Atyp a) AddrIPv6).
  - destruct (is_nil (ParseIP (Host a))).
    + cbn [fst snd]. auto.
    + destruct (bufio_Write_written w1 (ipBytes (ParseIP (Host a)))) as [H2 S2].
      set (w2 := snd (bufio_Write w1 (ipBytes (ParseIP (Host a))))) in *.
      destruct (bufio_Write_written w2 (PutUint16 (Port a))) as [H3 S3].
      destruct (bufio_Write w2 (PutUint16 (Port a))) as [r3 w3]. cbn [fst snd] in *.
      split; [eauto using written_trans|]. split; [congruence | reflexivity].
  - destruct (Ascii.eqb (Atyp a) AddrDomain).
    + destruct (bufio_WriteByte_written w1 (byte_of_nat (String.length (Host a)))) as [H2 S2].
      destruct (bufio_WriteByte w1 (byte_of_nat (String.length (Host a)))) as [e2 w2].
      cbn [snd] in H2, S2.
      destruct (bufio_Write_written w2 (list_ascii_of_string (Host a))) as [H3 S3].
      unfold bufio_WriteString.
      set (w3 := snd (bufio_Write w2 (list_ascii_of_string (Host a)))) in *.
      destruct (bufio_Write_written w3 (PutUint16 (Port a))) as [H4 S4].
      destruct (bufio_Write w3 (PutUint16 (Port a))) as [r4 w4]. cbn [fst snd] in *.
      split; [eauto using written_trans|]. split; [congruence | reflexivity].
    + destruct (bufio_Write_written w1 (PutUint16 (Port a))) as [H2 S2].
      destruct (bufio_Write w1 (PutUint16 (Port a))) as [r2 w2]. cbn [fst snd] in *.
      split; [eauto using written_trans|]. split; [congruence | reflexivity].
Qed.

(** Writing a reply on a connection returns an error that is not a SOCKS
    error, if any, and only adds output. *)
Lemma Reply_Write_written (r : Reply) (c : RawConn) :
  exists c' : RawConn,
    snd (Reply_Write r (PlainW c)) = PlainW c' /\ written c c'
    /\ IsSOCKSError (fst (Reply_Write r (PlainW c))) = false.
Proof.
  unfold Reply_Write. destruct (Bnd r) as [bnd|].
  2:{ exists c. cbn [fst snd]. repeat split; auto using written_refl. apply written_refl. }
  unfold with_NewWriterSize.
  set (w0 := bufio_new c (3 + Addr_Len bnd)).
  assert (Hs0 : bw_size w0 = 3 + Addr_Len bnd) by reflexivity.
  destruct (bufio_Write_written w0 [Version; Rep r; zero]) as [H1 S1].
  destruct (bufio_Write w0 [Version; Rep r; zero]) as [r1 w1]. cbn [snd] in H1, S1.
  unfold Addr_Write, with_NewWriterSize.
  replace (Addr_Len bnd <=? bw_size w1) with true
    by (symmetry; apply Nat.leb_le; rewrite S1, Hs0; lia).
  destruct (Addr_Write_body_written bnd w1) as [H2 [S2 E2]].
  destruct (Addr_Write_body bnd RawConn RawConn_Writer w1) as [e2 w2].
  cbn [fst snd the_bufWriter] in *.
  destruct e2 as [e|].
  - exists (bw_wr w2). cbn [fst snd]. split; [reflexivity|].
    split; [eauto using written_trans | exact E2].
  - destruct (bufio_Flush_written w2) as [H3 S3].
    destruct (bufio_Flush w2) as [e3 w3]. cbn [snd] in H3, S3.
    exists (bw_wr w3).
    destruct e3; cbn [fst snd]; (split; [reflexivity|]);
      (split; [eauto using written_trans | reflexivity]).
Qed.

Lemma Conn_WriteMessage_Reply_written (c c' : Conn) (r : Reply) (e : option error) :
  Conn_WriteMessage ctxBackground c r = (e, c') ->
  written (raw c) (raw c') /\ alive c' = alive c
  /\ CloseOnContextDone c' = CloseOnContextDone c /\ IsSOCKSError e = false.
Proof.
  unfold Conn_WriteMessage, Conn_processMessage.
  cbn [ctx_Err ctxBackground Message_Write Reply_Message].
  destruct (Reply_Write_written r (raw c)) as (rc' & Hw & Hx & He).
  destruct (Reply_Write r (PlainW (raw c))) as [e1 wr]. cbn [fst snd] in *. subst wr.
  cbn [the_plainW]. intros [= <- <-]. cbn [raw alive CloseOnContextDone]. auto.
Qed.

(** ** Failure replies *)

Lemma failReply_wire_encodes (r : repType) :
  encode (MReply (mkReply r (Some NilAddr))) = (None, failReply_wire r).
Proof. reflexivity. Qed.

Lemma sendFailReply_open (r : repType) (al cd : bool) (i o : list byte) :
  Server_sendFailReply ctxBackground (mkConn al (mkRawConn i o false) cd) r
  = mkConn al (mkRawConn i (o ++ failReply_wire r) false) cd.
Proof. reflexivity. Qed.

(** The tail of [handle] on a SOCKS error of a handler. *)
Lemma fail_and_close (c1 c2 : Conn) (r : repType) :
  written (raw c1) (raw c2) -> rc_closed (raw c1) = false ->
  CloseOnContextDone c2 = CloseOnContextDone c1 ->
  exists before : list byte,
    snd (Conn_Close (Server_sendFailReply ctxBackground c2 r)) = failed_client c1 before r.
Proof.
  intros (Hi & Hc & s & Ho) Hopen Hcd.
  destruct c2 as [al2 [i2 o2 cl2] cd2]. cbn [raw rc_in rc_out rc_closed CloseOnContextDone] in *.
  rewrite Hopen in Hc. subst. exists s.
  rewrite sendFailReply_open. unfold failed_client. cbn [raw rc_in rc_out CloseOnContextDone].
  rewrite <- app_assoc. reflexivity.
Qed.

Lemma not_SOCKS (e : option error) (code : repType) (cause : error) :
  IsSOCKSError e = false -> e <> Some (ErrSOCKS code cause).
Proof. intros H ->. discriminate. Qed.

(** C6, as the code has it.  The request has been read, under a context
    that is not done, and the client connection is open.  Then (1) when the
    upstream dial of a CONNECT fails, [handle] returns a SOCKS error with the
    code 0x04 (host unreachable); and (2) whenever [handle] returns a SOCKS
    error with a code [code], the last bytes written to the client are the
    failure reply [Reply{code, NilAddr}] (after the success reply a BIND may
    have sent before), and the client is closed. *)
Theorem handle_failure_reply :
  forall (srv : Server) (env : Env) (tctx : Context) (client client1 : Conn) (req : Request),
    ctx_Err (if Server_timeoutEnabled srv then tctx else ctxBackground) = None ->
    Conn_ReadMessage (if Server_timeoutEnabled srv then tctx else ctxBackground)
      client (mkRequest zero None) = ((None, req), client1) ->
    rc_closed (raw client1) = false ->
    (forall e : error,
        Cmd req = CmdConnect -> Dialer srv "tcp" (Dst_String req) = inl e ->
        Server_handle srv env tctx client
        = ((None, Some (ErrSOCKS RepHostUnreachable (ErrorContext RepHostUnreachable))),
           failed_client client1 [] RepHostUnreachable, env_rand env))
    /\ (forall (cn : option conn) (code : repType) (cause : error) (client' : Conn)
               (rnd : list nat),
           Server_handle srv env tctx client = ((cn, Some (ErrSOCKS code cause)), client', rnd) ->
           (exists before : list byte, client' = failed_client client1 before code)
           /\ encode (MReply (mkReply code (Some NilAddr))) = (None, failReply_wire code)
           /\ (Cmd req = CmdConnect -> code = RepHostUnreachable)).
Proof.
  intros srv env tctx client client1 req Hlive Hread Hopen.
  unfold Server_handle.
  destruct (if Server_timeoutEnabled srv then tctx else ctxBackground) as [[e0|]];
    [discriminate|].
  change (mkContext None) with ctxBackground in *.
  rewrite Hread. clear Hread.
  split.
  - intros e HC HD. rewrite HC. change (Ascii.eqb CmdConnect CmdConnect) with true. cbv iota.
    unfold Server_handleCONNECT. rewrite HD.
    cbn [makeErrorContext errorContext_Code].
    change (error_of_Error (SOCKSError RepHostUnreachable (ErrorContext RepHostUnreachable)))
      with (ErrSOCKS RepHostUnreachable (ErrorContext RepHostUnreachable)).
    cbn [IsSOCKSError].
    destruct (fail_and_close client1 client1 RepHostUnreachable (written_refl _) Hopen eq_refl)
      as [s Hs].
    destruct client1 as [al [i o cl] cd]. cbn [raw rc_closed] in Hopen. subst cl.
    reflexivity.
  - intros cn code cause client' rnd.
    assert (Hfail : forall (c2 : Conn) (r : repType) (rnd0 : list nat),
               written (raw client1) (raw c2) ->
               CloseOnContextDone c2 = CloseOnContextDone client1 ->
               (let '(_, cl) := Conn_Close (Server_sendFailReply ctxBackground c2 r) in
                ((@None conn, Some (ErrSOCKS r (ErrorContext r))), cl, rnd0))
               = ((cn, Some (ErrSOCKS code cause)), client', rnd) ->
               (exists before : list byte, client' = failed_client client1 before code)
               /\ code = r).
    { intros c2 r rnd0 Hw Hcd.
      destruct (fail_and_close client1 c2 r Hw Hopen Hcd) as [s Hs].
      destruct (Conn_Close (Server_sendFailReply ctxBackground c2 r)) as [ce cl].
      cbn [snd] in Hs. subst cl. intros [= <- <- <- <-]. split; [exists s|]; reflexivity. }
    destruct (Ascii.eqb (Cmd req) CmdConnect) eqn:EC;
      [|destruct (Ascii.eqb (Cmd req) CmdBind) eqn:EB;
        [|destruct (Ascii.eqb (Cmd req) CmdUDP) eqn:EU]].
    + (* CONNECT *)
      unfold Server_handleCONNECT.
      destruct (Dialer srv "tcp" (Dst_String req)) as [e|server].
      * cbn [makeErrorContext errorContext_Code].
        change (error_of_Error (SOCKSError RepHostUnreachable (ErrorContext RepHostUnreachable)))
          with (ErrSOCKS RepHostUnreachable (ErrorContext RepHostUnreachable)).
        cbn [IsSOCKSError]. intros H.
        apply Hfail in H; [|apply written_refl|reflexivity]. destruct H as [Hs ->].
        split; [exact Hs|]. split; [reflexivity|]. reflexivity.
      * destruct (Conn_WriteMessage ctxBackground client1
                    (mkReply RepSucceeded (ParseNetAddr (nc_LocalAddr server)))) as [we c2] eqn:EW.
        apply Conn_WriteMessage_Reply_written in EW as (_ & _ & _ & He).
        destruct we as [e|]; [rewrite He|cbn [IsSOCKSError]]; intros H; inversion H; subst;
          discriminate.
    + (* BIND *)
      unfold Server_handleBIND.
      destruct (Server_listen env (env_rand env) "tcp" (extractPort (Dst_String req)) true)
        as [[e|listener] rnd1].
      * cbn [makeErrorContext errorContext_Code].
        change (error_of_Error (SOCKSError RepServerFailure (ErrorContext RepServerFailure)))
          with (ErrSOCKS RepServerFailure (ErrorContext RepServerFailure)).
        cbn [IsSOCKSError]. intros H.
        apply Hfail in H; [|apply written_refl|reflexivity]. destruct H as [Hs ->].
        split; [exact Hs|]. split; [reflexivity|].
        intros HC. rewrite HC in EC. discriminate.
      * destruct (Conn_WriteMessage ctxBackground client1
                    (mkReply RepSucceeded (ParseNetAddr (nc_LocalAddr listener)))) as [we c2] eqn:EW.
        apply Conn_WriteMessage_Reply_written in EW as (Hw & _ & Hcd & He).
        destruct we as [e|].
        { rewrite He. intros H. inversion H; subst. discriminate. }
        destruct (env_accept env listener) as [e|server].
        -- cbn [makeErrorContext errorContext_Code].
           change (error_of_Error (SOCKSError RepServerFailure (ErrorContext RepServerFailure)))
             with (ErrSOCKS RepServerFailure (ErrorContext RepServerFailure)).
           cbn [IsSOCKSError]. intros H.
           apply Hfail in H; [|exact Hw|exact Hcd]. destruct H as [Hs ->].
           split; [exact Hs|]. split; [reflexivity|].
           intros HC. rewrite HC in EC. discriminate.
        -- cbn [Rep].
           destruct (Conn_WriteMessage ctxBackground c2
                       (mkReply RepSucceeded (ParseNetAddr (nc_RemoteAddr server))))
             as [we c3] eqn:EW2.
           apply Conn_WriteMessage_Reply_written in EW2 as (_ & _ & _ & He2).
           rewrite He2. intros H. inversion H; subst. discriminate.
    + (* UDP ASSOCIATE *)
      unfold Server_handleUDP.
      destruct (Server_listen env (env_rand env) "udp" (Dst_String req) true)
        as [[e|outcome] rnd1].
      * cbn [makeErrorContext errorContext_Code].
        change (error_of_Error (SOCKSError RepServerFailure (ErrorContext RepServerFailure)))
          with (ErrSOCKS RepServerFailure (ErrorContext RepServerFailure)).
        cbn [IsSOCKSError]. intros H.
        apply Hfail in H; [|apply written_refl|reflexivity]. destruct H as [Hs ->].
        split; [exact Hs|]. split; [reflexivity|].
        intros HC. rewrite HC in EC. discriminate.
      * destruct (randomAddress rnd1) as [a rnd2].
        destruct (Server_listen env rnd2 "udp" a false) as [[e|income] rnd3].
        -- cbn [makeErrorContext errorContext_Code].
           change (error_of_Error (SOCKSError RepServerFailure (ErrorContext RepServerFailure)))
             with (ErrSOCKS RepServerFailure (ErrorContext RepServerFailure)).
           cbn [IsSOCKSError]. intros H.
           apply Hfail in H; [|apply written_refl|reflexivity]. destruct H as [Hs ->].
           split; [exact Hs|]. split; [reflexivity|].
           intros HC. rewrite HC in EC. discriminate.
        -- destruct (Conn_WriteMessage ctxBackground client1
                       (mkReply RepSucceeded (ParseNetAddr (nc_LocalAddr outcome))))
             as [we c2] eqn:EW.
           apply Conn_WriteMessage_Reply_written in EW as (_ & _ & _ & He).
           destruct we as [e|]; [rewrite He|cbn [IsSOCKSError]]; intros H; inversion H; subst;
             discriminate.
    + cbn [IsSOCKSError]. intros H. inversion H.
Qed.

(** A CONNECT whose upstream cannot be reached. *)
Lemma handle_failure_reply_witness :
  let srv := mkServer "" 0 NoAuth (fun _ _ => inl (ErrNet "no route to host")) 0 ctxBackground in
  let env := mkEnv (fun _ _ => inl (ErrNet "in use")) (fun _ => inl (ErrNet "closed")) [] in
  let request := map byte_of_nat [5; 1; 0; 1; 240; 0; 0; 1; 0; 1] in
  Server_handle srv env ctxBackground (NewConn (incoming request))
  = ((None, Some (ErrSOCKS RepHostUnreachable (ErrorContext RepHostUnreachable))),
     mkConn false (mkRawConn [] (map byte_of_nat [5; 4; 0; 1; 0; 0; 0; 0; 0; 0]) true) true,
     []).
Proof.
  cbv zeta.
  destruct (handle_failure_reply
              (mkServer "" 0 NoAuth (fun _ _ => inl (ErrNet "no route to host")) 0 ctxBackground)
              (mkEnv (fun _ _ => inl (ErrNet "in use")) (fun _ => inl (ErrNet "closed")) [])
              ctxBackground
              (NewConn (incoming (map byte_of_nat [5; 1; 0; 1; 240; 0; 0; 1; 0; 1])))
              (NewConn fresh)
              (mkRequest CmdConnect (Some (mkAddr "tcp" AddrIPV4 "240.0.0.1" 1)))
              eq_refl eq_refl eq_refl) as [Hdial _].
  exact (Hdial (ErrNet "no route to host") eq_refl eq_refl).
Defined.

(** A request with the version byte 0x04: [handle] fails, with an error that
    carries no reply code; nothing is written to the client, which stays
    open. *)
Lemma handle_wrong_version_no_reply :
  let srv := mkServer "" 0 NoAuth (fun _ _ => inl (ErrNet "no route to host")) 0 ctxBackground in
  let env := mkEnv (fun _ _ => inl (ErrNet "in use")) (fun _ => inl (ErrNet "closed")) [] in
  let request := map byte_of_nat [4; 1; 0; 1; 192; 0; 2; 7; 0; 80] in
  Server_handle srv env ctxBackground (NewConn (incoming request))
  = ((None, Some (ErrNew ErrProtocol "invalid protocol version (%v)")),
     mkConn true (mkRawConn (map byte_of_nat [1; 192; 0; 2; 7; 0; 80]) [] false) true,
     []).
Proof. vm_compute. reflexivity. Qed.

(** ** Closing a UDP association *)







(** ** The classification of a host *)

Lemma parseAtyp_IPv4_literal (h : string) (b : list byte) :
  IPv4_literal h b -> parseAtyp h = AddrIPV4.
Proof.
  unfold IPv4_literal. intros Hp.
  pose proof (netip_ParseAddr_length h) as Hl. rewrite Hp in Hl.
  unfold parseAtyp, ParseIP. rewrite Hp. unfold As16.
  do 5 (destruct b as [|? b]; try discriminate).
  reflexivity.
Qed.

Lemma parseAtyp_IPv6_literal (h : string) (b : list byte) :
  IPv6_literal h b -> parseAtyp h = if v4InV6 b then AddrIPV4 else AddrIPv6.
Proof.
  unfold IPv6_literal. intros Hp.
  pose proof (netip_ParseAddr_length h) as Hl. rewrite Hp in Hl.
  unfold parseAtyp, ParseIP. rewrite Hp. unfold As16, To4, To16. rewrite Hl.
  cbn [Nat.eqb andb].
  destruct (v4InV6 b).
  - assert (H4 : length (firstn 4 (skipn 12 b)) = 4)
      by (rewrite length_firstn, length_skipn; lia).
    destruct (firstn 4 (skipn 12 b)); [discriminate | reflexivity].
  - destruct b; [discriminate | reflexivity].
Qed.

Lemma parseAtyp_no_literal (h : string) :
  (forall b, ~ IPv4_literal h b) -> (forall b, ~ IPv6_literal h b) ->
  parseAtyp h = AddrDomain.
Proof.
  unfold IPv4_literal, IPv6_literal. intros H4 H6.
  unfold parseAtyp, ParseIP.
  destruct (netip_ParseAddr h) as [[b|b z]|]; [| |reflexivity].
  - exfalso. apply (H4 b). reflexivity.
  - destruct z; [|reflexivity]. exfalso. apply (H6 b). reflexivity.
Qed.

(** C9, as the code has it.  The classification follows [IP.To4]: a host is
    AddrIPV4 when it is an IPv4 literal, and also when it is an IPv6 literal
    of an IPv4-mapped address; it is AddrIPv6 when it is any other IPv6
    literal, and AddrDomain when it is neither (an IPv6 literal with a zone
    included).  An empty host is rewritten to "0.0.0.0" by [ParseAddr] and
    classifies as IPv4. *)
Theorem parseAtyp_classifies :
  forall h : string,
    (forall b, IPv4_literal h b -> parseAtyp h = AddrIPV4)
    /\ (forall b, IPv6_literal h b ->
                  parseAtyp h = if v4InV6 b then AddrIPV4 else AddrIPv6)
    /\ ((forall b, ~ IPv4_literal h b) -> (forall b, ~ IPv6_literal h b) ->
        parseAtyp h = AddrDomain)
    /\ (forall (nw port : string) (p : N),
           SplitHostPort h = Some ("", port) -> ParseUint16 port = Some p ->
           ParseAddr nw h = Some (mkAddr nw AddrIPV4 "0.0.0.0" p)).
Proof.
  intros h. split; [|split; [|split]].
  - apply parseAtyp_IPv4_literal.
  - apply parseAtyp_IPv6_literal.
  - apply parseAtyp_no_literal.
  - intros nw port p Hs Hp. unfold ParseAddr. rewrite Hs.
    change (String.eqb "" "") with true. cbv iota. rewrite Hp. reflexivity.
Qed.

Lemma parseAtyp_classifies_witness :
  parseAtyp "192.0.2.7" = AddrIPV4
  /\ parseAtyp "2001:db8::1" = AddrIPv6
  /\ parseAtyp "::ffff:c000:207" = AddrIPV4
  /\ ParseAddr "tcp" ":1080" = Some (mkAddr "tcp" AddrIPV4 "0.0.0.0" 1080).
Proof.
  split; [|split; [|split]].
  - destruct (parseAtyp_classifies "192.0.2.7") as [H _].
    exact (H (map byte_of_nat [192; 0; 2; 7]) eq_refl).
  - destruct (parseAtyp_classifies "2001:db8::1") as [_ [H _]].
    exact (H (map byte_of_nat [32; 1; 13; 184; 0; 0; 0; 0; 0; 0; 0; 0; 0; 0; 0; 1]) eq_refl).
  - destruct (parseAtyp_classifies "::ffff:c000:207") as [_ [H _]].
    exact (H (map byte_of_nat [0; 0; 0; 0; 0; 0; 0; 0; 0; 0; 255; 255; 192; 0; 2; 7]) eq_refl).
  - destruct (parseAtyp_classifies ":1080") as [_ [_ [_ H]]].
    exact (H "tcp" "1080" 1080%N eq_refl eq_refl).
Defined.

(** An IPv6 literal that classifies as IPv4. *)
Lemma parseAtyp_IPv4_mapped :
  IPv6_literal "::ffff:192.0.2.7"
    (map byte_of_nat [0; 0; 0; 0; 0; 0; 0; 0; 0; 0; 255; 255; 192; 0; 2; 7])
  /\ parseAtyp "::ffff:192.0.2.7" = AddrIPV4
  /\ AddrIPV4 <> AddrIPv6.
Proof. split; [reflexivity|]. split; [reflexivity|]. discriminate. Qed.

(** ** Unknown address types *)

(** X3.  [Addr.Read] rejects every address type other than IPv4, DOMAIN and
    IPv6 with a SOCKS error that carries REP = 0x08 (address type not
    supported), having consumed the ATYP byte only. *)
Lemma Addr_Read_unknown_atyp (a0 : Addr) (nw : string) (atyp : byte) (rest o : list byte) :
  atyp <> AddrIPV4 -> atyp <> AddrDomain -> atyp <> AddrIPv6 ->
  Addr_Read a0 nw (PlainR (mkRawConn (atyp :: rest) o false))
  = ((Some (ErrSOCKS RepAddrNotSupported (ErrNew ErrProtocol "unknown address type (%v)")),
      mkAddr nw atyp (Host a0) (Port a0)),
     PlainR (mkRawConn rest o false)).
Proof.
  intros H4 Hd H6. apply Ascii.eqb_neq in H4, Hd, H6.
  unfold Addr_Read. cbn [NewReader ioReader_after].
  change (firstn 1 (make 2)) with [zero].
  erewrite (ErrReader_Read_RawConn [atyp]); [| reflexivity | reflexivity].
  cbn [ErrReader_Error err app skipn make repeat at_ nth network Atyp Host Port].
  rewrite H4, Hd, H6. reflexivity.
Qed.

Lemma Addr_Read_unknown_atyp_witness :
  Addr_Read new_Addr "tcp" (PlainR (incoming (map byte_of_nat [5; 0; 80])))
  = ((Some (ErrSOCKS RepAddrNotSupported (ErrNew ErrProtocol "unknown address type (%v)")),
      mkAddr "tcp" (byte_of_nat 5) "" 0),
     PlainR (incoming (map byte_of_nat [0; 80]))).
Proof.
  apply (Addr_Read_unknown_atyp new_Addr "tcp" (byte_of_nat 5) (map byte_of_nat [0; 80]) []);
    discriminate.
Defined.

Lemma Request_Read_unknown_cmd_witness :
  Request_Read (mkRequest zero None)
    (PlainR (incoming (map byte_of_nat [5; 9; 0; 1; 192; 0; 2; 7; 0; 80])))
  = ((Some (ErrSOCKS RepCmdNotSupported (ErrNew ErrProtocol "unknown command (%v)")),
      mkRequest (byte_of_nat 9) None),
     PlainR (incoming (map byte_of_nat [1; 192; 0; 2; 7; 0; 80]))).
Proof.
  apply (Request_Read_unknown_cmd (mkRequest zero None) (byte_of_nat 9) (byte_of_nat 0)
           (map byte_of_nat [1; 192; 0; 2; 7; 0; 80]) []).
  vm_compute. lia.
Defined.

Lemma negotiator_Reply_selects_witness :
  negotiator_Reply ctxBackground
    (NewConn (incoming (NegotiationRequest_wire [MethodNotRequired; MethodPassword])))
    MethodPassword
  = (None, NewConn (mkRawConn [] [Version; MethodPassword] false))
  /\ negotiator_Reply ctxBackground
       (NewConn (incoming (NegotiationRequest_wire [MethodNotRequired])))
       MethodPassword
     = (Some (ErrNew ErrProtocol "authentication method (%v) is not supported by the client"),
        NewConn (mkRawConn [] [Version; MethodNoAcceptable] false)).
Proof.
  split.
  - pose proof (negotiator_Reply_selects MethodPassword [MethodNotRequired; MethodPassword]
                  [] [] true true ltac:(vm_compute; lia)) as H.
    exact H.
  - pose proof (negotiator_Reply_selects MethodPassword [MethodNotRequired]
                  [] [] true true ltac:(vm_compute; lia)) as H.
    exact H.
Defined.

(** ** Addresses whose type fits their host *)

Lemma consistent_Addr_cases (a : Addr) :
  consistent_Addr a = true ->
  Atyp a = AddrDomain
  \/ ((Atyp a = AddrIPV4 \/ Atyp a = AddrIPv6)
      /\ is_nil (ParseIP (Host a)) = false
      /\ length (ipBytes (ParseIP (Host a))) = ipLength (Atyp a)).
Proof.
  unfold consistent_Addr. intros H.
  destruct (Ascii.eqb (Atyp a) AddrDomain) eqn:Ed.
  { left. apply Ascii.eqb_eq. exact Ed. }
  right. cbn [orb] in H. apply Ascii.eqb_eq in H.
  remember (ParseIP (Host a)) as ip eqn:Eip.
  assert (Hl : ip = [] \/ length ip = 16) by (subst ip; apply ParseIP_length).
  unfold parseAtyp in H. rewrite <- Eip in H.
  destruct (is_nil (To4 ip)) eqn:E4; cbn [negb] in H.
  - destruct (is_nil (To16 ip)) eqn:E16; cbn [negb] in H.
    { rewrite <- H in Ed. discriminate. }
    destruct Hl as [->|Hl]; [discriminate|].
    split; [right; symmetry; exact H|].
    split; [destruct ip; [discriminate|reflexivity]|].
    unfold ipBytes. rewrite E4, E16. cbn [negb]. rewrite <- H. exact Hl.
  - destruct Hl as [->|Hl]; [discriminate|].
    destruct (To4_nonnil ip Hl E4) as [_ Hl4].
    split; [left; symmetry; exact H|].
    split; [destruct ip; [discriminate|reflexivity]|].
    unfold ipBytes. rewrite E4. cbn [negb]. rewrite <- H. exact Hl4.
Qed.

Lemma valid_Addr_consistent (a : Addr) : valid_Addr a = true -> consistent_Addr a = true.
Proof.
  unfold valid_Addr, consistent_Addr. intros H.
  apply andb_true_iff in H as [_ H].
  destruct (Ascii.eqb (Atyp a) AddrDomain); [reflexivity|].
  apply andb_true_iff in H as [H _]. apply andb_true_iff in H as [_ H]. exact H.
Qed.

Lemma ParseAddr_consistent (nw s : string) (a : Addr) :
  ParseAddr nw s = Some a -> consistent_Addr a = true.
Proof.
  unfold ParseAddr.
  destruct (SplitHostPort s) as [[host port]|]; [|discriminate].
  destruct (ParseUint16 port) as [n|]; [|discriminate].
  intros [= <-]. unfold consistent_Addr. cbn [Atyp Host].
  rewrite Ascii.eqb_refl. apply orb_true_r.
Qed.

Lemma consistent_Addr_wire_length (a : Addr) :
  consistent_Addr a = true -> length (Addr_wire a) = Addr_Len a.
Proof.
  intros Hc. destruct (consistent_Addr_cases a Hc) as [Hd|[Ht [_ Hl]]];
    unfold Addr_wire, Addr_Len.
  - rewrite Hd. change (Ascii.eqb AddrDomain AddrDomain) with true.
    cbn [length app]. rewrite length_app, length_list_ascii_of_string. simpl. lia.
  - assert (Hnd : Ascii.eqb (Atyp a) AddrDomain = false)
      by (destruct Ht as [-> | ->]; reflexivity).
    rewrite Hnd. cbn [length]. rewrite length_app, Hl. simpl. lia.
Qed.

(** The body of [Addr.Write] on a buffered writer with room for [a.Len()]
    bytes: the wire form is appended to the buffer and nothing is flushed. *)
Lemma Addr_Write_body_wire (U : Type) (HU : Writer U) (a : Addr) (w : bufWriter U) :
  consistent_Addr a = true -> bw_err w = None ->
  length (bw_buf w) + Addr_Len a <= bw_size w ->
  Addr_Write_body a U HU w
  = (None, mkBufWriter None (bw_buf w ++ Addr_wire a) (bw_size w) (bw_wr w)).
Proof.
  intros Hc He Hfit.
  pose proof (consistent_Addr_wire_length a Hc) as Hwl.
  destruct (consistent_Addr_cases a Hc) as [Hd|[Ht [Hnn Hl]]];
    unfold Addr_Write_body, Addr_wire in *.
  - rewrite Hd in *. change (Ascii.eqb AddrDomain AddrIPV4) with false.
    change (Ascii.eqb AddrDomain AddrIPv6) with false.
    change (Ascii.eqb AddrDomain AddrDomain) with true in *.
    cbn [orb length app] in *.
    rewrite length_app, length_list_ascii_of_string, PutUint16_length in Hwl.
    rewrite bufio_WriteByte_fits by fits.
    rewrite bufio_WriteByte_fits by fits.
    rewrite bufio_WriteString_fits by fits.
    cbn [snd bw_err bw_buf bw_size bw_wr].
    rewrite bufio_Write_fits by fits.
    cbn [bw_err bw_buf bw_size bw_wr].
    rewrite <- !app_assoc. reflexivity.
  - assert (Hnd : Ascii.eqb (Atyp a) AddrDomain = false)
      by (destruct Ht as [-> | ->]; reflexivity).
    assert (Hip : Ascii.eqb (Atyp a) AddrIPV4 || Ascii.eqb (Atyp a) AddrIPv6 = true)
      by (destruct Ht as [-> | ->]; reflexivity).
    rewrite Hnd in *. rewrite Hip, Hnn.
    cbn [length] in Hwl. rewrite length_app, PutUint16_length in Hwl.
    rewrite bufio_WriteByte_fits by fits.
    rewrite (bufio_Write_fits _ (ipBytes _)) by fits.
    cbn [snd bw_err bw_buf bw_size bw_wr].
    rewrite bufio_Write_fits by fits.
    cbn [bw_err bw_buf bw_size bw_wr].
    rewrite <- !app_assoc. reflexivity.
Qed.

Lemma Addr_Write_BufW_wire (U : Type) (HU : Writer U) (a : Addr) (w : bufWriter U) :
  consistent_Addr a = true -> bw_err w = None ->
  length (bw_buf w) + Addr_Len a <= bw_size w ->
  Addr_Write a (BufW w)
  = (None, BufW (mkBufWriter None (bw_buf w ++ Addr_wire a) (bw_size w) (bw_wr w))).
Proof.
  intros Hv He Hfit. unfold Addr_Write, with_NewWriterSize.
  replace (Addr_Len a <=? bw_size w) with true by (symmetry; apply Nat.leb_le; lia).
  rewrite Addr_Write_body_wire by assumption. reflexivity.
Qed.

Lemma Addr_Len_pos (a : Addr) : exists n, Addr_Len a = S n.
Proof.
  unfold Addr_Len. destruct (Ascii.eqb (Atyp a) AddrDomain); eexists; reflexivity.
Qed.

(** X4.  [Addr.Write] on a writer that is not a [*bufio.Writer] sends
    nothing: the buffered writer it allocates has room for the whole
    address, nothing flushes it, and it is dropped when [Write] returns nil. *)
Lemma Addr_Write_unbuffered (W : Type) (HW : Writer W) (a : Addr) (w : W) :
  consistent_Addr a = true ->
  Addr_Write a (PlainW w) = (None, PlainW w).
Proof.
  intros Hc. unfold Addr_Write, with_NewWriterSize, bufio_new.
  destruct (Addr_Len_pos a) as [n Hn].
  rewrite Addr_Write_body_wire; [reflexivity | exact Hc | reflexivity |].
  cbn [bw_buf bw_size length]. rewrite Hn. cbn [Nat.leb]. lia.
Qed.

Lemma Addr_Write_unbuffered_witness :
  Addr_Write (mkAddr "tcp" AddrDomain "example.org" 443) (PlainW fresh) = (None, PlainW fresh).
Proof.
  apply (Addr_Write_unbuffered RawConn _ (mkAddr "tcp" AddrDomain "example.org" 443) fresh).
  reflexivity.
Defined.

(** ** One [Write] per message *)

Lemma bufio_Flush_once (W : Type) (HW : Writer W) (buf : list byte) (size : nat) (w : W) :
  buf <> [] ->
  fst (bufio_Flush (mkBufWriter None buf size w)) = fst (one_Write w buf)
  /\ bw_wr (snd (bufio_Flush (mkBufWriter None buf size w))) = snd (one_Write w buf).
Proof.
  intros Hne. unfold bufio_Flush, one_Write. cbn [bw_err bw_buf bw_wr bw_size].
  destruct buf as [|x buf]; [contradiction|].
  destruct (io_Write w (x :: buf)) as [[n e] w'].
  destruct e as [e'|]; [split; reflexivity|].
  destruct (n <? length (x :: buf)); split; reflexivity.
Qed.

(** What the encoders with a buffered writer of their own come to, once the
    buffer holds the non-empty [bs] and nothing was sent yet. *)
Lemma flush_and_wrap (W : Type) (HW : Writer W) (bs : list byte) (size : nat) (w : W)
  (msg : string) :
  bs <> [] ->
  (let '(x, b) :=
     let '(err, w0) := bufio_Flush (mkBufWriter None bs size w) in
     match err with
     | Some e => (Some (ErrWrap ErrProtocol e msg), w0)
     | None => (None, w0)
     end in
   (x, PlainW (bw_wr b)))
  = wrapped msg (one_Write w bs).
Proof.
  intros Hne. destruct (bufio_Flush_once W HW bs size w Hne) as [H1 H2].
  unfold wrapped. rewrite <- H1, <- H2.
  destruct (bufio_Flush (mkBufWriter None bs size w)) as [[e|] w0]; reflexivity.
Qed.

Lemma Request_Write_wire (W : Type) (HW : Writer W) (w : W) (c : byte) (a : Addr) :
  consistent_Addr a = true ->
  Request_Write (mkRequest c (Some a)) (PlainW w)
  = wrapped "unable to write the request" (one_Write w ([Version; c; zero] ++ Addr_wire a)).
Proof.
  intros Hc. destruct (Addr_Len_pos a) as [n Hn].
  unfold Request_Write, with_NewWriterSize, bufio_new.
  cbn [Dst Cmd Nat.add Nat.leb].
  rewrite bufio_Write_fits by (cbn [bw_err bw_buf bw_size length]; reflexivity || lia).
  cbn [bw_err bw_buf bw_size bw_wr app].
  rewrite Addr_Write_BufW_wire by (cbn [bw_err bw_buf bw_size length]; auto; lia).
  cbn [the_bufWriter bw_err bw_buf bw_size bw_wr].
  apply flush_and_wrap. discriminate.
Qed.

Lemma Reply_Write_wire (W : Type) (HW : Writer W) (w : W) (c : byte) (a : Addr) :
  consistent_Addr a = true ->
  Reply_Write (mkReply c (Some a)) (PlainW w)
  = wrapped "unable to write the reply" (one_Write w ([Version; c; zero] ++ Addr_wire a)).
Proof.
  intros Hc. destruct (Addr_Len_pos a) as [n Hn].
  unfold Reply_Write, with_NewWriterSize, bufio_new.
  cbn [Bnd Rep Nat.add Nat.leb].
  rewrite bufio_Write_fits by (cbn [bw_err bw_buf bw_size length]; reflexivity || lia).
  cbn [bw_err bw_buf bw_size bw_wr app].
  rewrite Addr_Write_BufW_wire by (cbn [bw_err bw_buf bw_size length]; auto; lia).
  cbn [the_bufWriter bw_err bw_buf bw_size bw_wr].
  apply flush_and_wrap. discriminate.
Qed.



Lemma UDPHeader_Write_wire (W : Type) (HW : Writer W) (w : W) (frag : byte) (a : Addr)
  (data : list byte) :
  consistent_Addr a = true ->
  UDPHeader_Write (mkUDPHeader frag (Some a) data) (PlainW w)
  = wrapped "unable to write the UDP header"
      (one_Write w ([zero; zero; frag] ++ Addr_wire a ++ data)).
Proof.
  intros Hc. destruct (Addr_Len_pos a) as [n Hn].
  unfold UDPHeader_Write, with_NewWriterSize, bufio_new.
  cbn [udp_Dst Frag Data Nat.add Nat.leb].
  rewrite bufio_Write_fits by (cbn [bw_err bw_buf bw_size length]; reflexivity || lia).
  cbn [bw_err bw_buf bw_size bw_wr app].
  rewrite Addr_Write_BufW_wire by (cbn [bw_err bw_buf bw_size length]; auto; lia).
  cbn [the_bufWriter bw_err bw_buf bw_size bw_wr].
  pose proof (consistent_Addr_wire_length a Hc) as Hwl.
  rewrite bufio_Write_fits
    by (cbn [bw_err bw_buf bw_size app length]; rewrite ?Hwl; reflexivity || lia).
  cbn [bw_err bw_buf bw_size bw_wr app].
  apply flush_and_wrap. discriminate.
Qed.



Lemma NegotiationRequest_Write_wire (W : Type) (HW : Writer W) (w : W)
  (ms : list authMethod) :
  NegotiationRequest_Write (mkNegotiationRequest ms) (PlainW w)
  = wrapped "unable to write the negotation request"
      (one_Write w ([Version; byte_of_nat (length ms)] ++ ms)).
Proof.
  unfold NegotiationRequest_Write, with_NewWriterSize, bufio_new, methods2Bytes.
  cbn [Methods Nat.add Nat.leb].
  rewrite bufio_Write_fits by (cbn [bw_err bw_buf bw_size length]; reflexivity || lia).
  cbn [bw_err bw_buf bw_size bw_wr app].
  rewrite map_id_bytes.
  rewrite bufio_Write_fits by (cbn [bw_err bw_buf bw_size length]; reflexivity || lia).
  cbn [bw_err bw_buf bw_size bw_wr app].
  apply flush_and_wrap. discriminate.
Qed.

Lemma PassRequest_Write_wire (W : Type) (HW : Writer W) (w : W) (un pw : list byte) :
  PassRequest_Write (mkPassRequest un pw) (PlainW w)
  = wrapped "unable to write the password authentication request"
      (one_Write w (PassRequest_wire un pw)).
Proof.
  unfold PassRequest_Write, with_NewWriterSize, bufio_new, PassRequest_wire.
  cbn [uname passwd Nat.add Nat.leb].
  rewrite bufio_WriteByte_fits by (cbn [bw_err bw_buf bw_size length]; reflexivity || lia).
  rewrite bufio_WriteByte_fits by (cbn [bw_err bw_buf bw_size length app]; reflexivity || lia).
  rewrite bufio_Write_fits
    by (cbn [bw_err bw_buf bw_size length app]; reflexivity || lia).
  rewrite bufio_WriteByte_fits
    by (cbn [bw_err bw_buf bw_size app]; rewrite ?length_app; cbn [length]; reflexivity || lia).
  rewrite bufio_Write_fits
    by (cbn [bw_err bw_buf bw_size app]; rewrite ?length_app; cbn [length];
        rewrite ?length_app; cbn [length]; reflexivity || lia).
  cbn [bw_err bw_buf bw_size bw_wr app]. rewrite <- !app_assoc. cbn [app].
  apply flush_and_wrap. discriminate.
Qed.

(** X7.  [NegotiationRequest.Write] and [PassRequest.Write] check no
    length: whatever the number of methods and the lengths of the user name
    and the password, the message goes out in a single [Write], with each
    length byte holding the length modulo 256 and followed by all the
    bytes. *)
Lemma Negotiation_Pass_Write_once (W : Type) (HW : Writer W) (w : W)
  (ms : list authMethod) (un pw : list byte) :
  NegotiationRequest_Write (mkNegotiationRequest ms) (PlainW w)
  = wrapped "unable to write the negotation request"
      (one_Write w ([Version; byte_of_nat (length ms)] ++ ms))
  /\ PassRequest_Write (mkPassRequest un pw) (PlainW w)
     = wrapped "unable to write the password authentication request"
         (one_Write w ([subnegotiationVersion; byte_of_nat (length un)] ++ un
                         ++ [byte_of_nat (length pw)] ++ pw)).
Proof.
  split; [apply NegotiationRequest_Write_wire | apply PassRequest_Write_wire].
Qed.

(** X8.  An IPv4 or IPv6 address whose host is not an IP literal cannot be
    written: [Request.Write] and [Reply.Write] return the error of
    [Addr.Write] as it is, [UDPHeader.Write] wraps it, and none of them
    sends a byte, the three header bytes already buffered being dropped. *)
Lemma Write_invalid_ip (W : Type) (HW : Writer W) (w : W) (c : byte) (a : Addr)
  (data : list byte) :
  Atyp a = AddrIPV4 \/ Atyp a = AddrIPv6 ->
  ParseIP (Host a) = [] ->
  let e := ErrNew ErrProtocol "invalid ip address (host=%v, atyp = %v)" in
  Request_Write (mkRequest c (Some a)) (PlainW w) = (Some e, PlainW w)
  /\ Reply_Write (mkReply c (Some a)) (PlainW w) = (Some e, PlainW w)
  /\ UDPHeader_Write (mkUDPHeader c (Some a) data) (PlainW w)
     = (Some (ErrWrap ErrProtocol e "unable to write the UDP header"), PlainW w).
Proof.
  intros Ht Hnil e. destruct (Addr_Len_pos a) as [n Hn].
  assert (Hip : Ascii.eqb (Atyp a) AddrIPV4 || Ascii.eqb (Atyp a) AddrIPv6 = true)
    by (destruct Ht as [-> | ->]; reflexivity).
  assert (Hbody : forall (U : Type) (HU : Writer U) (u : U) (hd : list byte) (size : nat),
             length hd + Addr_Len a <= size ->
             Addr_Write a (BufW (mkBufWriter None hd size u))
             = (Some e, BufW (mkBufWriter None (hd ++ [Atyp a]) size u))).
  { intros U HU u hd size Hsz. unfold Addr_Write, with_NewWriterSize.
    cbn [bw_size].
    replace (Addr_Len a <=? size) with true by (symmetry; apply Nat.leb_le; lia).
    unfold Addr_Write_body.
    rewrite bufio_WriteByte_fits by (cbn [bw_err bw_buf bw_size]; reflexivity || lia).
    rewrite Hip, Hnil. reflexivity. }
  repeat split.
  - unfold Request_Write, with_NewWriterSize, bufio_new.
    cbn [Dst Cmd Nat.add Nat.leb].
    rewrite bufio_Write_fits by (cbn [bw_err bw_buf bw_size length]; reflexivity || lia).
    cbn [bw_err bw_buf bw_size bw_wr app].
    rewrite Hbody by (cbn [length]; lia). reflexivity.
  - unfold Reply_Write, with_NewWriterSize, bufio_new.
    cbn [Bnd Rep Nat.add Nat.leb].
    rewrite bufio_Write_fits by (cbn [bw_err bw_buf bw_size length]; reflexivity || lia).
    cbn [bw_err bw_buf bw_size bw_wr app].
    rewrite Hbody by (cbn [length]; lia). reflexivity.
  - unfold UDPHeader_Write, with_NewWriterSize, bufio_new.
    cbn [udp_Dst Frag Data Nat.add Nat.leb].
    rewrite bufio_Write_fits by (cbn [bw_err bw_buf bw_size length]; reflexivity || lia).
    cbn [bw_err bw_buf bw_size bw_wr app].
    rewrite Hbody by (cbn [length]; lia). reflexivity.
Qed.

Lemma Write_invalid_ip_witness :
  let a := mkAddr "tcp" AddrIPV4 "example.org" 80 in
  let e := ErrNew ErrProtocol "invalid ip address (host=%v, atyp = %v)" in
  Request_Write (mkRequest CmdConnect (Some a)) (PlainW fresh) = (Some e, PlainW fresh)
  /\ Reply_Write (mkReply CmdConnect (Some a)) (PlainW fresh) = (Some e, PlainW fresh)
  /\ UDPHeader_Write (mkUDPHeader CmdConnect (Some a) []) (PlainW fresh)
     = (Some (ErrWrap ErrProtocol e "unable to write the UDP header"), PlainW fresh).
Proof.
  apply (Write_invalid_ip RawConn _ fresh CmdConnect (mkAddr "tcp" AddrIPV4 "example.org" 80) []).
  - left. reflexivity.
  - reflexivity.
Defined.

(** ** What the decoders reject *)

(** X9.  [Reply.Read] rejects every reply code from 0x09 on with a
    protocol error, which is not a SOCKS error, having consumed the three
    bytes VER, REP and RSV only. *)
Lemma Reply_Read_unknown_rep (r0 : Reply) (rep rsv : byte) (rest o : list byte) :
  9 <= nat_of_byte rep ->
  Reply_Read r0 (PlainR (mkRawConn ([Version; rep; rsv] ++ rest) o false))
  = ((Some (ErrNew ErrProtocol "unknown reply code (%v)"), mkReply rep (Bnd r0)),
     PlainR (mkRawConn rest o false))
  /\ IsSOCKSError (fst (fst (Reply_Read r0
                               (PlainR (mkRawConn ([Version; rep; rsv] ++ rest) o false)))))
     = false.
Proof.
  intros Hc.
  assert (H : Reply_Read r0 (PlainR (mkRawConn ([Version; rep; rsv] ++ rest) o false))
              = ((Some (ErrNew ErrProtocol "unknown reply code (%v)"), mkReply rep (Bnd r0)),
                 PlainR (mkRawConn rest o false))).
  { unfold Reply_Read. cbn [NewReader ioReader_after].
    erewrite (ErrReader_Read_RawConn [Version; rep; rsv]); [| reflexivity | reflexivity].
    cbn [at_ nth]. change (isSOCKS5 Version) with true. cbn [negb Rep Bnd].
    unfold repType_Valid.
    replace (nat_of_byte rep <? 9) with false by (symmetry; apply Nat.ltb_ge; exact Hc).
    reflexivity. }
  rewrite H. split; reflexivity.
Qed.

Lemma Reply_Read_unknown_rep_witness :
  Reply_Read (mkReply zero None)
    (PlainR (incoming (map byte_of_nat [5; 9; 0; 1; 192; 0; 2; 7; 0; 80])))
  = ((Some (ErrNew ErrProtocol "unknown reply code (%v)"), mkReply (byte_of_nat 9) None),
     PlainR (incoming (map byte_of_nat [1; 192; 0; 2; 7; 0; 80])))
  /\ IsSOCKSError (fst (fst (Reply_Read (mkReply zero None)
       (PlainR (incoming (map byte_of_nat [5; 9; 0; 1; 192; 0; 2; 7; 0; 80])))))) = false.
Proof.
  apply (Reply_Read_unknown_rep (mkReply zero None) (byte_of_nat 9) (byte_of_nat 0)
           (map byte_of_nat [1; 192; 0; 2; 7; 0; 80]) []).
  vm_compute. lia.
Defined.

(** X10.  [PassRequest.Read] and [PassReply.Read] reject every
    subnegotiation version other than 0x01 with a protocol error, having
    consumed two bytes and left the message as it was. *)
Lemma Pass_Read_wrong_version (q0 : PassRequest) (p0 : PassReply) (v n : byte)
  (rest o : list byte) :
  v <> subnegotiationVersion ->
  PassRequest_Read q0 (PlainR (mkRawConn (v :: n :: rest) o false))
  = ((Some (ErrNew ErrProtocol "subnegotiation version is wrong (%v)"), q0),
     PlainR (mkRawConn rest o false))
  /\ PassReply_Read p0 (PlainR (mkRawConn (v :: n :: rest) o false))
     = ((Some (ErrNew ErrProtocol "subnegotiation version is wrong (%v)"), p0),
        PlainR (mkRawConn rest o false)).
Proof.
  intros Hv. apply Ascii.eqb_neq in Hv.
  split.
  - unfold PassRequest_Read. cbn [NewReader ioReader_after].
    erewrite (ErrReader_Read_RawConn [v; n]); [| reflexivity | reflexivity].
    cbn [at_ nth]. rewrite Hv. reflexivity.
  - unfold PassReply_Read. cbn [NewReader ioReader_after].
    erewrite (ErrReader_Read_RawConn [v; n]); [| reflexivity | reflexivity].
    cbn [at_ nth]. rewrite Hv. reflexivity.
Qed.

Lemma Pass_Read_wrong_version_witness :
  PassRequest_Read (mkPassRequest [] []) (PlainR (incoming (map byte_of_nat [5; 1; 0])))
  = ((Some (ErrNew ErrProtocol "subnegotiation version is wrong (%v)"), mkPassRequest [] []),
     PlainR (incoming (map byte_of_nat [0])))
  /\ PassReply_Read (mkPassReply zero) (PlainR (incoming (map byte_of_nat [5; 1; 0])))
     = ((Some (ErrNew ErrProtocol "subnegotiation version is wrong (%v)"), mkPassReply zero),
        PlainR (incoming (map byte_of_nat [0]))).
Proof.
  apply (Pass_Read_wrong_version (mkPassRequest [] []) (mkPassReply zero)
           (byte_of_nat 5) (byte_of_nat 1) (map byte_of_nat [0]) []).
  discriminate.
Defined.

(** ** What the decoders do not check *)

Lemma Request_Read_wire (r0 : Request) (cmd rsv : byte) (a : Addr) (rest o : list byte) :
  nat_of_byte cmd < 4 -> valid_Addr a = true ->
  Request_Read r0 (PlainR (mkRawConn ([Version; cmd; rsv] ++ Addr_wire a ++ rest) o false))
  = ((None, mkRequest cmd (Some (on_network (cmdType_Network cmd) a))),
     PlainR (mkRawConn rest o false)).
Proof.
  intros Hc Ha. unfold Request_Read. cbn [NewReader ioReader_after].
  erewrite (ErrReader_Read_RawConn [Version; cmd; rsv]); [| reflexivity | reflexivity].
  cbn [at_ nth]. change (isSOCKS5 Version) with true. cbn [negb Cmd Dst].
  unfold cmdType_Valid.
  replace (nat_of_byte cmd <? 4) with true by (symmetry; apply Nat.ltb_lt; exact Hc).
  cbn [negb].
  rewrite (Addr_Read_wire (fun d => mkRawConn d o false) (RawConn_holds_read o)
             new_Addr a (cmdType_Network cmd) rest Ha).
  reflexivity.
Qed.

Lemma Reply_Read_wire (r0 : Reply) (rep rsv : byte) (a : Addr) (rest o : list byte) :
  nat_of_byte rep < 9 -> valid_Addr a = true ->
  Reply_Read r0 (PlainR (mkRawConn ([Version; rep; rsv] ++ Addr_wire a ++ rest) o false))
  = ((None, mkReply rep (Some (on_network "" a))), PlainR (mkRawConn rest o false)).
Proof.
  intros Hc Ha. unfold Reply_Read. cbn [NewReader ioReader_after].
  erewrite (ErrReader_Read_RawConn [Version; rep; rsv]); [| reflexivity | reflexivity].
  cbn [at_ nth]. change (isSOCKS5 Version) with true. cbn [negb Rep Bnd].
  unfold repType_Valid.
  replace (nat_of_byte rep <? 9) with true by (symmetry; apply Nat.ltb_lt; exact Hc).
  cbn [negb].
  rewrite (Addr_Read_wire (fun d => mkRawConn d o false) (RawConn_holds_read o)
             new_Addr a "" rest Ha).
  reflexivity.
Qed.

(** X11.  Neither [Request.Read] nor [Reply.Read] looks at the reserved
    byte: with any RSV, a command below 0x04 (for a reply, a reply code
    below 0x09) and a valid address, the message is read without an error,
    and the bytes that follow it on the connection are left unread. *)
Lemma Read_ignores_RSV (q0 : Request) (p0 : Reply) (cmd rep rsv : byte) (a : Addr)
  (rest o : list byte) :
  nat_of_byte cmd < 4 -> nat_of_byte rep < 9 -> valid_Addr a = true ->
  Request_Read q0 (PlainR (mkRawConn ([Version; cmd; rsv] ++ Addr_wire a ++ rest) o false))
  = ((None, mkRequest cmd (Some (on_network (cmdType_Network cmd) a))),
     PlainR (mkRawConn rest o false))
  /\ Reply_Read p0 (PlainR (mkRawConn ([Version; rep; rsv] ++ Addr_wire a ++ rest) o false))
     = ((None, mkReply rep (Some (on_network "" a))), PlainR (mkRawConn rest o false)).
Proof.
  intros Hc Hr Ha. split.
  - apply Request_Read_wire; assumption.
  - apply Reply_Read_wire; assumption.
Qed.

Lemma Read_ignores_RSV_witness :
  let tl := Addr_wire NilAddr ++ [byte_of_nat 71] in
  Request_Read (mkRequest zero None)
    (PlainR (incoming ([Version; CmdConnect; byte_of_nat 255] ++ tl)))
  = ((None, mkRequest CmdConnect (Some NilAddr)), PlainR (incoming [byte_of_nat 71]))
  /\ Reply_Read (mkReply zero None)
       (PlainR (incoming ([Version; RepAddrNotSupported; byte_of_nat 255] ++ tl)))
     = ((None, mkReply RepAddrNotSupported (Some (on_network "" NilAddr))),
        PlainR (incoming [byte_of_nat 71])).
Proof.
  apply (Read_ignores_RSV (mkRequest zero None) (mkReply zero None) CmdConnect
           RepAddrNotSupported (byte_of_nat 255) NilAddr [byte_of_nat 71] []).
  - vm_compute. lia.
  - vm_compute. lia.
  - reflexivity.
Defined.

(** ** Short reads *)

Lemma skipn_make (k n : nat) : skipn k (make n) = make (n - k).
Proof.
  unfold make. revert k. induction n as [|n IH]; intros [|k]; cbn; auto.
Qed.

Lemma copy_short (p d : list byte) :
  length d <= length p -> copy p d = (d ++ skipn (length d) p, length d).
Proof.
  intros H. unfold copy.
  replace (Nat.min (length p) (length d)) with (length d) by lia.
  rewrite firstn_all. reflexivity.
Qed.

Lemma RawConn_Read_short (d o p : list byte) :
  d <> [] -> length d <= length p ->
  RawConn_Read (mkRawConn d o false) p
  = ((d ++ skipn (length d) p, length d, None), mkRawConn [] o false).
Proof.
  intros Hne H. unfold RawConn_Read. cbn [rc_closed rc_in rc_out].
  destruct p as [|x p].
  - destruct d; [contradiction | cbn in H; lia].
  - destruct d as [|y d]; [contradiction|].
    rewrite (copy_short (x :: p) (y :: d) H), skipn_all. reflexivity.
Qed.

Lemma bytesReader_Read_short (d p : list byte) :
  d <> [] -> length d <= length p ->
  io_Read (mkBytesReader d) p
  = ((d ++ skipn (length d) p, length d, None), mkBytesReader []).
Proof.
  intros Hne H. unfold io_Read, bytesReader_Reader. cbn [unread].
  destruct d as [|y d]; [contradiction|].
  rewrite (copy_short p (y :: d) H), skipn_all. reflexivity.
Qed.

Lemma isMethodSupported_app_r (m : authMethod) (l1 l2 : list authMethod) :
  isMethodSupported m l2 = true -> isMethodSupported m (l1 ++ l2) = true.
Proof.
  intros H. induction l1 as [|x l1 IH]; cbn [app isMethodSupported]; [exact H|].
  destruct (Ascii.eqb x m); [reflexivity | exact IH].
Qed.

(** X12.  A negotiation request that announces more methods than have
    arrived is not rejected: [NegotiationRequest.Read] takes what the one
    [Read] returns and leaves the other methods at 0x00, the code of "no
    authentication required".  A server configured with [NoAuth] therefore
    accepts such a request whatever methods it carries. *)
Lemma NegotiationRequest_Read_short (r0 : NegotiationRequest) (n : nat) (ms o : list byte)
  (al cd : bool) :
  ms <> [] -> length ms < n -> n <= 255 ->
  NegotiationRequest_Read r0 (PlainR (mkRawConn ([Version; byte_of_nat n] ++ ms) o false))
  = ((None, mkNegotiationRequest (ms ++ make (n - length ms))), PlainR (mkRawConn [] o false))
  /\ negotiator_Reply ctxBackground
       (mkConn al (mkRawConn ([Version; byte_of_nat n] ++ ms) o false) cd) MethodNotRequired
     = (None, mkConn al (mkRawConn [] (o ++ [Version; MethodNotRequired]) false) cd).
Proof.
  intros Hne Hlt Hn.
  assert (HR : forall r0,
             NegotiationRequest_Read r0
               (PlainR (mkRawConn ([Version; byte_of_nat n] ++ ms) o false))
             = ((None, mkNegotiationRequest (ms ++ make (n - length ms))),
                PlainR (mkRawConn [] o false))).
  { intros r. unfold NegotiationRequest_Read, bytes2Methods.
    cbn [NewReader ioReader_after].
    erewrite (ErrReader_Read_RawConn [Version; byte_of_nat n]); [| reflexivity | reflexivity].
    cbn [at_ nth]. change (isSOCKS5 Version) with true. cbn [negb].
    rewrite nat_of_byte_of_nat_small by exact Hn.
    unfold ErrReader_Read. cbn [err rd]. unfold io_Read, RawConn_Reader.
    rewrite RawConn_Read_short by (rewrite ?length_make; auto; lia).
    rewrite skipn_make, map_id_bytes. reflexivity. }
  split; [apply HR|].
  unfold negotiator_Reply, Conn_ReadMessage, Conn_WriteMessage, Conn_processMessage.
  cbn [ctx_Err ctxBackground raw alive CloseOnContextDone Message_Read Message_Write
         NegotiationRequest_Message NegotiationReply_Message].
  rewrite HR.
  cbn [the_plainR raw alive CloseOnContextDone Methods].
  rewrite isMethodSupported_app_r; [reflexivity|].
  destruct (n - length ms) as [|k] eqn:E; [lia|]. reflexivity.
Qed.

Lemma NegotiationRequest_Read_short_witness :
  let greeting := map byte_of_nat [5; 2; 2] in
  NegotiationRequest_Read (mkNegotiationRequest []) (PlainR (incoming greeting))
  = ((None, mkNegotiationRequest [MethodPassword; MethodNotRequired]), PlainR fresh)
  /\ negotiator_Reply ctxBackground (NewConn (incoming greeting)) MethodNotRequired
     = (None, NewConn (mkRawConn [] [Version; MethodNotRequired] false)).
Proof.
  apply (NegotiationRequest_Read_short (mkNegotiationRequest []) 2 [MethodPassword] []
           true true).
  - discriminate.
  - cbn. lia.
  - lia.
Defined.

Section ShortRead.
Context {R : Type} `{Reader R}.
Variable holds : list byte -> R.
Hypothesis holds_read :
  forall d rest p : list byte,
    length p = length d -> d ++ rest <> [] ->
    io_Read (holds (d ++ rest)) p = ((d, length d, None), holds rest).
Hypothesis holds_short :
  forall d p : list byte,
    d <> [] -> length d <= length p ->
    io_Read (holds d) p = ((d ++ skipn (length d) p, length d, None), holds []).

(** An address that lacks its last byte is read without an error: the
    one byte the last [Read] returns is the high byte of the port. *)
Lemma Addr_Read_short_port (a0 a : Addr) (nw : string) :
  valid_Addr a = true ->
  Addr_Read a0 nw (ErrR (mkErrReader None (holds (removelast (Addr_wire a)))))
  = ((None, mkAddr nw (Atyp a) (Host a) (N.shiftl (N.shiftr (Port a) 8) 8)),
     ErrR (mkErrReader None (holds []))).
Proof.
  intros Hv.
  assert (Hport : forall hi : byte,
             ErrReader_Read (mkErrReader None (holds [hi])) (make 2)
             = (([hi; zero], 1, None), mkErrReader None (holds []))).
  { intros hi. unfold ErrReader_Read. cbn [err rd].
    rewrite holds_short by (discriminate || (cbn; lia)). reflexivity. }
  assert (Hu : Uint16 [ascii_of_N (N.shiftr (Port a) 8); zero]
               = N.shiftl (N.shiftr (Port a) 8) 8).
  { unfold Uint16, at_, N_of_byte. cbn [nth].
    rewrite N_of_ascii_of_N. change (N_of_ascii zero) with 0%N. rewrite N.lor_0_l.
    f_equal. apply N.mod_small. rewrite N.shiftr_div_pow2.
    change (2 ^ 8)%N with 256%N. apply N.Div0.div_lt_upper_bound.
    destruct (valid_Addr_cases a Hv) as [Hp _]. exact Hp. }
  assert (Hrl : forall (x : byte) (pre : list byte),
             removelast (x :: pre ++ PutUint16 (Port a))
             = x :: pre ++ [ascii_of_N (N.shiftr (Port a) 8)]).
  { intros x pre. change (x :: pre ++ PutUint16 (Port a)) with ((x :: pre) ++ PutUint16 (Port a)).
    rewrite removelast_app by discriminate. reflexivity. }
  destruct (valid_Addr_cases a Hv) as [Hp [[Hd Hl]|[Ht [Hl [Hnn Hs]]]]];
    unfold Addr_Read, Addr_wire, on_network; cbn [NewReader ioReader_after].
  - rewrite Hd. change (Ascii.eqb AddrDomain AddrDomain) with true. cbv iota.
    change (firstn 1 (make 2)) with [zero].
    rewrite Hrl.
    cbn [app].
    erewrite (ErrReader_Read_as holds holds_read [AddrDomain]);
      [| reflexivity | reflexivity | discriminate].
    cbn [ErrReader_Error err app skipn make repeat at_ nth network Atyp Host Port].
    change (Ascii.eqb AddrDomain AddrIPV4) with false.
    change (Ascii.eqb AddrDomain AddrIPv6) with false.
    change (Ascii.eqb AddrDomain AddrDomain) with true.
    cbn [orb firstn].
    erewrite (ErrReader_Read_as holds holds_read [byte_of_nat (String.length (Host a))]);
      [| reflexivity | reflexivity | discriminate].
    cbn [app skipn at_ nth].
    rewrite nat_of_byte_of_nat_small by exact Hl.
    rewrite <- (length_list_ascii_of_string (Host a)).
    rewrite (ErrReader_Read_exact holds holds_read);
      [| apply length_make
       | intros Habs; apply (f_equal (@length _)) in Habs;
         rewrite length_app in Habs; simpl in Habs; lia].
    cbn [network Atyp Host Port].
    rewrite Hport. rewrite Hu.
    rewrite string_of_list_ascii_of_string.
    reflexivity.
  - assert (Hnd : Ascii.eqb (Atyp a) AddrDomain = false)
      by (destruct Ht as [-> | ->]; reflexivity).
    assert (Hip : Ascii.eqb (Atyp a) AddrIPV4 || Ascii.eqb (Atyp a) AddrIPv6 = true)
      by (destruct Ht as [-> | ->]; reflexivity).
    rewrite Hnd.
    change (firstn 1 (make 2)) with [zero].
    rewrite Hrl.
    cbn [app].
    erewrite (ErrReader_Read_as holds holds_read [Atyp a]);
      [| reflexivity | reflexivity | discriminate].
    cbn [ErrReader_Error err app skipn make repeat at_ nth network Atyp Host Port].
    rewrite Hip.
    rewrite <- Hl.
    rewrite (ErrReader_Read_exact holds holds_read);
      [| apply length_make
       | intros Habs; apply (f_equal (@length _)) in Habs;
         rewrite length_app in Habs; simpl in Habs; lia].
    cbn [network Atyp Host Port].
    rewrite Hport. rewrite Hu.
    rewrite Hs.
    reflexivity.
Qed.

End ShortRead.

(** X13.  [UDPHeader.Read] does not notice a datagram that lacks its last
    byte: for a header without payload cut in the middle of the port, it
    returns nil, with the low byte of the port read as 0x00.  The two
    reserved bytes are not looked at. *)
Lemma UDPHeader_Read_short_port (h0 : UDPHeader) (r0 r1 frag : byte) (a : Addr) (fuel : nat) :
  valid_Addr a = true ->
  UDPHeader_Read (S fuel) h0
    (PlainR (mkBytesReader ([r0; r1; frag] ++ removelast (Addr_wire a))))
  = Some ((None,
           mkUDPHeader frag
             (Some (mkAddr "udp" (Atyp a) (Host a) (N.shiftl (N.shiftr (Port a) 8) 8))) []),
          PlainR (mkBytesReader [])).
Proof.
  intros Ha. unfold UDPHeader_Read. cbn [NewReader ioReader_after].
  rewrite (ErrReader_Read_exact mkBytesReader bytesReader_Read_exact [r0; r1; frag])
    by (reflexivity || discriminate).
  cbn [at_ nth Frag udp_Dst Data].
  rewrite (Addr_Read_short_port mkBytesReader bytesReader_Read_exact bytesReader_Read_short
             new_Addr a "udp" Ha).
  cbn [NewReader].
  rewrite io_ReadAll_bytes by (cbn [length]; lia).
  reflexivity.
Qed.

Lemma UDPHeader_Read_short_port_witness :
  UDPHeader_Read 1 (mkUDPHeader zero None [])
    (PlainR (mkBytesReader (map byte_of_nat [0; 0; 0; 1; 192; 0; 2; 7; 31])))
  = Some ((None, mkUDPHeader zero (Some (mkAddr "udp" AddrIPV4 "192.0.2.7" 7936)) []),
          PlainR (mkBytesReader [])).
Proof.
  apply (UDPHeader_Read_short_port (mkUDPHeader zero None []) zero zero zero
           (mkAddr "udp" AddrIPV4 "192.0.2.7" 8080) 0).
  reflexivity.
Defined.

(** ** Strings: the first and the last index of a byte *)

Lemma Index_app (s1 s2 : string) (c : byte) :
  IndexByteString (s1 ++ s2) c =
  match IndexByteString s1 c with
  | Some i => Some i
  | None =>
      match IndexByteString s2 c with
      | Some j => Some (String.length s1 + j)
      | None => None
      end
  end.
Proof.
  induction s1 as [|a s1 IH]; cbn [String.append IndexByteString String.length].
  - destruct (IndexByteString s2 c); reflexivity.
  - destruct (Ascii.eqb a c); [reflexivity|]. rewrite IH.
    destruct (IndexByteString s1 c); [reflexivity|].
    destruct (IndexByteString s2 c); reflexivity.
Qed.

Lemma LastIndex_None (s : string) (c : byte) :
  LastIndexByteString s c = None <-> IndexByteString s c = None.
Proof.
  induction s as [|a s IH]; cbn [LastIndexByteString IndexByteString]; [tauto|].
  destruct (Ascii.eqb a c).
  - destruct (LastIndexByteString s c); split; discriminate.
  - destruct (LastIndexByteString s c), (IndexByteString s c); split; intros H;
      try discriminate; try reflexivity.
    + destruct IH as [_ IH]. specialize (IH eq_refl). discriminate.
    + destruct IH as [IH _]. specialize (IH eq_refl). discriminate.
Qed.

Lemma LastIndex_app (s1 s2 : string) (c : byte) :
  LastIndexByteString (s1 ++ s2) c =
  match LastIndexByteString s2 c with
  | Some j => Some (String.length s1 + j)
  | None => LastIndexByteString s1 c
  end.
Proof.
  induction s1 as [|a s1 IH]; cbn [String.append LastIndexByteString String.length].
  - destruct (LastIndexByteString s2 c); reflexivity.
  - rewrite IH. destruct (LastIndexByteString s2 c); reflexivity.
Qed.

Lemma substring_full (s : string) : substring 0 (String.length s) s = s.
Proof. induction s as [|a s IH]; cbn; [reflexivity | rewrite IH; reflexivity]. Qed.

Lemma str_from_0 (s : string) : str_from s 0 = s.
Proof. unfold str_from. rewrite Nat.sub_0_r. apply substring_full. Qed.

Lemma str_from_S (a : byte) (s : string) (i : nat) :
  str_from (String a s) (S i) = str_from s i.
Proof. reflexivity. Qed.

Lemma str_to_app (s1 s2 : string) : str_to (s1 ++ s2) (String.length s1) = s1.
Proof.
  unfold str_to. induction s1 as [|a s1 IH]; cbn.
  - destruct s2; reflexivity.
  - rewrite IH. reflexivity.
Qed.

Lemma str_from_app (s1 s2 : string) : str_from (s1 ++ s2) (String.length s1) = s2.
Proof.
  induction s1 as [|a s1 IH]; cbn [String.append String.length].
  - apply str_from_0.
  - rewrite str_from_S. exact IH.
Qed.

Lemma str_from_app_plus (s1 s2 : string) (k : nat) :
  str_from (s1 ++ s2) (String.length s1 + k) = str_from s2 k.
Proof.
  induction s1 as [|a s1 IH]; cbn [String.append String.length Nat.add].
  - reflexivity.
  - rewrite str_from_S. exact IH.
Qed.

Lemma Index_substring_None (s : string) (c : byte) :
  IndexByteString s c = None ->
  forall a n, IndexByteString (substring a n s) c = None.
Proof.
  induction s as [|x s IH]; intros H a n.
  - destruct a, n; reflexivity.
  - cbn [IndexByteString] in H. destruct (Ascii.eqb x c) eqn:E; [discriminate|].
    destruct (IndexByteString s c) eqn:Es; [discriminate|].
    destruct a as [|a]; cbn [substring].
    + destruct n as [|n]; [reflexivity|].
      cbn [IndexByteString]. rewrite E, (IH eq_refl). reflexivity.
    + apply IH. reflexivity.
Qed.

Lemma Index_before_first (s : string) (c : byte) :
  forall e, IndexByteString s c = Some e -> IndexByteString (substring 0 e s) c = None.
Proof.
  induction s as [|x s IH]; intros e H; [discriminate|].
  cbn [IndexByteString] in H. destruct (Ascii.eqb x c) eqn:E.
  - injection H as <-. reflexivity.
  - destruct (IndexByteString s c) as [i|] eqn:Es; [|discriminate].
    injection H as <-. cbn [substring IndexByteString]. rewrite E, (IH i eq_refl). reflexivity.
Qed.

Lemma Index_after_last (s : string) (c : byte) :
  forall i, LastIndexByteString s c = Some i -> IndexByteString (str_from s (S i)) c = None.
Proof.
  induction s as [|x s IH]; intros i H; [discriminate|].
  cbn [LastIndexByteString] in H.
  destruct (LastIndexByteString s c) as [j|] eqn:El.
  - injection H as <-. rewrite str_from_S. apply IH. reflexivity.
  - destruct (Ascii.eqb x c); [|discriminate]. injection H as <-.
    rewrite str_from_S, str_from_0. apply LastIndex_None. exact El.
Qed.

Lemma starts_with_Index (s : string) (c : byte) :
  IndexByteString s c = None -> starts_with c (list_ascii_of_string s) = false.
Proof.
  destruct s as [|x s]; cbn; [reflexivity|].
  destruct (Ascii.eqb x c); [discriminate | reflexivity].
Qed.

(** ** [strconv]: parsing what [FormatUint] prints *)

Lemma horner_ge (d : Decimal.uint) : forall acc, (acc <= horner d acc)%N.
Proof.
  induction d; intros acc; cbn [horner]; try lia;
    match goal with IH : forall a, (a <= horner ?d a)%N |- (_ <= horner ?d ?x)%N =>
      specialize (IH x); lia end.
Qed.

Lemma ParseUint16_loop_horner (d : Decimal.uint) :
  forall acc,
    (horner d acc <= 65535)%N ->
    ParseUint16_loop (list_ascii_of_string (DecimalString.NilEmpty.string_of_uint d)) acc
    = Some (horner d acc).
Proof.
  induction d; intros acc Hb;
    cbn [DecimalString.NilEmpty.string_of_uint list_ascii_of_string ParseUint16_loop horner] in *;
    try reflexivity;
    match goal with
    | IH : forall a, _ -> ParseUint16_loop _ a = Some (horner ?d a)
      |- context [is_digit ?c] =>
        change (is_digit c) with true; cbv iota;
        match goal with |- context [N.of_nat (nat_of_byte c - 48)] =>
          let v := eval vm_compute in (N.of_nat (nat_of_byte c - 48)) in
          change (N.of_nat (nat_of_byte c - 48)) with v
        end;
        match goal with |- context [horner d ?x] =>
          pose proof (horner_ge d x) as Hge;
          replace (65535 <? x)%N with false by (symmetry; apply N.ltb_ge; lia);
          apply IH; exact Hb
        end
    end.
Qed.

Lemma horner_pos (d : Decimal.uint) :
  forall acc : positive, horner d (N.pos acc) = N.pos (Pos.of_uint_acc d acc).
Proof.
  induction d; intros acc; cbn [horner Pos.of_uint_acc]; try reflexivity;
    match goal with IH : forall a, horner ?d (N.pos a) = _ |- _ =>
      rewrite <- IH; f_equal; lia end.
Qed.

Lemma horner_of_uint (d : Decimal.uint) : horner d 0 = N.of_uint d.
Proof.
  unfold N.of_uint.
  induction d; cbn [horner Pos.of_uint]; try reflexivity;
    try (rewrite <- horner_pos; reflexivity).
  exact IHd.
Qed.

Lemma ParseUint16_FormatUint (n : N) :
  (n < 65536)%N -> ParseUint16 (FormatUint n) = Some n.
Proof.
  intros Hn. unfold FormatUint, ParseUint16.
  pose proof (DecimalN.Unsigned.of_to n) as Hof.
  remember (N.to_uint n) as d eqn:Ed.
  assert (Hh : horner d 0 = n) by (rewrite horner_of_uint; exact Hof).
  assert (Hnil : d <> Decimal.Nil).
  { intros ->. cbn in Hof. subst n. discriminate. }
  assert (Hs : DecimalString.NilZero.string_of_uint d
               = DecimalString.NilEmpty.string_of_uint d)
    by (destruct d; [contradiction | reflexivity ..]).
  rewrite Hs.
  pose proof (ParseUint16_loop_horner d 0%N ltac:(rewrite Hh; lia)) as HP.
  rewrite Hh in HP.
  destruct d; [contradiction | exact HP ..].
Qed.

Lemma ParseUint16_loop_bound (s : list byte) :
  forall acc n, (acc <= 65535)%N -> ParseUint16_loop s acc = Some n -> (n <= 65535)%N.
Proof.
  induction s as [|c s IH]; intros acc n Ha; cbn [ParseUint16_loop].
  - intros [= <-]. exact Ha.
  - destruct (is_digit c); [|discriminate].
    destruct (65535 <? acc * 10 + N.of_nat (nat_of_byte c - 48))%N eqn:E; [discriminate|].
    apply N.ltb_ge in E. apply IH. exact E.
Qed.

Lemma ParseUint16_bound (s : string) (n : N) : ParseUint16 s = Some n -> (n < 65536)%N.
Proof.
  unfold ParseUint16. destruct s as [|c s]; [discriminate|].
  intros H. apply ParseUint16_loop_bound in H; lia.
Qed.

(** A string [ParseUint16] accepts holds decimal digits only. *)
Lemma ParseUint16_loop_digits (s : list byte) (c : byte) :
  is_digit c = false ->
  forall acc n, ParseUint16_loop s acc = Some n ->
  IndexByteString (string_of_list_ascii s) c = None.
Proof.
  intros Hc. induction s as [|x s IH]; intros acc n; cbn; [reflexivity|].
  destruct (is_digit x) eqn:Ex; [|discriminate].
  destruct (65535 <? acc * 10 + N.of_nat (nat_of_byte x - 48))%N; [discriminate|].
  intros H. rewrite (IH _ _ H).
  destruct (Ascii.eqb x c) eqn:E; [|reflexivity].
  apply Ascii.eqb_eq in E. congruence.
Qed.

Lemma ParseUint16_digits (s : string) (n : N) (c : byte) :
  is_digit c = false -> ParseUint16 s = Some n -> IndexByteString s c = None.
Proof.
  intros Hc. unfold ParseUint16. destruct s as [|x s]; [discriminate|].
  intros H. apply (ParseUint16_loop_digits _ c Hc) in H.
  rewrite string_of_list_ascii_of_string in H. exact H.
Qed.

(** ** [net]: splitting what [JoinHostPort] joins *)

Lemma length_append (s1 s2 : string) :
  String.length (s1 ++ s2) = String.length s1 + String.length s2.
Proof. induction s1 as [|a s1 IH]; cbn; [reflexivity | rewrite IH; reflexivity]. Qed.

Lemma SplitHostPort_JoinHostPort (h p : string) :
  IndexByteString h "[" = None -> IndexByteString h "]" = None ->
  IndexByteString p ":" = None -> IndexByteString p "[" = None ->
  IndexByteString p "]" = None ->
  SplitHostPort (JoinHostPort h p) = Some (h, p).
Proof.
  intros Hho Hhc Hpc Hpo Hpcl. unfold JoinHostPort.
  destruct (IndexByteString h ":") as [ih|] eqn:Ehc.
  - (* "[" ++ h ++ "]:" ++ p *)
    unfold SplitHostPort.
    change ("[" ++ h ++ "]:" ++ p)%string with (String "[" (h ++ String "]" (String ":" p))).
    cbn [LastIndexByteString].
    rewrite (LastIndex_app h (String "]" (String ":" p)) ":").
    cbn [LastIndexByteString].
    replace (LastIndexByteString p ":") with (@None nat)
      by (symmetry; apply LastIndex_None; exact Hpc).
    change (Ascii.eqb ":" ":") with true. cbv iota.
    cbn [list_ascii_of_string starts_with].
    change (Ascii.eqb "[" "[") with true. cbv iota.
    cbn [IndexByteString]. change (Ascii.eqb "[" "]") with false. cbv iota.
    rewrite (Index_app h (String "]" (String ":" p)) "]"), Hhc.
    cbn [IndexByteString]. change (Ascii.eqb "]" "]") with true. cbv iota.
    rewrite Nat.add_0_r, Nat.add_1_r.
    cbn [String.length]. rewrite length_append. cbn [String.length].
    replace (S (S (String.length h)) =? S (String.length h + S (S (String.length p))))
      with false by (symmetry; apply Nat.eqb_neq; lia).
    rewrite Nat.eqb_refl.
    replace (S (String.length h) - 1) with (String.length h) by lia.
    cbn [substring].
    change (substring 0 (String.length h) (h ++ String "]" (String ":" p)))
      with (str_to (h ++ String "]" (String ":" p)) (String.length h)).
    rewrite str_to_app.
    rewrite !str_from_S, str_from_0.
    rewrite (Index_app h (String "]" (String ":" p)) "["), Hho.
    cbn [IndexByteString]. change (Ascii.eqb "]" "[") with false.
    change (Ascii.eqb ":" "[") with false. cbv iota. rewrite Hpo.
    replace (S (S (String.length h))) with (String.length h + 2) by lia.
    replace (S (String.length h)) with (String.length h + 1) by lia.
    rewrite !str_from_app_plus, !str_from_S, !str_from_0.
    cbn [IndexByteString]. change (Ascii.eqb ":" "]") with false. cbv iota. rewrite Hpcl.
    reflexivity.
  - (* h ++ ":" ++ p *)
    unfold SplitHostPort.
    change (h ++ ":" ++ p)%string with (h ++ String ":" p)%string.
    rewrite (LastIndex_app h (String ":" p) ":").
    cbn [LastIndexByteString].
    replace (LastIndexByteString p ":") with (@None nat)
      by (symmetry; apply LastIndex_None; exact Hpc).
    change (Ascii.eqb ":" ":") with true. cbv iota. rewrite Nat.add_0_r.
    rewrite starts_with_Index
      by (rewrite Index_app, Hho; cbn [IndexByteString];
          change (Ascii.eqb ":" "[") with false; cbv iota; rewrite Hpo; reflexivity).
    rewrite str_to_app, Ehc.
    rewrite !str_from_0.
    rewrite (Index_app h (String ":" p) "["), Hho.
    cbn [IndexByteString]. change (Ascii.eqb ":" "[") with false. cbv iota. rewrite Hpo.
    rewrite (Index_app h (String ":" p) "]"), Hhc.
    cbn [IndexByteString]. change (Ascii.eqb ":" "]") with false. cbv iota. rewrite Hpcl.
    replace (S (String.length h)) with (String.length (h ++ ":")%string)
      by (rewrite length_append; cbn; lia).
    replace (h ++ String ":" p)%string with ((h ++ ":") ++ p)%string
      by (clear; induction h as [|a h IH]; cbn; [reflexivity | rewrite IH; reflexivity]).
    rewrite str_from_app. reflexivity.
Qed.

(** The host [SplitHostPort] returns holds no bracket. *)
Lemma SplitHostPort_host (s h p : string) :
  SplitHostPort s = Some (h, p) ->
  IndexByteString h "[" = None /\ IndexByteString h "]" = None.
Proof.
  unfold SplitHostPort.
  destruct (LastIndexByteString s ":") as [i|]; [|discriminate].
  destruct (starts_with "[" (list_ascii_of_string s)) eqn:Esw.
  - destruct s as [|x s']; [discriminate|].
    cbn [list_ascii_of_string starts_with] in Esw. apply Ascii.eqb_eq in Esw. subst x.
    cbn [IndexByteString]. change (Ascii.eqb "[" "]") with false. cbv iota.
    destruct (IndexByteString s' "]") as [e|] eqn:Ee; [|discriminate].
    destruct (S (S e) =? String.length (String "[" s')); [discriminate|].
    destruct (S (S e) =? i); [|discriminate].
    replace (S e - 1) with e by lia. cbn [substring].
    rewrite str_from_S, str_from_0.
    destruct (IndexByteString s' "[") eqn:Eo; [discriminate|].
    destruct (IndexByteString (str_from (String "[" s') (S (S e))) "]"); [discriminate|].
    intros [= <- <-]. split.
    + apply Index_substring_None. exact Eo.
    + apply Index_before_first. exact Ee.
  - destruct (IndexByteString (str_to s i) ":"); [discriminate|].
    rewrite !str_from_0.
    destruct (IndexByteString s "[") eqn:Eo; [discriminate|].
    destruct (IndexByteString s "]") eqn:Ec; [discriminate|].
    intros [= <- <-]. unfold str_to. split; apply Index_substring_None; assumption.
Qed.

(** ** Parsed addresses *)

Lemma not_digit_colon : is_digit ":" = false. Proof. reflexivity. Qed.
Lemma not_digit_open : is_digit "[" = false. Proof. reflexivity. Qed.
Lemma not_digit_close : is_digit "]" = false. Proof. reflexivity. Qed.

Lemma SplitHostPort_Join_port (h port : string) (n : N) :
  IndexByteString h "[" = None -> IndexByteString h "]" = None ->
  ParseUint16 port = Some n ->
  SplitHostPort (JoinHostPort h port) = Some (h, port).
Proof.
  intros Ho Hc Hp. apply SplitHostPort_JoinHostPort; try assumption.
  - exact (ParseUint16_digits port n ":" not_digit_colon Hp).
  - exact (ParseUint16_digits port n "[" not_digit_open Hp).
  - exact (ParseUint16_digits port n "]" not_digit_close Hp).
Qed.

(** X14.  [ParseAddr] reads an address without a host, ":port", as the
    IPv4 address 0.0.0.0 with that port. *)
Lemma ParseAddr_empty_host (nw port : string) (n : N) :
  ParseUint16 port = Some n ->
  ParseAddr nw (":" ++ port) = Some (mkAddr nw AddrIPV4 "0.0.0.0" n).
Proof.
  intros Hp. unfold ParseAddr.
  change (":" ++ port)%string with (JoinHostPort "" port).
  rewrite (SplitHostPort_Join_port "" port n eq_refl eq_refl Hp).
  cbn [String.eqb]. rewrite Hp. reflexivity.
Qed.

Lemma ParseAddr_empty_host_witness :
  ParseAddr "tcp" ":1080" = Some (mkAddr "tcp" AddrIPV4 "0.0.0.0" 1080).
Proof.
  exact (ParseAddr_empty_host "tcp" "1080" 1080%N eq_refl).
Defined.

(** X15.  The address [randomAddress] returns is ":p" with a port p from
    2500 to 65534 (65535 is never drawn), and [ParseAddr] reads it as the
    IPv4 address 0.0.0.0 with the port p. *)
Lemma randomAddress_parses (rnd : list nat) (nw : string) :
  exists p : N,
    (2500 <= p <= 65534)%N
    /\ fst (randomAddress rnd) = (":" ++ FormatUint p)%string
    /\ ParseAddr nw (fst (randomAddress rnd)) = Some (mkAddr nw AddrIPV4 "0.0.0.0" p).
Proof.
  unfold randomAddress.
  set (r := match rnd with [] => (0, []) | r :: rnd' => (r mod 63035, rnd') end).
  assert (Hr : (N.of_nat (fst r) < 63035)%N).
  { subst r. destruct rnd as [|x rnd]; cbn [fst]; [reflexivity|].
    rewrite Nat2N.inj_mod.
    replace (N.of_nat 63035) with 63035%N by (vm_compute; reflexivity).
    apply N.mod_lt. discriminate. }
  destruct r as [r0 rnd0]. cbn [fst] in *.
  assert (Hp : N.of_nat (r0 + 2500) = (N.of_nat r0 + 2500)%N)
    by (rewrite Nat2N.inj_add; reflexivity).
  exists (N.of_nat (r0 + 2500)). rewrite Hp. split; [lia|].
  split; [rewrite <- Hp; reflexivity|].
  rewrite <- Hp.
  change (JoinHostPort "" (FormatUint (N.of_nat (r0 + 2500))))
    with (":" ++ FormatUint (N.of_nat (r0 + 2500)))%string.
  assert (Hport : ParseUint16 (FormatUint (N.of_nat (r0 + 2500))) = Some (N.of_nat (r0 + 2500)))
    by (apply ParseUint16_FormatUint; lia).
  unfold ParseAddr.
  change (":" ++ FormatUint (N.of_nat (r0 + 2500)))%string
    with (JoinHostPort "" (FormatUint (N.of_nat (r0 + 2500)))).
  rewrite (SplitHostPort_Join_port "" _ _ eq_refl eq_refl Hport).
  cbn [String.eqb]. rewrite Hport. reflexivity.
Qed.

Lemma ParseAddr_of_String (nw nw' s : string) (a : Addr) :
  ParseAddr nw s = Some a ->
  ParseAddr nw' (Addr_String a) = Some (on_network nw' a).
Proof.
  unfold ParseAddr at 1.
  destruct (SplitHostPort s) as [[host port]|] eqn:Es; [|discriminate].
  destruct (ParseUint16 port) as [n|] eqn:Ep; [|discriminate].
  intros [= <-].
  destruct (SplitHostPort_host s host port Es) as [Ho Hc].
  pose proof (ParseUint16_bound port n Ep) as Hn.
  set (host' := if String.eqb host "" then "0.0.0.0" else host).
  assert (Ho' : IndexByteString host' "[" = None)
    by (subst host'; destruct (String.eqb host ""); [reflexivity | exact Ho]).
  assert (Hc' : IndexByteString host' "]" = None)
    by (subst host'; destruct (String.eqb host ""); [reflexivity | exact Hc]).
  assert (Hne : String.eqb host' "" = false).
  { subst host'. destruct (String.eqb host "") eqn:E; [reflexivity | exact E]. }
  unfold Addr_String, on_network, ParseAddr. cbn [Host Port Atyp].
  rewrite (SplitHostPort_Join_port host' (FormatUint n) n Ho' Hc'
             (ParseUint16_FormatUint n Hn)).
  rewrite Hne, (ParseUint16_FormatUint n Hn). reflexivity.
Qed.

(** X16.  An address [ParseAddr] has returned prints, with [Addr.String],
    as a string that [ParseAddr] reads as the same address again (the host
    in brackets when it holds a colon). *)
Lemma ParseAddr_Addr_String (nw nw' s : string) (a : Addr) :
  ParseAddr nw s = Some a ->
  ParseAddr nw' (Addr_String a) = Some (on_network nw' a).
Proof. apply ParseAddr_of_String. Qed.

Lemma ParseAddr_Addr_String_witness :
  ParseAddr "udp" (Addr_String (mkAddr "tcp" AddrIPv6 "2001:db8::1" 53))
  = Some (mkAddr "udp" AddrIPv6 "2001:db8::1" 53).
Proof.
  exact (ParseAddr_Addr_String "tcp" "udp" "[2001:db8::1]:53"
           (mkAddr "tcp" AddrIPv6 "2001:db8::1" 53) eq_refl).
Defined.

(** X17.  For every address [ParseAddr] returns, [Len] is the exact size
    of what [Write] produces: a buffered writer of [a.Len()] bytes is filled
    to the last byte with ATYP, the address and the port, and nothing is
    flushed. *)
Lemma ParseAddr_Len_exact (W : Type) (HW : Writer W) (w : W) (nw s : string) (a : Addr) :
  ParseAddr nw s = Some a ->
  Addr_Write a (BufW (bufio_new w (Addr_Len a)))
  = (None, BufW (mkBufWriter None (Addr_wire a) (Addr_Len a) w))
  /\ length (Addr_wire a) = Addr_Len a.
Proof.
  intros Hp. pose proof (ParseAddr_consistent nw s a Hp) as Hc.
  split; [|apply consistent_Addr_wire_length; exact Hc].
  destruct (Addr_Len_pos a) as [n Hn].
  unfold bufio_new. rewrite Hn. cbn [Nat.leb]. rewrite <- Hn.
  rewrite Addr_Write_BufW_wire; [reflexivity | exact Hc | reflexivity |].
  cbn [bw_buf bw_size length]. lia.
Qed.

Lemma ParseAddr_Len_exact_witness :
  let a := mkAddr "tcp" AddrDomain "example.org" 443 in
  Addr_Write a (BufW (bufio_new fresh (Addr_Len a)))
  = (None, BufW (mkBufWriter None (Addr_wire a) (Addr_Len a) fresh))
  /\ length (Addr_wire a) = Addr_Len a.
Proof.
  exact (ParseAddr_Len_exact RawConn _ fresh "tcp" "example.org:443"
           (mkAddr "tcp" AddrDomain "example.org" 443) eq_refl).
Defined.

(** ** The address a BIND listens at *)

Lemma SplitHostPort_extractPort (addr : string) : SplitHostPort (extractPort addr) = None.
Proof.
  unfold extractPort.
  destruct (SplitHostPort addr) as [[h p]|] eqn:Es; [|reflexivity].
  assert (Hp : IndexByteString p ":" = None).
  { revert Es. unfold SplitHostPort.
    destruct (LastIndexByteString addr ":") as [i|] eqn:El; [|discriminate].
    pose proof (Index_after_last addr ":" i El) as Hafter.
    destruct (if starts_with "[" (list_ascii_of_string addr)
              then match IndexByteString addr "]" with
                   | Some e =>
                       if S e =? String.length addr then None
                       else if S e =? i then Some (substring 1 (e - 1) addr, 1, S e)
                       else None
                   | None => None
                   end
              else match IndexByteString (str_to addr i) ":" with
                   | Some _ => None
                   | None => Some (str_to addr i, 0, 0)
                   end) as [[[h0 j] k]|]; [|discriminate].
    destruct (IndexByteString (str_from addr j) "["); [discriminate|].
    destruct (IndexByteString (str_from addr k) "]"); [discriminate|].
    intros [= _ <-]. exact Hafter. }
  unfold SplitHostPort.
  replace (LastIndexByteString p ":") with (@None nat)
    by (symmetry; apply LastIndex_None; exact Hp).
  reflexivity.
Qed.

(** What [handleBIND] passes to [listen] for a destination whose host holds
    no bracket: the port in decimal, which is not empty. *)
Lemma extractPort_Addr_String (dst : Addr) :
  IndexByteString (Host dst) "[" = None -> IndexByteString (Host dst) "]" = None ->
  (Port dst < 65536)%N ->
  extractPort (Addr_String dst) = FormatUint (Port dst)
  /\ FormatUint (Port dst) <> "".
Proof.
  intros Ho Hc Hp. pose proof (ParseUint16_FormatUint (Port dst) Hp) as Hu.
  split.
  - unfold extractPort, Addr_String.
    rewrite (SplitHostPort_Join_port (Host dst) _ _ Ho Hc Hu). reflexivity.
  - intros E. rewrite E in Hu. discriminate Hu.
Qed.

(** X18.  [handleBIND] never listens at the port of the request.  The
    address it passes to [listen] is what [extractPort] returns: it holds
    no colon, so that [SplitHostPort] rejects it.  For a destination whose
    host holds no bracket it is the port in decimal; a network that
    refuses an address that is not empty and has no port (as [net.Listen]
    does, "missing port in address") then makes [listen] bind the listener
    at a random address.  When [extractPort] returns the empty string (it
    drops the error of [SplitHostPort]) and the network binds the empty
    address, [listen] returns that listener and tries no random address. *)
Lemma handleBIND_listens_at_random (env : Env) (rnd : list nat) (req : Request) :
  (forall a : string,
      a <> "" -> SplitHostPort a = None -> exists e, env_listen env "tcp" a = inl e) ->
  SplitHostPort (extractPort (Dst_String req)) = None
  /\ (forall dst : Addr,
        Dst req = Some dst ->
        IndexByteString (Host dst) "[" = None -> IndexByteString (Host dst) "]" = None ->
        (Port dst < 65536)%N ->
        extractPort (Dst_String req) = FormatUint (Port dst)
        /\ Server_listen env rnd "tcp" (extractPort (Dst_String req)) true
           = (env_listen env "tcp" (fst (randomAddress rnd)), snd (randomAddress rnd)))
  /\ (forall l : NetConn,
        extractPort (Dst_String req) = "" -> env_listen env "tcp" "" = inr l ->
        Server_listen env rnd "tcp" (extractPort (Dst_String req)) true = (inr l, rnd)).
Proof.
  intros Henv. pose proof (SplitHostPort_extractPort (Dst_String req)) as Hs.
  split; [exact Hs|]. split.
  - intros dst Hd Ho Hc Hp.
    assert (Hds : Dst_String req = Addr_String dst) by (unfold Dst_String; rewrite Hd; reflexivity).
    rewrite Hds in *.
    destruct (extractPort_Addr_String dst Ho Hc Hp) as [He Hne].
    split; [exact He|].
    unfold Server_listen, Server_makeListener. cbn [String.eqb Ascii.eqb Bool.eqb].
    rewrite He in Hs |- *.
    destruct (Henv _ Hne Hs) as [e Hl]. rewrite Hl.
    destruct (randomAddress rnd) as [a rnd']. cbn [fst snd].
    destruct (env_listen env "tcp" a); reflexivity.
  - intros l He Hl. rewrite He.
    unfold Server_listen, Server_makeListener. cbn [String.eqb Ascii.eqb Bool.eqb].
    rewrite Hl. reflexivity.
Qed.

Lemma handleBIND_listens_at_random_witness :
  let listener := fun a : string => mkNetConn (mkNetAddr "tcp" a) (mkNetAddr "tcp" "") in
  let env := mkEnv (fun _ a => if String.eqb a "" then inr (listener "[::]:49152")
                               else match SplitHostPort a with
                                    | None => inl (ErrNet "missing port in address")
                                    | Some _ => inr (listener a)
                                    end)
                   (fun _ => inl (ErrNet "closed")) [] in
  let req := mkRequest CmdBind (Some (mkAddr "tcp" AddrIPV4 "192.0.2.7" 8080)) in
  let bad := mkRequest CmdBind (Some (mkAddr "tcp" AddrDomain "a]b" 80)) in
  (SplitHostPort (extractPort (Dst_String req)) = None
   /\ extractPort (Dst_String req) = "8080"
   /\ Server_listen env [7] "tcp" (extractPort (Dst_String req)) true
      = (inr (listener ":2507"), []))
  /\ (extractPort (Dst_String bad) = ""
      /\ Server_listen env [7] "tcp" (extractPort (Dst_String bad)) true
         = (inr (listener "[::]:49152"), [7])).
Proof.
  pose (listener := fun a : string => mkNetConn (mkNetAddr "tcp" a) (mkNetAddr "tcp" "")).
  pose (env := mkEnv (fun _ a => if String.eqb a "" then inr (listener "[::]:49152")
                                 else match SplitHostPort a with
                                      | None => inl (ErrNet "missing port in address")
                                      | Some _ => inr (listener a)
                                      end)
                     (fun _ => inl (ErrNet "closed")) []).
  assert (Henv : forall a : string,
             a <> "" -> SplitHostPort a = None -> exists e, env_listen env "tcp" a = inl e).
  { intros a Hne Ha. cbn [env env_listen].
    destruct (String.eqb a "") eqn:E; [apply String.eqb_eq in E; contradiction|].
    rewrite Ha. eexists. reflexivity. }
  cbv zeta. split.
  - destruct (handleBIND_listens_at_random env [7]
                (mkRequest CmdBind (Some (mkAddr "tcp" AddrIPV4 "192.0.2.7" 8080))) Henv)
      as [H1 [H2 _]].
    destruct (H2 _ eq_refl eq_refl eq_refl eq_refl) as [H3 H4].
    split; [exact H1|]. split; [exact H3 | exact H4].
  - destruct (handleBIND_listens_at_random env [7]
                (mkRequest CmdBind (Some (mkAddr "tcp" AddrDomain "a]b" 80))) Henv)
      as [_ [_ H3]].
    split; [reflexivity|]. exact (H3 _ eq_refl eq_refl).
Defined.

(** ** Messages on an open connection *)

Lemma one_Write_RawConn (i o bs : list byte) :
  one_Write (mkRawConn i o false) bs = (None, mkRawConn i (o ++ bs) false).
Proof.
  unfold one_Write, io_Write, RawConn_Writer, RawConn_Write. cbn [rc_closed rc_in rc_out].
  rewrite Nat.ltb_irrefl. reflexivity.
Qed.

Lemma Conn_WriteMessage_Request (al cd : bool) (i o : list byte) (c : byte) (a : Addr) :
  consistent_Addr a = true ->
  Conn_WriteMessage ctxBackground (mkConn al (mkRawConn i o false) cd) (mkRequest c (Some a))
  = (None, mkConn al (mkRawConn i (o ++ [Version; c; zero] ++ Addr_wire a) false) cd).
Proof.
  intros Ha. unfold Conn_WriteMessage, Conn_processMessage.
  cbn [ctx_Err ctxBackground raw alive CloseOnContextDone Message_Write Request_Message].
  rewrite (Request_Write_wire RawConn _ (mkRawConn i o false) c a Ha).
  rewrite one_Write_RawConn. reflexivity.
Qed.

Lemma Conn_WriteMessage_Reply (al cd : bool) (i o : list byte) (c : byte) (a : Addr) :
  consistent_Addr a = true ->
  Conn_WriteMessage ctxBackground (mkConn al (mkRawConn i o false) cd) (mkReply c (Some a))
  = (None, mkConn al (mkRawConn i (o ++ [Version; c; zero] ++ Addr_wire a) false) cd).
Proof.
  intros Ha. unfold Conn_WriteMessage, Conn_processMessage.
  cbn [ctx_Err ctxBackground raw alive CloseOnContextDone Message_Write Reply_Message].
  rewrite (Reply_Write_wire RawConn _ (mkRawConn i o false) c a Ha).
  rewrite one_Write_RawConn. reflexivity.
Qed.

Lemma Conn_WriteMessage_NegotiationRequest (al cd : bool) (i o : list byte)
  (ms : list authMethod) :
  Conn_WriteMessage ctxBackground (mkConn al (mkRawConn i o false) cd) (mkNegotiationRequest ms)
  = (None, mkConn al (mkRawConn i (o ++ [Version; byte_of_nat (length ms)] ++ ms) false) cd).
Proof.
  unfold Conn_WriteMessage, Conn_processMessage.
  cbn [ctx_Err ctxBackground raw alive CloseOnContextDone Message_Write
         NegotiationRequest_Message].
  rewrite (NegotiationRequest_Write_wire RawConn _ (mkRawConn i o false) ms).
  rewrite one_Write_RawConn. reflexivity.
Qed.

Lemma Conn_WriteMessage_PassRequest (al cd : bool) (i o un pw : list byte) :
  Conn_WriteMessage ctxBackground (mkConn al (mkRawConn i o false) cd) (mkPassRequest un pw)
  = (None, mkConn al (mkRawConn i (o ++ PassRequest_wire un pw) false) cd).
Proof.
  unfold Conn_WriteMessage, Conn_processMessage.
  cbn [ctx_Err ctxBackground raw alive CloseOnContextDone Message_Write PassRequest_Message].
  rewrite (PassRequest_Write_wire RawConn _ (mkRawConn i o false) un pw).
  rewrite one_Write_RawConn. reflexivity.
Qed.

Lemma Conn_ReadMessage_Request (al cd : bool) (rest o : list byte) (r0 : Request)
  (cmd rsv : byte) (a : Addr) :
  nat_of_byte cmd < 4 -> valid_Addr a = true ->
  Conn_ReadMessage ctxBackground
    (mkConn al (mkRawConn ([Version; cmd; rsv] ++ Addr_wire a ++ rest) o false) cd) r0
  = ((None, mkRequest cmd (Some (on_network (cmdType_Network cmd) a))),
     mkConn al (mkRawConn rest o false) cd).
Proof.
  intros Hc Ha. unfold Conn_ReadMessage, Conn_processMessage.
  cbn [ctx_Err ctxBackground raw alive CloseOnContextDone Message_Read Request_Message].
  rewrite (Request_Read_wire r0 cmd rsv a rest o Hc Ha). reflexivity.
Qed.

Lemma Conn_ReadMessage_Reply (al cd : bool) (rest o : list byte) (r0 : Reply)
  (rep rsv : byte) (a : Addr) :
  nat_of_byte rep < 9 -> valid_Addr a = true ->
  Conn_ReadMessage ctxBackground
    (mkConn al (mkRawConn ([Version; rep; rsv] ++ Addr_wire a ++ rest) o false) cd) r0
  = ((None, mkReply rep (Some (on_network "" a))), mkConn al (mkRawConn rest o false) cd).
Proof.
  intros Hc Ha. unfold Conn_ReadMessage, Conn_processMessage.
  cbn [ctx_Err ctxBackground raw alive CloseOnContextDone Message_Read Reply_Message].
  rewrite (Reply_Read_wire r0 rep rsv a rest o Hc Ha). reflexivity.
Qed.

Lemma Conn_ReadMessage_NegotiationReply (al cd : bool) (rest o : list byte)
  (r0 : NegotiationReply) (m : byte) :
  Conn_ReadMessage ctxBackground (mkConn al (mkRawConn ([Version; m] ++ rest) o false) cd) r0
  = ((None, mkNegotiationReply m), mkConn al (mkRawConn rest o false) cd).
Proof.
  unfold Conn_ReadMessage, Conn_processMessage.
  cbn [ctx_Err ctxBackground raw alive CloseOnContextDone Message_Read
         NegotiationReply_Message].
  unfold NegotiationReply_Read, ioReader_Read, io_Read, RawConn_Reader.
  rewrite (RawConn_Read_exact [Version; m] rest o (make 2) eq_refl).
  reflexivity.
Qed.

Lemma Conn_ReadMessage_PassReply (al cd : bool) (rest o : list byte) (r0 : PassReply)
  (st : byte) :
  Conn_ReadMessage ctxBackground
    (mkConn al (mkRawConn ([subnegotiationVersion; st] ++ rest) o false) cd) r0
  = ((None, mkPassReply st), mkConn al (mkRawConn rest o false) cd).
Proof.
  unfold Conn_ReadMessage, Conn_processMessage.
  cbn [ctx_Err ctxBackground raw alive CloseOnContextDone Message_Read PassReply_Message].
  unfold PassReply_Read. cbn [NewReader ioReader_after].
  erewrite (ErrReader_Read_RawConn [subnegotiationVersion; st]); [| reflexivity | reflexivity].
  reflexivity.
Qed.

(** ** The client side of the negotiation and of the authentication *)

Lemma negotiator_Request_run (ms : list authMethod) (m : byte) (rest o : list byte)
  (al cd : bool) :
  negotiator_Request ctxBackground (mkConn al (mkRawConn ([Version; m] ++ rest) o false) cd) ms
  = ((if Ascii.eqb m MethodNoAcceptable
      then (MethodNoAcceptable,
            Some (ErrNew ErrProtocol
                    "neither of selected authentication methods are supported by the server"))
      else (m, None)),
     mkConn al (mkRawConn rest (o ++ [Version; byte_of_nat (length ms)] ++ ms) false) cd).
Proof.
  unfold negotiator_Request.
  rewrite Conn_WriteMessage_NegotiationRequest.
  rewrite Conn_ReadMessage_NegotiationReply. cbn [Method].
  destruct (Ascii.eqb m MethodNoAcceptable); reflexivity.
Qed.

Lemma negotiator_Reply_run (method : authMethod) (ms rest o : list byte) (al cd : bool) :
  length ms <= 255 ->
  negotiator_Reply ctxBackground
    (mkConn al (mkRawConn (NegotiationRequest_wire ms ++ rest) o false) cd) method
  = if isMethodSupported method ms
    then (None, mkConn al (mkRawConn rest (o ++ [Version; method]) false) cd)
    else (Some (ErrNew ErrProtocol "authentication method (%v) is not supported by the client"),
          mkConn al (mkRawConn rest (o ++ [Version; MethodNoAcceptable]) false) cd).
Proof.
  intros Hl. unfold negotiator_Reply, Conn_ReadMessage, Conn_WriteMessage, Conn_processMessage.
  cbn [ctx_Err ctxBackground raw alive CloseOnContextDone Message_Read Message_Write
         NegotiationRequest_Message NegotiationReply_Message].
  rewrite (NegotiationRequest_wire_read ms rest o (mkNegotiationRequest []) Hl).
  cbn [the_plainR raw alive CloseOnContextDone Methods].
  destruct (isMethodSupported method ms); reflexivity.
Qed.

(** X20.  The two sides of the negotiation agree.  When the server, which
    wants the method [M] (not 0xFF), reads the request of a client that
    offers at most 255 methods [ms], and the client reads what the server
    replied, then either [M] is among [ms] and both return nil, the client
    with [M]; or it is not and both return an error.  What the client sent
    is what the server read. *)
Lemma negotiation_agrees (ms : list authMethod) (M : authMethod) :
  length ms <= 255 -> M <> MethodNoAcceptable ->
  let server := negotiator_Reply ctxBackground
                  (NewConn (incoming (NegotiationRequest_wire ms))) M in
  let client := negotiator_Request ctxBackground
                  (NewConn (incoming (rc_out (raw (snd server))))) ms in
  rc_out (raw (snd client)) = NegotiationRequest_wire ms
  /\ (fst server, fst client)
     = if isMethodSupported M ms
       then (None, (M, None))
       else (Some (ErrNew ErrProtocol
                     "authentication method (%v) is not supported by the client"),
             (MethodNoAcceptable,
              Some (ErrNew ErrProtocol
                      "neither of selected authentication methods are supported by the server"))).
Proof.
  intros Hl HM. apply Ascii.eqb_neq in HM. cbv zeta.
  unfold NewConn, incoming.
  pose proof (negotiator_Reply_run M ms [] [] true true Hl) as Hs.
  rewrite app_nil_r in Hs. rewrite Hs.
  destruct (isMethodSupported M ms); cbn [snd raw rc_out fst app].
  - pose proof (negotiator_Request_run ms M [] [] true true) as Hc.
    cbn [app] in Hc. unfold authMethod in *. rewrite Hc, HM. split; reflexivity.
  - pose proof (negotiator_Request_run ms MethodNoAcceptable [] [] true true) as Hc.
    cbn [app] in Hc. unfold authMethod in *. rewrite Hc. split; reflexivity.
Qed.

Lemma negotiation_agrees_witness :
  let ms := [MethodNotRequired; MethodPassword] in
  let server := negotiator_Reply ctxBackground
                  (NewConn (incoming (NegotiationRequest_wire ms))) MethodPassword in
  let client := negotiator_Request ctxBackground
                  (NewConn (incoming (rc_out (raw (snd server))))) ms in
  rc_out (raw (snd client)) = NegotiationRequest_wire ms
  /\ (fst server, fst client) = (None, (MethodPassword, None)).
Proof.
  apply (negotiation_agrees [MethodNotRequired; MethodPassword] MethodPassword).
  - cbn. lia.
  - discriminate.
Defined.

(** X21.  [PassAuth.Request] sends the user name and the password it was
    built with and goes by the status of the reply: 0x00 is success, any
    other status the error "username or password is wrong". *)
Lemma PassAuth_Request_status (a : PassAuth) (st : byte) (rest o : list byte) (al cd : bool) :
  PassAuth_Request a ctxBackground
    (mkConn al (mkRawConn ([subnegotiationVersion; st] ++ rest) o false) cd)
  = ((if Ascii.eqb st statusOK then None
      else Some (ErrNew ErrProtocol "username or password is wrong")),
     mkConn al (mkRawConn rest (o ++ PassRequest_wire (user a) (pass a)) false) cd).
Proof.
  unfold PassAuth_Request.
  rewrite Conn_WriteMessage_PassRequest, Conn_ReadMessage_PassReply. cbn [Status].
  destruct (Ascii.eqb st statusOK); reflexivity.
Qed.

(** ** The client's connection to the proxy *)

Lemma method_is_NotRequired (m : byte) :
  Ascii.eqb m MethodNotRequired = true -> Ascii.eqb m MethodNoAcceptable = false.
Proof. intros H. apply Ascii.eqb_eq in H. subst m. reflexivity. Qed.

(** X19.  [Client.proxy] offers 0x00 and the method of its [Auth], and goes
    by the method of the server's reply without checking that it is one of
    the two: 0xFF is an error; 0x00 means no authentication; any other
    method makes the client run its own [Auth], so that a client set up
    with [PassAuth] sends its user name and password to a server that has
    named a method the client never offered, and a client set up with
    [NoAuth] goes on without authenticating. *)
Lemma Client_proxy_method (c : Client) (m : byte) (tail : list byte) :
  cl_Dialer c "tcp" (Proxy c) = inr (incoming ([Version; m] ++ tail)) ->
  let greeting := NegotiationRequest_wire [MethodNotRequired; Auth_Method (cl_Auth c)] in
  let after_greeting := NewConn (mkRawConn tail greeting false) in
  Client_proxy c ctxBackground
  = if Ascii.eqb m MethodNoAcceptable then
      ((None, Some (ErrNew ErrProtocol
                      "neither of selected authentication methods are supported by the server")),
       Some after_greeting)
    else if Ascii.eqb m MethodNotRequired then ((Some after_greeting, None), Some after_greeting)
    else
      match cl_Auth c with
      | NoAuth => ((Some after_greeting, None), Some after_greeting)
      | PasswordAuth a =>
          let '(err, proxy) := PassAuth_Request a ctxBackground after_greeting in
          match err with
          | Some e => ((None, Some e), Some proxy)
          | None => ((Some proxy, None), Some proxy)
          end
      end.
Proof.
  intros Hd. cbv zeta. unfold Client_proxy. rewrite Hd.
  unfold NewConn, incoming, Client_authMethods.
  rewrite negotiator_Request_run. cbn [app length].
  unfold Client_auth, NegotiationRequest_wire. cbn [app length].
  destruct (Ascii.eqb m MethodNoAcceptable) eqn:Eff; [reflexivity|].
  destruct (Ascii.eqb m MethodNotRequired) eqn:E0; [reflexivity|].
  destruct (cl_Auth c) as [|a]; reflexivity.
Qed.

Lemma Client_proxy_method_witness :
  let c := mkClient ":1080"
             (fun _ _ => inr (incoming (map byte_of_nat [5; 1; 1; 0])))
             (PasswordAuth (NewPassAuth "u" "p")) 0 in
  Client_proxy c ctxBackground
  = ((Some (NewConn (mkRawConn [] (map byte_of_nat [5; 2; 0; 2; 1; 1; 117; 1; 112]) false)),
      None),
     Some (NewConn (mkRawConn [] (map byte_of_nat [5; 2; 0; 2; 1; 1; 117; 1; 112]) false))).
Proof.
  exact (Client_proxy_method
           (mkClient ":1080" (fun _ _ => inr (incoming (map byte_of_nat [5; 1; 1; 0])))
              (PasswordAuth (NewPassAuth "u" "p")) 0)
           (byte_of_nat 1) (map byte_of_nat [1; 0]) eq_refl).
Defined.

Lemma Client_proxy_NotRequired (c : Client) (tail : list byte) :
  cl_Dialer c "tcp" (Proxy c) = inr (incoming ([Version; MethodNotRequired] ++ tail)) ->
  Client_proxy c ctxBackground
  = ((Some (NewConn (mkRawConn tail (NegotiationRequest_wire (Client_authMethods c)) false)),
      None),
     Some (NewConn (mkRawConn tail (NegotiationRequest_wire (Client_authMethods c)) false))).
Proof.
  intros Hd. unfold Client_proxy. rewrite Hd.
  unfold NewConn, incoming. rewrite negotiator_Request_run.
  reflexivity.
Qed.

Lemma Client_readReply_run (req : Request) (r rsv : byte) (bnd : Addr) (rest o : list byte)
  (al cd : bool) :
  nat_of_byte r < 9 -> valid_Addr bnd = true ->
  Client_readReply ctxBackground
    (mkConn al (mkRawConn ([Version; r; rsv] ++ Addr_wire bnd ++ rest) o false) cd) req
  = ((if Ascii.eqb r RepSucceeded
      then (Some (mkReply r (Some (on_network (cmdType_Network (Cmd req)) bnd))), None)
      else (None, Some (ErrSOCKS r (ErrorContext r)))),
     mkConn al (mkRawConn rest o false) cd).
Proof.
  intros Hr Hb. unfold Client_readReply.
  rewrite (Conn_ReadMessage_Reply al cd rest o (mkReply zero None) r rsv bnd Hr Hb).
  cbn [Bnd Rep on_network Atyp Host Port].
  unfold makeErrorContext, errorContext_Code, SOCKSError, on_network.
  destruct (Ascii.eqb r RepSucceeded); reflexivity.
Qed.

(** X22.  [Client.Connect], once the proxy has chosen "no authentication":
    the client sends its greeting and the CONNECT request for the parsed
    address; a reply with REP = 0x00 gives back the connection to the
    proxy, with the bytes after the reply still unread; a reply with a code
    from 0x01 to 0x08 gives a SOCKS error with that code, and the
    connection to the proxy is left open. *)
Lemma Client_Connect_reply (c : Client) (address : string) (dst bnd : Addr) (r rsv : byte)
  (rest : list byte) :
  ParseAddr "tcp" address = Some dst ->
  nat_of_byte r < 9 -> valid_Addr bnd = true ->
  cl_Dialer c "tcp" (Proxy c)
  = inr (incoming ([Version; MethodNotRequired] ++ [Version; r; rsv] ++ Addr_wire bnd ++ rest)) ->
  let sent := NegotiationRequest_wire (Client_authMethods c)
              ++ [Version; CmdConnect; zero] ++ Addr_wire dst in
  Client_Connect c ctxBackground address
  = ((if Ascii.eqb r RepSucceeded
      then (Some (mkRawConn rest sent false), None)
      else (None, Some (ErrSOCKS r (ErrorContext r)))),
     Some (NewConn (mkRawConn rest sent false))).
Proof.
  intros Hp Hr Hb Hd. cbv zeta. unfold Client_Connect.
  rewrite (Client_proxy_NotRequired c _ Hd).
  unfold Client_cmd. change (cmdType_Network CmdConnect) with "tcp". rewrite Hp.
  unfold NewConn.
  rewrite (Conn_WriteMessage_Request true true _ _ CmdConnect dst
             (ParseAddr_consistent "tcp" address dst Hp)).
  rewrite (Client_readReply_run (mkRequest CmdConnect (Some dst)) r rsv bnd rest _ true true
             Hr Hb).
  destruct (Ascii.eqb r RepSucceeded); reflexivity.
Qed.

Lemma Client_Connect_reply_witness :
  let c := mkClient ":1080"
             (fun _ _ => inr (incoming ([Version; MethodNotRequired]
                                          ++ failReply_wire RepHostUnreachable)))
             NoAuth 0 in
  Client_Connect c ctxBackground "192.0.2.7:80"
  = ((None, Some (ErrSOCKS RepHostUnreachable (ErrorContext RepHostUnreachable))),
     Some (NewConn (mkRawConn []
                      (map byte_of_nat [5; 2; 0; 0; 5; 1; 0; 1; 192; 0; 2; 7; 0; 80]) false))).
Proof.
  exact (Client_Connect_reply
           (mkClient ":1080"
              (fun _ _ => inr (incoming ([Version; MethodNotRequired]
                                           ++ failReply_wire RepHostUnreachable)))
              NoAuth 0)
           "192.0.2.7:80" (mkAddr "tcp" AddrIPV4 "192.0.2.7" 80) NilAddr
           RepHostUnreachable zero [] eq_refl ltac:(vm_compute; lia) eq_refl eq_refl).
Defined.

(** ** A CONNECT that succeeds *)

Lemma live_Context (ctx : Context) : ctx_Err ctx = None -> ctx = ctxBackground.
Proof. destruct ctx as [e]. cbn. intros ->. reflexivity. Qed.

Lemma Server_auth_NoAuth (srv : Server) (ms : list authMethod) (rest o : list byte)
  (al cd : bool) :
  srv_Auth srv = NoAuth -> ctx_Err (srv_ctx srv) = None ->
  length ms <= 255 -> isMethodSupported MethodNotRequired ms = true ->
  Server_auth srv (mkConn al (mkRawConn (NegotiationRequest_wire ms ++ rest) o false) cd)
  = (None, mkConn al (mkRawConn rest (o ++ [Version; MethodNotRequired]) false) cd).
Proof.
  intros Ha Hctx Hl Hs. unfold Server_auth.
  rewrite Ha, (live_Context _ Hctx). cbn [Auth_Method Auth_Reply].
  unfold noAuth_Method, noAuth_Reply.
  rewrite (negotiator_Reply_run MethodNotRequired ms rest o al cd Hl), Hs.
  reflexivity.
Qed.

Lemma ParseNetAddr_consistent (addr : netAddr) (a : Addr) :
  ParseNetAddr addr = Some a -> consistent_Addr a = true.
Proof. unfold ParseNetAddr. apply ParseAddr_consistent. Qed.

Lemma Server_handle_CONNECT (srv : Server) (env : Env) (tctx : Context) (dst bnd : Addr)
  (up : NetConn) (rsv : byte) (rest o : list byte) (al cd : bool) :
  ctx_Err (if Server_timeoutEnabled srv then tctx else ctxBackground) = None ->
  valid_Addr dst = true ->
  Dialer srv "tcp" (Addr_String dst) = inr up ->
  ParseNetAddr (nc_LocalAddr up) = Some bnd ->
  Server_handle srv env tctx
    (mkConn al (mkRawConn ([Version; CmdConnect; rsv] ++ Addr_wire dst ++ rest) o false) cd)
  = ((Some (tcpConn up (mkRequest CmdConnect (Some (on_network "tcp" dst)))), None),
     mkConn al (mkRawConn rest (o ++ [Version; RepSucceeded; zero] ++ Addr_wire bnd) false) cd,
     env_rand env).
Proof.
  intros Hctx Hv Hd Hb. unfold Server_handle. cbv zeta.
  rewrite (live_Context _ Hctx). unfold cmdType, repType in *.
  rewrite (Conn_ReadMessage_Request al cd rest o (mkRequest zero None) CmdConnect rsv dst
             ltac:(vm_compute; lia) Hv).
  cbn [Cmd]. change (Ascii.eqb CmdConnect CmdConnect) with true. cbv iota.
  unfold Server_handleCONNECT.
  change (Dst_String (mkRequest CmdConnect
                        (Some (on_network (cmdType_Network CmdConnect) dst))))
    with (Addr_String dst).
  rewrite Hd, Hb.
  rewrite (Conn_WriteMessage_Reply al cd rest o RepSucceeded bnd
             (ParseNetAddr_consistent _ _ Hb)).
  reflexivity.
Qed.

(** X23.  A CONNECT on a server with [NoAuth].  The client's greeting
    lists 0x00 among at most 255 methods and is followed by a CONNECT
    request for a valid address; the upstream dial succeeds.  Then [serve]
    replies [05 00], dials the address in the text form of [Addr.String],
    replies with REP = 0x00 and the local address of the new connection as
    BND, and goes on to relay between the client, left open, and that
    connection.  Bytes the client has sent after the request stay unread. *)
Lemma Server_serve_CONNECT (srv : Server) (env : Env) (tctx : Context)
  (ms : list authMethod) (dst bnd : Addr) (up : NetConn) (rsv : byte) (rest o : list byte) :
  srv_Auth srv = NoAuth -> ctx_Err (srv_ctx srv) = None ->
  ctx_Err (if Server_timeoutEnabled srv then tctx else ctxBackground) = None ->
  length ms <= 255 -> isMethodSupported MethodNotRequired ms = true ->
  valid_Addr dst = true ->
  Dialer srv "tcp" (Addr_String dst) = inr up ->
  ParseNetAddr (nc_LocalAddr up) = Some bnd ->
  Server_serve srv env tctx
    (mkRawConn (NegotiationRequest_wire ms ++ [Version; CmdConnect; rsv] ++ Addr_wire dst ++ rest)
       o false)
  = (Relay (tcpConn up (mkRequest CmdConnect (Some (on_network "tcp" dst)))),
     NewConn (mkRawConn rest
                (o ++ [Version; MethodNotRequired] ++ [Version; RepSucceeded; zero]
                   ++ Addr_wire bnd) false)).
Proof.
  intros Ha Hctx Htctx Hl Hs Hv Hd Hb. unfold Server_serve, NewConn.
  rewrite (Server_auth_NoAuth srv ms _ o true true Ha Hctx Hl Hs).
  rewrite (Server_handle_CONNECT srv env tctx dst bnd up rsv rest _ true true Htctx Hv Hd Hb).
  rewrite <- app_assoc. reflexivity.
Qed.

Lemma Server_serve_CONNECT_witness :
  let up := mkNetConn (mkNetAddr "tcp" "198.51.100.1:40000") (mkNetAddr "tcp" "192.0.2.7:80") in
  let srv := mkServer ":1080" 0 NoAuth (fun _ _ => inr up) 0 ctxBackground in
  let env := mkEnv (fun _ _ => inl (ErrNet "in use")) (fun _ => inl (ErrNet "closed")) [] in
  Server_serve srv env ctxBackground
    (incoming (map byte_of_nat [5; 1; 0; 5; 1; 0; 1; 192; 0; 2; 7; 0; 80]))
  = (Relay (tcpConn up (mkRequest CmdConnect (Some (mkAddr "tcp" AddrIPV4 "192.0.2.7" 80)))),
     NewConn (mkRawConn []
                (map byte_of_nat [5; 0; 5; 0; 0; 1; 198; 51; 100; 1; 156; 64]) false)).
Proof.
  exact (Server_serve_CONNECT
           (mkServer ":1080" 0 NoAuth
              (fun _ _ => inr (mkNetConn (mkNetAddr "tcp" "198.51.100.1:40000")
                                 (mkNetAddr "tcp" "192.0.2.7:80")))
              0 ctxBackground)
           (mkEnv (fun _ _ => inl (ErrNet "in use")) (fun _ => inl (ErrNet "closed")) [])
           ctxBackground [MethodNotRequired]
           (mkAddr "tcp" AddrIPV4 "192.0.2.7" 80)
           (mkAddr "tcp" AddrIPV4 "198.51.100.1" 40000)
           (mkNetConn (mkNetAddr "tcp" "198.51.100.1:40000") (mkNetAddr "tcp" "192.0.2.7:80"))
           zero [] []
           eq_refl eq_refl eq_refl ltac:(cbn; lia) eq_refl eq_refl eq_refl eq_refl).
Defined.

Lemma ParseAddr_network (nw s : string) (a : Addr) :
  ParseAddr nw s = Some a -> on_network nw a = a.
Proof.
  unfold ParseAddr.
  destruct (SplitHostPort s) as [[host port]|]; [|discriminate].
  destruct (ParseUint16 port) as [n|]; [|discriminate].
  intros [= <-]. reflexivity.
Qed.

(** X24.  A CONNECT session between this client and this server (with
    [NoAuth]) goes through.  The server reads what [Client.Connect] sends
    for an address that parses to a valid [Addr], and its upstream dial
    succeeds with a local address that is valid as well; the client reads
    what the server has written.  Then the server goes on to relay to the
    connection it dialled for the very address the client asked for, and
    [Connect] returns the connection to the proxy without an error, with
    nothing of the handshake left unread on it. *)
Lemma CONNECT_session (c : Client) (srv : Server) (env : Env) (tctx : Context)
  (address : string) (dst bnd : Addr) (up : NetConn) :
  srv_Auth srv = NoAuth -> ctx_Err (srv_ctx srv) = None ->
  ctx_Err (if Server_timeoutEnabled srv then tctx else ctxBackground) = None ->
  ParseAddr "tcp" address = Some dst -> valid_Addr dst = true ->
  Dialer srv "tcp" (Addr_String dst) = inr up ->
  ParseNetAddr (nc_LocalAddr up) = Some bnd -> valid_Addr bnd = true ->
  let sent := NegotiationRequest_wire (Client_authMethods c)
              ++ [Version; CmdConnect; zero] ++ Addr_wire dst in
  let server := Server_serve srv env tctx (incoming sent) in
  cl_Dialer c "tcp" (Proxy c) = inr (incoming (rc_out (raw (snd server)))) ->
  fst server = Relay (tcpConn up (mkRequest CmdConnect (Some dst)))
  /\ Client_Connect c ctxBackground address
     = ((Some (mkRawConn [] sent false), None), Some (NewConn (mkRawConn [] sent false))).
Proof.
  intros Ha Hctx Htctx Hp Hv Hd Hb Hvb sent server.
  assert (Hserver : server
                    = (Relay (tcpConn up (mkRequest CmdConnect (Some dst))),
                       NewConn (mkRawConn []
                                  ([Version; MethodNotRequired]
                                     ++ [Version; RepSucceeded; zero] ++ Addr_wire bnd ++ [])
                                  false))).
  { subst server sent. unfold Server_serve, NewConn, incoming.
    pose proof (Server_auth_NoAuth srv (Client_authMethods c)
                  ([Version; CmdConnect; zero] ++ Addr_wire dst ++ []) [] true true
                  Ha Hctx ltac:(cbn; lia) eq_refl) as H1.
    rewrite app_nil_r in H1. unfold cmdType in *. rewrite H1.
    pose proof (Server_handle_CONNECT srv env tctx dst bnd up zero []
                  ([] ++ [Version; MethodNotRequired]) true true Htctx Hv Hd Hb) as H2.
    rewrite app_nil_r in H2. unfold cmdType in *. rewrite H2.
    rewrite (ParseAddr_network "tcp" address dst Hp), app_nil_r. reflexivity. }
  rewrite Hserver. cbn [fst snd raw rc_out NewConn]. intros Hdial.
  split; [reflexivity|].
  unfold Client_Connect.
  rewrite (Client_proxy_NotRequired c _ Hdial).
  unfold Client_cmd. change (cmdType_Network CmdConnect) with "tcp". rewrite Hp.
  unfold NewConn.
  rewrite (Conn_WriteMessage_Request true true _ _ CmdConnect dst
             (ParseAddr_consistent "tcp" address dst Hp)).
  rewrite (Client_readReply_run (mkRequest CmdConnect (Some dst)) RepSucceeded zero bnd [] _
             true true ltac:(vm_compute; lia) Hvb).
  reflexivity.
Qed.

Lemma CONNECT_session_witness :
  let up := mkNetConn (mkNetAddr "tcp" "198.51.100.1:40000") (mkNetAddr "tcp" "192.0.2.7:80") in
  let srv := mkServer ":1080" 0 NoAuth (fun _ _ => inr up) 0 ctxBackground in
  let env := mkEnv (fun _ _ => inl (ErrNet "in use")) (fun _ => inl (ErrNet "closed")) [] in
  let sent := map byte_of_nat [5; 2; 0; 0; 5; 1; 0; 1; 192; 0; 2; 7; 0; 80] in
  let c := mkClient ":1080"
             (fun _ _ => inr (incoming (rc_out (raw (snd (Server_serve srv env ctxBackground
                                                            (incoming sent)))))))
             NoAuth 0 in
  fst (Server_serve srv env ctxBackground (incoming sent))
  = Relay (tcpConn up (mkRequest CmdConnect (Some (mkAddr "tcp" AddrIPV4 "192.0.2.7" 80))))
  /\ Client_Connect c ctxBackground "192.0.2.7:80"
     = ((Some (mkRawConn [] sent false), None), Some (NewConn (mkRawConn [] sent false))).
Proof.
  exact (CONNECT_session
           (mkClient ":1080"
              (fun _ _ =>
                 inr (incoming
                        (rc_out (raw (snd (Server_serve
                           (mkServer ":1080" 0 NoAuth
                              (fun _ _ => inr (mkNetConn (mkNetAddr "tcp" "198.51.100.1:40000")
                                                 (mkNetAddr "tcp" "192.0.2.7:80")))
                              0 ctxBackground)
                           (mkEnv (fun _ _ => inl (ErrNet "in use"))
                              (fun _ => inl (ErrNet "closed")) [])
                           ctxBackground
                           (incoming (map byte_of_nat
                                        [5; 2; 0; 0; 5; 1; 0; 1; 192; 0; 2; 7; 0; 80]))))))))
              NoAuth 0)
           (mkServer ":1080" 0 NoAuth
              (fun _ _ => inr (mkNetConn (mkNetAddr "tcp" "198.51.100.1:40000")
                                 (mkNetAddr "tcp" "192.0.2.7:80")))
              0 ctxBackground)
           (mkEnv (fun _ _ => inl (ErrNet "in use")) (fun _ => inl (ErrNet "closed")) [])
           ctxBackground "192.0.2.7:80"
           (mkAddr "tcp" AddrIPV4 "192.0.2.7" 80)
           (mkAddr "tcp" AddrIPV4 "198.51.100.1" 40000)
           (mkNetConn (mkNetAddr "tcp" "198.51.100.1:40000") (mkNetAddr "tcp" "192.0.2.7:80"))
           eq_refl eq_refl eq_refl eq_refl eq_refl eq_refl eq_refl eq_refl eq_refl).
Defined.

(** ** UDP headers on a [UDPConn] *)

Lemma UDPHeader_Read_wire (h0 : UDPHeader) (r0 r1 frag : byte) (a : Addr) (data : list byte)
  (fuel : nat) :
  valid_Addr a = true -> length data < fuel ->
  UDPHeader_Read fuel h0 (PlainR (mkBytesReader ([r0; r1; frag] ++ Addr_wire a ++ data)))
  = Some ((None, mkUDPHeader frag (Some (on_network "udp" a)) data),
          PlainR (mkBytesReader [])).
Proof.
  intros Ha Hf. unfold UDPHeader_Read. cbn [NewReader ioReader_after].
  rewrite (ErrReader_Read_exact mkBytesReader bytesReader_Read_exact [r0; r1; frag])
    by (reflexivity || discriminate).
  cbn [at_ nth Frag udp_Dst Data].
  rewrite (Addr_Read_wire mkBytesReader bytesReader_Read_exact new_Addr a "udp" data Ha).
  cbn [NewReader].
  rewrite io_ReadAll_bytes by exact Hf.
  reflexivity.
Qed.

Lemma on_own_network (a : Addr) : on_network (network a) a = a.
Proof. destruct a. reflexivity. Qed.

(** X25.  [UDPConn.Write] on a connection whose [Dst] came from
    [ParseAddr] (as [SOCKSDialer.DialContext] sets it) sends, on the data
    socket only, the header [00 00 00], the address [Dst] and the payload,
    and reports the length of the payload; [Dst] goes through
    [Addr.String] and [ParseAddr] on the way and comes out the same. *)
Lemma UDPConn_Write_sends (c : Sockets.UDPConn) (p : list byte) (st : Sockets.store)
  (nw s : string) (dst : Addr) :
  ParseAddr nw s = Some dst ->
  Sockets.UDPConn_Dst c = Some dst ->
  rc_closed (st (Sockets.data c)) = false ->
  UDPConn_Write c p st
  = ((length p, None),
     Sockets.update st (Sockets.data c)
       (mkRawConn (rc_in (st (Sockets.data c)))
          (rc_out (st (Sockets.data c)) ++ [zero; zero; zero] ++ Addr_wire dst ++ p) false)).
Proof.
  intros Hp Hd Hopen. unfold UDPConn_Write, UDPConn_WriteTo. rewrite Hd.
  unfold ParseNetAddr. cbn [na_network na_string].
  rewrite (ParseAddr_of_String nw (network dst) s dst Hp), on_own_network.
  rewrite (UDPHeader_Write_wire RawConn _ (st (Sockets.data c)) zero dst p
             (ParseAddr_consistent nw s dst Hp)).
  destruct (st (Sockets.data c)) as [i o cl] eqn:Es. cbn [rc_closed rc_in rc_out] in *.
  subst cl. rewrite one_Write_RawConn. reflexivity.
Qed.

Lemma UDPConn_Write_sends_witness :
  let dst := mkAddr "udp" AddrIPV4 "192.0.2.7" 53 in
  let c := Sockets.mkUDPConn 0 1 (make 64) (Some dst) in
  let st := fun _ : Sockets.sock => fresh in
  UDPConn_Write c [byte_of_nat 1; byte_of_nat 2] st
  = ((2, None),
     Sockets.update st 1
       (mkRawConn [] ([] ++ [zero; zero; zero] ++ Addr_wire dst
                         ++ [byte_of_nat 1; byte_of_nat 2]) false)).
Proof.
  exact (UDPConn_Write_sends
           (Sockets.mkUDPConn 0 1 (make 64) (Some (mkAddr "udp" AddrIPV4 "192.0.2.7" 53)))
           [byte_of_nat 1; byte_of_nat 2] (fun _ => fresh)
           "udp" "192.0.2.7:53" (mkAddr "udp" AddrIPV4 "192.0.2.7" 53)
           eq_refl eq_refl eq_refl).
Defined.

(** X26.  [UDPConn.ReadFrom] (and so [UDPConn.Read]) does not deliver the
    payload.  For a datagram on the data socket that fits the [income]
    buffer and holds a header with a valid address and a payload, it
    returns the length of the payload, the address of the header (on the
    network "udp") and no error, but the caller's slice [p] is left as it
    was, whatever its length: the payload stays in the header that
    [ReadHeader] returns. *)
Lemma UDPConn_ReadFrom_count (fuel : nat) (c : Sockets.UDPConn) (p payload o : list byte)
  (st : Sockets.store) (r0 r1 frag : byte) (a : Addr) :
  valid_Addr a = true -> length payload < fuel ->
  st (Sockets.data c) = mkRawConn ([r0; r1; frag] ++ Addr_wire a ++ payload) o false ->
  length ([r0; r1; frag] ++ Addr_wire a ++ payload) <= length (Sockets.income c) ->
  let datagram := [r0; r1; frag] ++ Addr_wire a ++ payload in
  let c' := Sockets.mkUDPConn (Sockets.control c) (Sockets.data c)
              (datagram ++ skipn (length datagram) (Sockets.income c))
              (Sockets.UDPConn_Dst c) in
  let st' := Sockets.update st (Sockets.data c) (mkRawConn [] o false) in
  UDPConn_ReadHeader fuel c st
  = Some ((Some (mkUDPHeader frag (Some (on_network "udp" a)) payload), None), c', st')
  /\ UDPConn_ReadFrom fuel c p st
     = Some ((p, length payload, Some (on_network "udp" a), None), c', st')
  /\ UDPConn_Read fuel c p st = Some ((p, length payload, None), c', st').
Proof.
  intros Ha Hf Hst Hfit dg c' st'.
  assert (HH : UDPConn_ReadHeader fuel c st
               = Some ((Some (mkUDPHeader frag (Some (on_network "udp" a)) payload), None),
                       c', st')).
  { unfold UDPConn_ReadHeader, Sockets.Read. rewrite Hst.
    rewrite RawConn_Read_short by (discriminate || exact Hfit).
    cbn [Sockets.income]. fold dg.
    rewrite firstn_app, firstn_all, Nat.sub_diag, firstn_O, app_nil_r.
    subst dg. rewrite (UDPHeader_Read_wire _ r0 r1 frag a payload fuel Ha Hf).
    reflexivity. }
  assert (HF : UDPConn_ReadFrom fuel c p st
               = Some ((p, length payload, Some (on_network "udp" a), None), c', st'))
    by (unfold UDPConn_ReadFrom; rewrite HH; reflexivity).
  split; [exact HH|]. split; [exact HF|].
  unfold UDPConn_Read. rewrite HF. reflexivity.
Qed.

Lemma UDPConn_ReadFrom_count_witness :
  let a := mkAddr "udp" AddrIPV4 "192.0.2.7" 53 in
  let payload := map byte_of_nat [104; 105; 33] in
  let datagram := [zero; zero; zero] ++ Addr_wire a ++ payload in
  let c := Sockets.NewUDPConnSize 0 1 64 in
  let st := fun s : Sockets.sock => if s =? 1 then incoming datagram else fresh in
  let c' := Sockets.mkUDPConn 0 1 (datagram ++ skipn (length datagram) (make 64)) None in
  let st' := Sockets.update st 1 (mkRawConn [] [] false) in
  UDPConn_ReadHeader 4 c st = Some ((Some (mkUDPHeader zero (Some a) payload), None), c', st')
  /\ UDPConn_ReadFrom 4 c [] st = Some (([], 3, Some a, None), c', st')
  /\ UDPConn_Read 4 c [] st = Some (([], 3, None), c', st').
Proof.
  exact (UDPConn_ReadFrom_count 4 (Sockets.NewUDPConnSize 0 1 64) []
           (map byte_of_nat [104; 105; 33]) []
           (fun s : Sockets.sock =>
              if s =? 1
              then incoming ([zero; zero; zero] ++ Addr_wire (mkAddr "udp" AddrIPV4 "192.0.2.7" 53)
                               ++ map byte_of_nat [104; 105; 33])
              else fresh)
           zero zero zero (mkAddr "udp" AddrIPV4 "192.0.2.7" 53)
           eq_refl ltac:(cbn; lia) eq_refl ltac:(vm_compute; lia)).
Defined.

(** ** BIND: two replies *)

(** X27.  [handle] on a BIND request whose listener could be bound and
    has accepted a connection: the server sends two replies with REP =
    0x00, the first with the address of the listener as BND, the second
    with the remote address of the accepted connection, and returns the
    connection to relay to; the client is left open. *)
Lemma Server_handle_BIND (srv : Server) (env : Env) (tctx : Context) (dst b1 b2 : Addr)
  (l peer : NetConn) (rnd : list nat) (rsv : byte) (rest o : list byte) (al cd : bool) :
  ctx_Err (if Server_timeoutEnabled srv then tctx else ctxBackground) = None ->
  valid_Addr dst = true ->
  Server_listen env (env_rand env) "tcp" (extractPort (Addr_String dst)) true = (inr l, rnd) ->
  ParseNetAddr (nc_LocalAddr l) = Some b1 ->
  env_accept env l = inr peer ->
  ParseNetAddr (nc_RemoteAddr peer) = Some b2 ->
  Server_handle srv env tctx
    (mkConn al (mkRawConn ([Version; CmdBind; rsv] ++ Addr_wire dst ++ rest) o false) cd)
  = ((Some (tcpConn peer (mkRequest CmdBind (Some (on_network "tcp" dst)))), None),
     mkConn al
       (mkRawConn rest
          (o ++ ([Version; RepSucceeded; zero] ++ Addr_wire b1)
             ++ [Version; RepSucceeded; zero] ++ Addr_wire b2) false) cd,
     rnd).
Proof.
  intros Hctx Hv Hl Hb1 Hacc Hb2. unfold Server_handle. cbv zeta.
  rewrite (live_Context _ Hctx). unfold cmdType, repType in *.
  rewrite (Conn_ReadMessage_Request al cd rest o (mkRequest zero None) CmdBind rsv dst
             ltac:(vm_compute; lia) Hv).
  cbn [Cmd]. change (Ascii.eqb CmdBind CmdConnect) with false.
  change (Ascii.eqb CmdBind CmdBind) with true. cbv iota.
  unfold Server_handleBIND.
  change (Dst_String (mkRequest CmdBind (Some (on_network (cmdType_Network CmdBind) dst))))
    with (Addr_String dst).
  rewrite Hl, Hb1.
  rewrite (Conn_WriteMessage_Reply al cd rest o RepSucceeded b1
             (ParseNetAddr_consistent _ _ Hb1)).
  rewrite Hacc. cbn [Rep]. rewrite Hb2.
  rewrite (Conn_WriteMessage_Reply al cd rest _ RepSucceeded b2
             (ParseNetAddr_consistent _ _ Hb2)).
  rewrite <- app_assoc. reflexivity.
Qed.

Lemma Server_handle_BIND_witness :
  let l := mkNetConn (mkNetAddr "tcp" "0.0.0.0:2507") (mkNetAddr "tcp" "") in
  let peer := mkNetConn (mkNetAddr "tcp" "198.51.100.1:2507") (mkNetAddr "tcp" "203.0.113.9:4444") in
  let srv := mkServer ":1080" 0 NoAuth (fun _ _ => inl (ErrNet "unreachable")) 0 ctxBackground in
  let env := mkEnv (fun _ a => match SplitHostPort a with
                               | None => inl (ErrNet "missing port in address")
                               | Some _ => inr l
                               end)
                   (fun _ => inr peer) [7] in
  Server_handle srv env ctxBackground
    (NewConn (incoming (map byte_of_nat [5; 2; 0; 1; 192; 0; 2; 7; 0; 80])))
  = ((Some (tcpConn peer (mkRequest CmdBind (Some (mkAddr "tcp" AddrIPV4 "192.0.2.7" 80)))),
      None),
     NewConn (mkRawConn []
                (map byte_of_nat [5; 0; 0; 1; 0; 0; 0; 0; 9; 203;
                                  5; 0; 0; 1; 203; 0; 113; 9; 17; 92]) false),
     []).
Proof.
  exact (Server_handle_BIND
           (mkServer ":1080" 0 NoAuth (fun _ _ => inl (ErrNet "unreachable")) 0 ctxBackground)
           (mkEnv (fun _ a => match SplitHostPort a with
                              | None => inl (ErrNet "missing port in address")
                              | Some _ =>
                                  inr (mkNetConn (mkNetAddr "tcp" "0.0.0.0:2507")
                                         (mkNetAddr "tcp" ""))
                              end)
                  (fun _ => inr (mkNetConn (mkNetAddr "tcp" "198.51.100.1:2507")
                                   (mkNetAddr "tcp" "203.0.113.9:4444")))
                  [7])
           ctxBackground
           (mkAddr "tcp" AddrIPV4 "192.0.2.7" 80)
           (mkAddr "tcp" AddrIPV4 "0.0.0.0" 2507)
           (mkAddr "tcp" AddrIPV4 "203.0.113.9" 4444)
           (mkNetConn (mkNetAddr "tcp" "0.0.0.0:2507") (mkNetAddr "tcp" ""))
           (mkNetConn (mkNetAddr "tcp" "198.51.100.1:2507") (mkNetAddr "tcp" "203.0.113.9:4444"))
           [] zero [] [] true true
           eq_refl eq_refl eq_refl eq_refl eq_refl eq_refl).
Defined.

(** X28.  [Client.Bind], once the proxy has chosen "no authentication" and
    has answered the BIND request with REP = 0x00: the BND address of that
    first reply goes to the channel (on the network "tcp"), and a second
    reply is read.  [Bind] then returns the connection to the proxy in
    every case, together with a SOCKS error when the second reply carries a
    code from 0x01 to 0x08: the caller gets a connection and an error at
    once. *)
Lemma Client_Bind_replies (c : Client) (address : string) (dst b1 b2 : Addr)
  (r rsv1 rsv2 : byte) (rest : list byte) :
  ParseAddr "tcp" address = Some dst ->
  nat_of_byte r < 9 -> valid_Addr b1 = true -> valid_Addr b2 = true ->
  cl_Dialer c "tcp" (Proxy c)
  = inr (incoming ([Version; MethodNotRequired]
                     ++ [Version; RepSucceeded; rsv1] ++ Addr_wire b1
                     ++ [Version; r; rsv2] ++ Addr_wire b2 ++ rest)) ->
  let sent := NegotiationRequest_wire (Client_authMethods c)
              ++ [Version; CmdBind; zero] ++ Addr_wire dst in
  Client_Bind c ctxBackground address
  = ((Some (mkRawConn rest sent false),
      if Ascii.eqb r RepSucceeded then None else Some (ErrSOCKS r (ErrorContext r))),
     [Some (on_network "tcp" b1)],
     Some (NewConn (mkRawConn rest sent false))).
Proof.
  intros Hp Hr Hv1 Hv2 Hd. cbv zeta. unfold Client_Bind.
  rewrite (Client_proxy_NotRequired c _ Hd).
  unfold Client_cmd. change (cmdType_Network CmdBind) with "tcp". rewrite Hp.
  unfold NewConn. unfold cmdType, repType in *.
  rewrite (Conn_WriteMessage_Request true true _ _ CmdBind dst
             (ParseAddr_consistent "tcp" address dst Hp)).
  rewrite (Client_readReply_run (mkRequest CmdBind (Some dst)) RepSucceeded rsv1 b1 _ _
             true true ltac:(vm_compute; lia) Hv1).
  change (Ascii.eqb RepSucceeded RepSucceeded) with true. cbv iota. cbn [Bnd].
  rewrite (Client_readReply_run (mkRequest CmdBind (Some dst)) r rsv2 b2 rest _
             true true Hr Hv2).
  destruct (Ascii.eqb r RepSucceeded); reflexivity.
Qed.

Lemma Client_Bind_replies_witness :
  let b1 := mkAddr "" AddrIPV4 "0.0.0.0" 2507 in
  let c := mkClient ":1080"
             (fun _ _ => inr (incoming ([Version; MethodNotRequired]
                                          ++ [Version; RepSucceeded; zero] ++ Addr_wire b1
                                          ++ failReply_wire RepServerFailure)))
             NoAuth 0 in
  let sent := map byte_of_nat [5; 2; 0; 0; 5; 2; 0; 1; 0; 0; 0; 0; 19; 136] in
  Client_Bind c ctxBackground ":5000"
  = ((Some (mkRawConn [] sent false),
      Some (ErrSOCKS RepServerFailure (ErrorContext RepServerFailure))),
     [Some (mkAddr "tcp" AddrIPV4 "0.0.0.0" 2507)],
     Some (NewConn (mkRawConn [] sent false))).
Proof.
  exact (Client_Bind_replies
           (mkClient ":1080"
              (fun _ _ => inr (incoming ([Version; MethodNotRequired]
                                           ++ [Version; RepSucceeded; zero]
                                           ++ Addr_wire (mkAddr "" AddrIPV4 "0.0.0.0" 2507)
                                           ++ failReply_wire RepServerFailure)))
              NoAuth 0)
           ":5000" (mkAddr "tcp" AddrIPV4 "0.0.0.0" 5000)
           (mkAddr "" AddrIPV4 "0.0.0.0" 2507) NilAddr
           RepServerFailure zero zero []
           eq_refl ltac:(vm_compute; lia) eq_refl eq_refl eq_refl).
Defined.

(** ** UDP ASSOCIATE: two sockets and one reply *)

(** X29.  [handle] on a UDP ASSOCIATE request whose two sockets could be
    bound: the socket for the client's datagrams is bound with the
    address of the request (or, failing that, a random one), the socket
    towards the destinations at a random address, with no second try; the
    server sends one reply with REP = 0x00 and the local address of the
    first socket as BND, and returns the association with the server's
    [UDPBuffer].  The statements of [handle] do not close the client, but
    [NewUDPConnSize] has started [onTCPClose] on the client's connection:
    once that goroutine has run, the client's [net.Conn] is closed, with
    nothing more written to it and with [alive] as it was. *)
Lemma Server_handle_UDP (srv : Server) (env : Env) (tctx : Context) (dst bnd : Addr)
  (outcome income : NetConn) (rnd : list nat) (rsv : byte) (rest o : list byte)
  (al cd : bool) :
  ctx_Err (if Server_timeoutEnabled srv then tctx else ctxBackground) = None ->
  valid_Addr dst = true ->
  Server_listen env (env_rand env) "udp" (Addr_String dst) true = (inr outcome, rnd) ->
  env_listen env "udp" (fst (randomAddress rnd)) = inr income ->
  ParseNetAddr (nc_LocalAddr outcome) = Some bnd ->
  let sent := o ++ [Version; RepSucceeded; zero] ++ Addr_wire bnd in
  let c := NewUDPConnSize outcome (UDPBuffer srv) in
  Server_handle srv env tctx
    (mkConn al (mkRawConn ([Version; CmdUDP; rsv] ++ Addr_wire dst ++ rest) o false) cd)
  = ((Some (udpConn (UDPBuffer srv) c income
              (mkRequest CmdUDP (Some (on_network "udp" dst)))), None),
     mkConn al (mkRawConn rest sent false) cd,
     snd (randomAddress rnd))
  /\ uc_data c = outcome
  /\ length (uc_income c) = (if UDPBuffer srv =? 0 then 65535 else UDPBuffer srv)
  /\ UDPConn_started_ran c (mkConn al (mkRawConn rest sent false) cd)
     = mkConn al (mkRawConn rest sent true) cd.
Proof.
  intros Hctx Hv Hout Hin Hb sent c. split; [|split; [|split]].
  - unfold Server_handle. cbv zeta.
    rewrite (live_Context _ Hctx). unfold cmdType, repType in *.
    rewrite (Conn_ReadMessage_Request al cd rest o (mkRequest zero None) CmdUDP rsv dst
               ltac:(vm_compute; lia) Hv).
    cbn [Cmd]. change (Ascii.eqb CmdUDP CmdConnect) with false.
    change (Ascii.eqb CmdUDP CmdBind) with false.
    change (Ascii.eqb CmdUDP CmdUDP) with true. cbv iota.
    unfold Server_handleUDP.
    change (Dst_String (mkRequest CmdUDP (Some (on_network (cmdType_Network CmdUDP) dst))))
      with (Addr_String dst).
    rewrite Hout.
    destruct (randomAddress rnd) as [a rnd'] eqn:Er. cbn [fst snd] in *.
    unfold Server_listen, Server_makeListener.
    change (String.eqb "udp" "tcp") with false. change (String.eqb "udp" "udp") with true.
    cbv iota. rewrite Hin, Hb.
    rewrite (Conn_WriteMessage_Reply al cd rest o RepSucceeded bnd
               (ParseNetAddr_consistent _ _ Hb)).
    reflexivity.
  - reflexivity.
  - subst c. unfold NewUDPConnSize. cbn [uc_income]. unfold make. apply repeat_length.
  - reflexivity.
Qed.

Lemma Server_handle_UDP_witness :
  let sock := fun a : string => mkNetConn (mkNetAddr "udp" a) (mkNetAddr "udp" "") in
  let srv := mkServer ":1080" 1500 NoAuth (fun _ _ => inl (ErrNet "unreachable")) 0
               ctxBackground in
  let env := mkEnv (fun _ a => inr (sock a)) (fun _ => inl (ErrNet "closed")) [7] in
  let sent := [] ++ [Version; RepSucceeded; zero]
                 ++ Addr_wire (mkAddr "udp" AddrIPV4 "192.0.2.7" 80) in
  let c := NewUDPConnSize (sock "192.0.2.7:80") 1500 in
  Server_handle srv env ctxBackground
    (NewConn (incoming (map byte_of_nat [5; 3; 0; 1; 192; 0; 2; 7; 0; 80])))
  = ((Some (udpConn 1500 c (sock ":2507")
              (mkRequest CmdUDP (Some (mkAddr "udp" AddrIPV4 "192.0.2.7" 80)))), None),
     NewConn (mkRawConn [] sent false),
     [])
  /\ uc_data c = sock "192.0.2.7:80"
  /\ length (uc_income c) = 1500
  /\ UDPConn_started_ran c (NewConn (mkRawConn [] sent false))
     = mkConn true (mkRawConn [] sent true) true.
Proof.
  exact (Server_handle_UDP
           (mkServer ":1080" 1500 NoAuth (fun _ _ => inl (ErrNet "unreachable")) 0
              ctxBackground)
           (mkEnv (fun _ a => inr (mkNetConn (mkNetAddr "udp" a) (mkNetAddr "udp" "")))
              (fun _ => inl (ErrNet "closed")) [7])
           ctxBackground
           (mkAddr "udp" AddrIPV4 "192.0.2.7" 80)
           (mkAddr "udp" AddrIPV4 "192.0.2.7" 80)
           (mkNetConn (mkNetAddr "udp" "192.0.2.7:80") (mkNetAddr "udp" ""))
           (mkNetConn (mkNetAddr "udp" ":2507") (mkNetAddr "udp" ""))
           [7] zero [] [] true true
           eq_refl eq_refl eq_refl eq_refl eq_refl).
Defined.
